(** * ORE scenario simulation market, parameters and application driver

    A shallow embedding of
    - [parseDecayMode], the constructor and [update] of [ScenarioSimMarket]
      (orea/scenario/scenariosimmarket.cpp),
    - the per-qualifier lookups of [ScenarioSimMarketParameters], its
      names and simulate flags, [setDefaults] and the blocks of [fromXML]
      that load the FX rates and the correlation pairs
      (orea/scenario/scenariosimmarketparameters.cpp),
    - the cube set-up and the aggregation stage of [OREApp]
      (orea/app/oreapp.cpp).

    Exceptions raised through QL_REQUIRE / QL_FAIL are values of [Error];
    a function that may throw returns a [Result].  Quantities of C++ type
    [Real] are only copied by the code embedded here, never computed with,
    so [Real] is kept abstract. *)

From stdpp Require Import gmap strings list fin_maps sorting.

Open Scope string_scope.
Open Scope list_scope.

(** ** Errors and results *)

(** One constructor per failure site of the embedded code; the dynamic part
    of the message is the payload. *)
Inductive Error : Type :=
  | DecayModeNotRecognized (s : string)
      (* QL_FAIL: Decay mode <s> not recognized *)
  | NoPeriodVectorForKey (k : string)
      (* QL_FAIL: no period vector for key <k> found. *)
  | NoDayCounterForKey (k : string)
      (* QL_FAIL: no dayCounter for key <k> found. *)
  | CubeDepthExpected
      (* QL_FAIL: cube depth 1 or 2 expected *)
  | CubeDimensionMismatch (cubeIds portfolioSize : nat)
      (* QL_REQUIRE: cube x dimension (..) does not match portfolio size (..) *)
  | ScenarioDatesMismatch
      (* QL_REQUIRE: scenario dates do not match cube grid size *)
  | ScenarioSamplesMismatch
      (* QL_REQUIRE: scenario sample size does not match cube sample size *)
  | MissingScenarioData
      (* QL_REQUIRE: simulation data points missing from scenario, exit. *)
  | ScenarioSizeMismatch
      (* QL_FAIL: mismatch between scenario and sim data size, exit. *)
  | YieldCurveTenorsIncludeZero
      (* QL_REQUIRE: yield curve tenors must not include t=0 *)
  | DefaultCurveTenorsIncludeZero
      (* QL_REQUIRE: default curve tenors must not include t=0 *)
  | EquityTenorGridNotDefined
      (* QL_REQUIRE: Equity curve tenor grid not defined *)
  | EquityCurveTenorsIncludeZero
      (* QL_REQUIRE: equity curve tenors must not include t=0 *)
  | InvalidCcyPair (p : string)
      (* QL_REQUIRE: Invalid Ccy pair <p> *)
  | NotProvided (what name : string)
      (* QL_REQUIRE: <what> for <name> not provided, and the lookups of the
         initial market that throw when the object is absent *)
  | FrontOfEmptyVector
      (* vector::front() on an empty vector: undefined behaviour in C++,
         kept apart from a normal return *)
  | DateOutOfRange
      (* asof + tenor leaves the range of representable dates *)
  | KeyNotFound
      (* Scenario::get on a key the scenario does not hold *)
  | ExternalFailure (what : string)
      (* an exception raised by a collaborator that is not part of this code *).

Inductive Result (A : Type) : Type :=
  | Ok (a : A)
  | Err (e : Error).
Arguments Ok {A} a.
Arguments Err {A} e.

Definition isOk {A} (r : Result A) : bool :=
  match r with Ok _ => true | Err _ => false end.

Definition isErr {A} (r : Result A) : bool := negb (isOk r).

(** ** Decay modes (scenariosimmarket.cpp, parseDecayMode) *)

Inductive ReactionToTimeDecay : Type :=
  | ConstantVariance
  | ForwardForwardVariance.

(** The static table [m] of [parseDecayMode]. *)
Definition decayModeTable : gmap string ReactionToTimeDecay :=
  {[ "ForwardVariance" := ForwardForwardVariance;
     "ConstantVariance" := ConstantVariance ]}.

Definition parseDecayMode (s : string) : Result ReactionToTimeDecay :=
  match decayModeTable !! s with
  | Some mode => Ok mode
  | None => Err (DecayModeNotRecognized s)
  end.

(** ** Time periods and dates (QuantLib value types) *)

Inductive TimeUnit : Type := Days | Weeks | Months | Years.

Record Period : Type := mkPeriod { length_ : Z; units_ : TimeUnit }.

(** The test [p > 0 * Days]: QuantLib compares a period with a period of
    length zero by the sign of the length alone, whatever the units. *)
Definition positivePeriod (p : Period) : bool := bool_decide (0 < length_ p)%Z.

(** Serial number of a calendar date. *)
Definition Date : Type := Z.

(** ** Per-qualifier parameter lookups (scenariosimmarketparameters.cpp) *)

Module Parameters.

Definition returnTenors (m : gmap string (list Period)) (k : string)
    : Result (list Period) :=
    match m !! k with
    | Some v => Ok v
    | None =>
        match m !! EmptyString with
        | Some v => Ok v
        | None => Err (NoPeriodVectorForKey k)
        end
    end.

Definition returnDayCounter (m : gmap string string) (k : string)
    : Result string :=
    match m !! k with
    | Some v => Ok v
    | None =>
        match m !! EmptyString with
        | Some v => Ok v
        | None => Err (NoDayCounterForKey k)
        end
    end.

  (** The members of [ScenarioSimMarketParameters] read through the two
      helpers. *)
Record ScenarioSimMarketParameters : Type := {
    yieldCurveTenors_ : gmap string (list Period);
    yieldCurveDayCounters_ : gmap string string;
    capFloorVolExpiries_ : gmap string (list Period);
    yoyInflationCapFloorVolExpiries_ : gmap string (list Period);
    defaultTenors_ : gmap string (list Period);
    defaultCurveDayCounters_ : gmap string string;
    defaultCurveCalendars_ : gmap string string;
    swapVolDayCounters_ : gmap string string;
    yieldVolDayCounters_ : gmap string string;
    fxVolDayCounters_ : gmap string string;
    cdsVolDayCounters_ : gmap string string;
    equityVolDayCounters_ : gmap string string;
    capFloorVolDayCounters_ : gmap string string;
    yoyInflationCapFloorVolDayCounters_ : gmap string string;
    equityDividendTenors_ : gmap string (list Period);
    zeroInflationTenors_ : gmap string (list Period);
    zeroInflationDayCounters_ : gmap string string;
    yoyInflationTenors_ : gmap string (list Period);
    yoyInflationDayCounters_ : gmap string string;
    baseCorrelationDayCounters_ : gmap string string;
    commodityCurveTenors_ : gmap string (list Period);
    commodityCurveDayCounters_ : gmap string string;
    commodityVolExpiries_ : gmap string (list Period);
    commodityVolDayCounters_ : gmap string string
  }.

Section Accessors.
Variable p : ScenarioSimMarketParameters.

Definition yieldCurveTenors key := returnTenors (yieldCurveTenors_ p) key.
Definition yieldCurveDayCounter key := returnDayCounter (yieldCurveDayCounters_ p) key.
Definition capFloorVolExpiries key := returnTenors (capFloorVolExpiries_ p) key.
Definition yoyInflationCapFloorVolExpiries key :=
      returnTenors (yoyInflationCapFloorVolExpiries_ p) key.
Definition defaultTenors key := returnTenors (defaultTenors_ p) key.
Definition defaultCurveDayCounter key := returnDayCounter (defaultCurveDayCounters_ p) key.
Definition defaultCurveCalendar key := returnDayCounter (defaultCurveCalendars_ p) key.
Definition swapVolDayCounter key := returnDayCounter (swapVolDayCounters_ p) key.
Definition yieldVolDayCounter key := returnDayCounter (yieldVolDayCounters_ p) key.
Definition fxVolDayCounter key := returnDayCounter (fxVolDayCounters_ p) key.
Definition cdsVolDayCounter key := returnDayCounter (cdsVolDayCounters_ p) key.
Definition equityVolDayCounter key := returnDayCounter (equityVolDayCounters_ p) key.
Definition capFloorVolDayCounter key := returnDayCounter (capFloorVolDayCounters_ p) key.
Definition yoyInflationCapFloorVolDayCounter key :=
      returnDayCounter (yoyInflationCapFloorVolDayCounters_ p) key.
Definition equityDividendTenors key := returnTenors (equityDividendTenors_ p) key.
Definition zeroInflationTenors key := returnTenors (zeroInflationTenors_ p) key.
Definition zeroInflationDayCounter key := returnDayCounter (zeroInflationDayCounters_ p) key.
Definition yoyInflationTenors key := returnTenors (yoyInflationTenors_ p) key.
Definition yoyInflationDayCounter key := returnDayCounter (yoyInflationDayCounters_ p) key.
Definition baseCorrelationDayCounter key :=
      returnDayCounter (baseCorrelationDayCounters_ p) key.
Definition commodityCurveTenors key := returnTenors (commodityCurveTenors_ p) key.
Definition commodityCurveDayCounter key :=
      returnDayCounter (commodityCurveDayCounters_ p) key.
Definition commodityVolExpiries key := returnTenors (commodityVolExpiries_ p) key.
Definition commodityVolDayCounter key := returnDayCounter (commodityVolDayCounters_ p) key.
End Accessors.

End Parameters.

(** ** The parameter object: risk factor names, simulate flags and defaults
       (scenariosimmarketparameters.cpp) *)

Module ParameterObject.

(** The enumerators of RiskFactorKey::KeyType this file names. *)
Inductive KeyType : Type :=
    | DiscountCurve | YieldCurve | IndexCurve
    | SwaptionVolatility | YieldVolatility | OptionletVolatility
    | FXSpot | FXVolatility
    | EquitySpot | DividendYield | EquityVolatility
    | SurvivalProbability | RecoveryRate | CDSVolatility | BaseCorrelation
    | CPIIndex | ZeroInflationCurve | YoYInflationCurve
    | YoYInflationCapFloorVolatility
    | CommoditySpot | CommodityCurve | CommodityVolatility
    | SecuritySpread | Correlation | CPR.

Definition KeyType_to_nat (t : KeyType) : nat :=
    match t with
    | DiscountCurve => 0 | YieldCurve => 1 | IndexCurve => 2
    | SwaptionVolatility => 3 | YieldVolatility => 4 | OptionletVolatility => 5
    | FXSpot => 6 | FXVolatility => 7
    | EquitySpot => 8 | DividendYield => 9 | EquityVolatility => 10
    | SurvivalProbability => 11 | RecoveryRate => 12 | CDSVolatility => 13
    | BaseCorrelation => 14
    | CPIIndex => 15 | ZeroInflationCurve => 16 | YoYInflationCurve => 17
    | YoYInflationCapFloorVolatility => 18
    | CommoditySpot => 19 | CommodityCurve => 20 | CommodityVolatility => 21
    | SecuritySpread => 22 | Correlation => 23 | CPR => 24
    end.

Definition KeyType_of_nat (n : nat) : KeyType :=
    match n with
    | 0 => DiscountCurve | 1 => YieldCurve | 2 => IndexCurve
    | 3 => SwaptionVolatility | 4 => YieldVolatility | 5 => OptionletVolatility
    | 6 => FXSpot | 7 => FXVolatility
    | 8 => EquitySpot | 9 => DividendYield | 10 => EquityVolatility
    | 11 => SurvivalProbability | 12 => RecoveryRate | 13 => CDSVolatility
    | 14 => BaseCorrelation
    | 15 => CPIIndex | 16 => ZeroInflationCurve | 17 => YoYInflationCurve
    | 18 => YoYInflationCapFloorVolatility
    | 19 => CommoditySpot | 20 => CommodityCurve | 21 => CommodityVolatility
    | 22 => SecuritySpread | 23 => Correlation | _ => CPR
    end.

#[global] Instance KeyType_eq_dec : EqDecision KeyType.
Proof. solve_decision. Defined.

#[global] Instance KeyType_countable : Countable KeyType.
Proof.
    apply (inj_countable' KeyType_to_nat KeyType_of_nat).
    intros []; reflexivity.
Defined.

(** The members of [ScenarioSimMarketParameters] the functions below touch.
    The maps read through [returnTenors] and [returnDayCounter] are the
    record [Parameters.ScenarioSimMarketParameters], kept as one member. *)
Record ScenarioSimMarketParameters : Type := mkParameterObject {
    baseCcy_ : string;
    ccys_ : list string;
    (* per category: the simulate flag and the set of names *)
    params_ : gmap KeyType (bool * gset string);
    maps_ : Parameters.ScenarioSimMarketParameters;
    correlationDayCounters_ : gmap (string * string) string
  }.

Implicit Types p : ScenarioSimMarketParameters.

Definition set_ccys (names : list string) p : ScenarioSimMarketParameters :=
    mkParameterObject (baseCcy_ p) names (params_ p) (maps_ p) (correlationDayCounters_ p).

Definition set_params (f : gmap KeyType (bool * gset string) → gmap KeyType (bool * gset string)) p
    : ScenarioSimMarketParameters :=
    mkParameterObject (baseCcy_ p) (ccys_ p) (f (params_ p)) (maps_ p) (correlationDayCounters_ p).

Definition set_maps
    (f : Parameters.ScenarioSimMarketParameters → Parameters.ScenarioSimMarketParameters) p
    : ScenarioSimMarketParameters :=
    mkParameterObject (baseCcy_ p) (ccys_ p) (params_ p) (f (maps_ p)) (correlationDayCounters_ p).

Definition set_correlationDayCounters
    (f : gmap (string * string) string → gmap (string * string) string) p
    : ScenarioSimMarketParameters :=
    mkParameterObject (baseCcy_ p) (ccys_ p) (params_ p) (maps_ p) (f (correlationDayCounters_ p)).

(** [params_[kt]]: std::map::operator[] hands out the entry under [kt], a
    value-initialised one (flag false, no name) when the map has none. *)
Definition entry (m : gmap KeyType (bool * gset string)) (kt : KeyType) : bool * gset string :=
    default (false, ∅) (m !! kt).

(** The names of a std::set<string> in iteration order: ascending. *)
Definition inOrder (names : gset string) : list string :=
    merge_sort String.le (elements names).

Definition paramsLookup (kt : KeyType) p : list string :=
    match params_ p !! kt with
    | Some it => inOrder it.2
    | None => []
    end.

Definition hasParamsName (kt : KeyType) (name : string) p : bool :=
    match params_ p !! kt with
    | Some it => bool_decide (name ∈ it.2)
    | None => false
    end.

Definition addParamsName (kt : KeyType) (names : list string) p
    : ScenarioSimMarketParameters :=
    if decide (0 < length names) then
      let p1 :=
        match params_ p !! kt with
        | None => set_params (λ m, <[kt := (true, (entry m kt).2)]> m) p
        | Some _ => p
        end in
      foldl (λ q name,
               if hasParamsName kt name q then q
               else set_params (λ m, <[kt := ((entry m kt).1, (entry m kt).2 ∪ {[name]})]> m) q)
            p1 names
    else p.

Definition paramsSimulate (kt : KeyType) p : bool :=
    match params_ p !! kt with
    | Some it => it.1
    | None => false
    end.

Definition setParamsSimulate (kt : KeyType) (simulate : bool) p
    : ScenarioSimMarketParameters :=
    set_params (λ m, <[kt := (simulate, (entry m kt).2)]> m) p.

(** The entry a category has after [addParamsName] with at least one name:
    a category without entry starts simulated and without names. *)
Definition entryAfterAdd (kt : KeyType) (names : list string) p : bool * gset string :=
    let it := default (true, ∅) (params_ p !! kt) in
    (it.1, it.2 ∪ list_to_set names).

(** *** The setters of the simulate flags *)

Definition setSimulateDividendYield := setParamsSimulate DividendYield.
Definition setSimulateSwapVols := setParamsSimulate SwaptionVolatility.
Definition setSimulateYieldVols := setParamsSimulate YieldVolatility.
Definition setSimulateCapFloorVols := setParamsSimulate OptionletVolatility.
Definition setSimulateYoYInflationCapFloorVols :=
    setParamsSimulate YoYInflationCapFloorVolatility.
Definition setSimulateSurvivalProbabilities := setParamsSimulate SurvivalProbability.
Definition setSimulateRecoveryRates := setParamsSimulate RecoveryRate.
Definition setSimulateCdsVols := setParamsSimulate CDSVolatility.
Definition setSimulateFXVols := setParamsSimulate FXVolatility.
Definition setSimulateEquityVols := setParamsSimulate EquityVolatility.
Definition setSimulateBaseCorrelations := setParamsSimulate BaseCorrelation.
Definition setCommodityCurveSimulate := setParamsSimulate CommodityCurve.
Definition setCommodityVolSimulate := setParamsSimulate CommodityVolatility.
Definition setSecuritySpreadsSimulate := setParamsSimulate SecuritySpread.
Definition setSimulateFxSpots := setParamsSimulate FXSpot.
Definition setSimulateCorrelations := setParamsSimulate Correlation.
Definition setSimulateCprs := setParamsSimulate CPR.

(** *** The setters of the names *)

Definition setDiscountCurveNames (names : list string) p :=
    addParamsName DiscountCurve names (set_ccys names p).
Definition setYieldCurveNames := addParamsName YieldCurve.
Definition setIndices := addParamsName IndexCurve.
Definition setSwapVolCcys := addParamsName SwaptionVolatility.
Definition setYieldVolNames := addParamsName YieldVolatility.
Definition setCapFloorVolCcys := addParamsName OptionletVolatility.
Definition setYoYInflationCapFloorNames := addParamsName YoYInflationCapFloorVolatility.
Definition setRecoveryRates := addParamsName RecoveryRate.
Definition setDefaultNames (names : list string) p :=
    setRecoveryRates names (addParamsName SurvivalProbability names p).
Definition setCdsVolNames := addParamsName CDSVolatility.
Definition setEquityDividendCurves := addParamsName DividendYield.
Definition setEquityNames (names : list string) p :=
    setEquityDividendCurves names (addParamsName EquitySpot names p).
Definition setFxVolCcyPairs := addParamsName FXVolatility.
Definition setEquityVolNames := addParamsName EquityVolatility.
Definition setSecurities := addParamsName SecuritySpread.
Definition setBaseCorrelationNames := addParamsName BaseCorrelation.
Definition setCpiIndices := addParamsName CPIIndex.
Definition setZeroInflationIndices := addParamsName ZeroInflationCurve.
Definition setYoyInflationIndices := addParamsName YoYInflationCurve.
Definition setCommodityVolNames := addParamsName CommodityVolatility.
Definition setCommodityCurves := addParamsName CommodityCurve.
Definition setCommodityNames (names : list string) p :=
    setCommodityCurves names (addParamsName CommoditySpot names p).
Definition setCorrelationPairs := addParamsName Correlation.
Definition setCprs := addParamsName CPR.

Definition commodityNames p : list string := paramsLookup CommoditySpot p.

(** *** The lookups that do not go through the two helpers *)

Definition hasCommodityCurveTenors (commodityName : string) p : bool :=
    bool_decide (is_Some (Parameters.commodityCurveTenors_ (maps_ p) !! commodityName)).

Definition correlationDayCounter (index1 index2 : string) p : Result string :=
    match correlationDayCounters_ p !! (index1, index2) with
    | Some v => Ok v
    | None =>
        match correlationDayCounters_ p !! (EmptyString, EmptyString) with
        | Some v => Ok v
        | None => Err (NoDayCounterForKey (index1 +:+ ":" +:+ index2))
        end
    end.

(** *** The setters of the per-qualifier maps: [map_[key] = value] *)

Definition setYieldCurveTenors (key : string) (v : list Period) p :=
    set_maps (λ q, Parameters.Build_ScenarioSimMarketParameters
      (<[key := v]> (Parameters.yieldCurveTenors_ q))
      (Parameters.yieldCurveDayCounters_ q) (Parameters.capFloorVolExpiries_ q)
      (Parameters.yoyInflationCapFloorVolExpiries_ q) (Parameters.defaultTenors_ q)
      (Parameters.defaultCurveDayCounters_ q) (Parameters.defaultCurveCalendars_ q)
      (Parameters.swapVolDayCounters_ q) (Parameters.yieldVolDayCounters_ q)
      (Parameters.fxVolDayCounters_ q) (Parameters.cdsVolDayCounters_ q)
      (Parameters.equityVolDayCounters_ q) (Parameters.capFloorVolDayCounters_ q)
      (Parameters.yoyInflationCapFloorVolDayCounters_ q)
      (Parameters.equityDividendTenors_ q) (Parameters.zeroInflationTenors_ q)
      (Parameters.zeroInflationDayCounters_ q) (Parameters.yoyInflationTenors_ q)
      (Parameters.yoyInflationDayCounters_ q) (Parameters.baseCorrelationDayCounters_ q)
      (Parameters.commodityCurveTenors_ q) (Parameters.commodityCurveDayCounters_ q)
      (Parameters.commodityVolExpiries_ q) (Parameters.commodityVolDayCounters_ q)) p.

Definition setYieldCurveDayCounters (key : string) (s : string) p :=
    set_maps (λ q, Parameters.Build_ScenarioSimMarketParameters
      (Parameters.yieldCurveTenors_ q)
      (<[key := s]> (Parameters.yieldCurveDayCounters_ q))
      (Parameters.capFloorVolExpiries_ q)
      (Parameters.yoyInflationCapFloorVolExpiries_ q) (Parameters.defaultTenors_ q)
      (Parameters.defaultCurveDayCounters_ q) (Parameters.defaultCurveCalendars_ q)
      (Parameters.swapVolDayCounters_ q) (Parameters.yieldVolDayCounters_ q)
      (Parameters.fxVolDayCounters_ q) (Parameters.cdsVolDayCounters_ q)
      (Parameters.equityVolDayCounters_ q) (Parameters.capFloorVolDayCounters_ q)
      (Parameters.yoyInflationCapFloorVolDayCounters_ q)
      (Parameters.equityDividendTenors_ q) (Parameters.zeroInflationTenors_ q)
      (Parameters.zeroInflationDayCounters_ q) (Parameters.yoyInflationTenors_ q)
      (Parameters.yoyInflationDayCounters_ q) (Parameters.baseCorrelationDayCounters_ q)
      (Parameters.commodityCurveTenors_ q) (Parameters.commodityCurveDayCounters_ q)
      (Parameters.commodityVolExpiries_ q) (Parameters.commodityVolDayCounters_ q)) p.

Definition setCommodityCurveTenors (commodityName : string) (v : list Period) p :=
    set_maps (λ q, Parameters.Build_ScenarioSimMarketParameters
      (Parameters.yieldCurveTenors_ q)
      (Parameters.yieldCurveDayCounters_ q) (Parameters.capFloorVolExpiries_ q)
      (Parameters.yoyInflationCapFloorVolExpiries_ q) (Parameters.defaultTenors_ q)
      (Parameters.defaultCurveDayCounters_ q) (Parameters.defaultCurveCalendars_ q)
      (Parameters.swapVolDayCounters_ q) (Parameters.yieldVolDayCounters_ q)
      (Parameters.fxVolDayCounters_ q) (Parameters.cdsVolDayCounters_ q)
      (Parameters.equityVolDayCounters_ q) (Parameters.capFloorVolDayCounters_ q)
      (Parameters.yoyInflationCapFloorVolDayCounters_ q)
      (Parameters.equityDividendTenors_ q) (Parameters.zeroInflationTenors_ q)
      (Parameters.zeroInflationDayCounters_ q) (Parameters.yoyInflationTenors_ q)
      (Parameters.yoyInflationDayCounters_ q) (Parameters.baseCorrelationDayCounters_ q)
      (<[commodityName := v]> (Parameters.commodityCurveTenors_ q))
      (Parameters.commodityCurveDayCounters_ q)
      (Parameters.commodityVolExpiries_ q) (Parameters.commodityVolDayCounters_ q)) p.

(** *** setDefaults *)

(** The assignments of [setDefaults] to the per-qualifier maps: an empty
    tenor vector, the day counter A365 and the calendar TARGET under the
    empty qualifier.  [yieldCurveTenors_] and [commodityVolExpiries_] are
    not assigned. *)
Definition defaultMaps (q : Parameters.ScenarioSimMarketParameters)
    : Parameters.ScenarioSimMarketParameters :=
    Parameters.Build_ScenarioSimMarketParameters
      (Parameters.yieldCurveTenors_ q)
      (<[EmptyString := "A365"]> (Parameters.yieldCurveDayCounters_ q))
      (<[EmptyString := []]> (Parameters.capFloorVolExpiries_ q))
      (<[EmptyString := []]> (Parameters.yoyInflationCapFloorVolExpiries_ q))
      (<[EmptyString := []]> (Parameters.defaultTenors_ q))
      (<[EmptyString := "A365"]> (Parameters.defaultCurveDayCounters_ q))
      (<[EmptyString := "TARGET"]> (Parameters.defaultCurveCalendars_ q))
      (<[EmptyString := "A365"]> (Parameters.swapVolDayCounters_ q))
      (<[EmptyString := "A365"]> (Parameters.yieldVolDayCounters_ q))
      (<[EmptyString := "A365"]> (Parameters.fxVolDayCounters_ q))
      (<[EmptyString := "A365"]> (Parameters.cdsVolDayCounters_ q))
      (<[EmptyString := "A365"]> (Parameters.equityVolDayCounters_ q))
      (<[EmptyString := "A365"]> (Parameters.capFloorVolDayCounters_ q))
      (<[EmptyString := "A365"]> (Parameters.yoyInflationCapFloorVolDayCounters_ q))
      (<[EmptyString := []]> (Parameters.equityDividendTenors_ q))
      (<[EmptyString := []]> (Parameters.zeroInflationTenors_ q))
      (<[EmptyString := "A365"]> (Parameters.zeroInflationDayCounters_ q))
      (<[EmptyString := []]> (Parameters.yoyInflationTenors_ q))
      (<[EmptyString := "A365"]> (Parameters.yoyInflationDayCounters_ q))
      (<[EmptyString := "A365"]> (Parameters.baseCorrelationDayCounters_ q))
      (<[EmptyString := []]> (Parameters.commodityCurveTenors_ q))
      (<[EmptyString := "A365"]> (Parameters.commodityCurveDayCounters_ q))
      (Parameters.commodityVolExpiries_ q)
      (<[EmptyString := "A365"]> (Parameters.commodityVolDayCounters_ q)).

Definition setDefaults p : ScenarioSimMarketParameters :=
    let p := setSimulateDividendYield false p in
    let p := setSimulateSwapVols false p in
    let p := setSimulateYieldVols false p in
    let p := setSimulateCapFloorVols false p in
    let p := setSimulateYoYInflationCapFloorVols false p in
    let p := setSimulateSurvivalProbabilities false p in
    let p := setSimulateRecoveryRates false p in
    let p := setSimulateCdsVols false p in
    let p := setSimulateFXVols false p in
    let p := setSimulateEquityVols false p in
    let p := setSimulateBaseCorrelations false p in
    let p := setCommodityCurveSimulate false p in
    let p := setCommodityVolSimulate false p in
    let p := setSecuritySpreadsSimulate false p in
    let p := setSimulateFxSpots true p in
    let p := setSimulateCorrelations false p in
    let p := set_maps defaultMaps p in
    set_correlationDayCounters (insert (EmptyString, EmptyString) "A365") p.

(** The categories whose simulate flag [setDefaults] assigns. *)
Definition defaultedCategories : list KeyType :=
    [DividendYield; SwaptionVolatility; YieldVolatility; OptionletVolatility;
     YoYInflationCapFloorVolatility; SurvivalProbability; RecoveryRate;
     CDSVolatility; FXVolatility; EquityVolatility; BaseCorrelation;
     CommodityCurve; CommodityVolatility; SecuritySpread; FXSpot; Correlation].

(** *** fromXML: the FX rates *)




(** *** fromXML: the correlation pairs *)

(** boost::split(tokens, s, boost::is_any_of(delimiters)) with token
    compression off, as the library documents it: the input is cut at every
    delimiter character, so n delimiters give n + 1 tokens, empty ones
    included. *)
Fixpoint split (delimiters : string) (s : string) : list string :=
    match s with
    | EmptyString => [EmptyString]
    | String c s' =>
        if bool_decide (c ∈ String.list_ascii_of_string delimiters)
        then EmptyString :: split delimiters s'
        else match split delimiters s' with
             | t :: ts => String c t :: ts
             | [] => [String c EmptyString]
             end
    end.

Definition pairDelimiters : string := ",:".

(** A string none of whose characters is a delimiter. *)
Definition delimiterFree (delimiters s : string) : Prop :=
    Forall (λ c, c ∉ String.list_ascii_of_string delimiters)
           (String.list_ascii_of_string s).

(** What the loop over the Pair nodes raises. *)
Inductive PairError : Type :=
    | NotAValidCorrelationPair (p : string)
      (* QL_REQUIRE: not a valid correlation pair: <p> *).

(** The body of the loop over the Pair nodes: a pair is split at commas and
    colons, must have two tokens and is stored with a colon. *)
Definition correlationPair (p : string) : PairError + string :=
    match split pairDelimiters p with
    | [t0; t1] => inr (t0 +:+ ":" +:+ t1)
    | _ => inl (NotAValidCorrelationPair p)
    end.

End ParameterObject.

(** ** A monad for code that throws, mutates an object and talks to
       collaborators

    A computation takes the state of the object, and returns its outcome, the
    state it leaves behind (also when it throws: mutations made before an
    exception stay) and the calls it made to collaborators, oldest first. *)

Section StateErrorTrace.
Context {S E : Type}.

Record Run (A : Type) : Type := mkRun {
    outcome : Result A;
    final : S;
    emitted : list E
  }.
Global Arguments mkRun {A} _ _ _.
Global Arguments outcome {A} _.
Global Arguments final {A} _.
Global Arguments emitted {A} _.

Definition M (A : Type) : Type := S → Run A.

Definition ret {A} (a : A) : M A := λ s, mkRun (Ok a) s [].

Definition throw {A} (e : Error) : M A := λ s, mkRun (Err e) s [].

Definition bind {A B} (m : M A) (f : A → M B) : M B :=
    λ s,
      let r := m s in
      match outcome r with
      | Ok a =>
          let r' := f a (final r) in
          mkRun (outcome r') (final r') (emitted r ++ emitted r')
      | Err e => mkRun (Err e) (final r) (emitted r)
      end.

Definition getState : M S := λ s, mkRun (Ok s) s [].

Definition modify (f : S → S) : M unit := λ s, mkRun (Ok tt) (f s) [].

Definition emit (e : E) : M unit := λ s, mkRun (Ok tt) s [e].

Definition liftResult {A} (r : Result A) : M A :=
    match r with Ok a => ret a | Err e => throw e end.

  (** QL_REQUIRE(cond, message) *)
Definition QL_REQUIRE (cond : bool) (e : Error) : M unit :=
    if cond then ret tt else throw e.

  (** A range-based [for] whose body has no loop-carried local. *)
Fixpoint forEach {A} (body : A → M unit) (l : list A) : M unit :=
    match l with
    | [] => ret tt
    | x :: l' => bind (body x) (λ _, forEach body l')
    end.
End StateErrorTrace.

Arguments M : clear implicits.
Arguments Run : clear implicits.

Notation "'let*' x ':=' m 'in' k" := (bind m (λ x, k))
  (at level 10, x name, m at level 100, k at level 200).
Notation "m ';;' k" := (bind m (λ _, k))
  (at level 100, k at level 200, right associativity).

(** ** The application driver (oreapp.cpp) *)

Module OREApp.

Inductive CubeClass : Type :=
    | SinglePrecisionInMemoryCube
    | SinglePrecisionInMemoryCubeN.

  (** Modelled from the spec: the NPV cube classes are not part of this
      code; a cube is its fixed dimensions: the trade ids, the date grid, the
      number of samples and the depth, depth 1 holding the NPV only and
      depth 2 the NPV and one further measure.  The cell payload plays no
      part in the code embedded here. *)
Record NPVCube : Type := mkCube {
    cubeClass : CubeClass;
    ids : list string;
    dates : list Date;
    samples : nat;
    depth : nat
  }.

Definition numIds (c : NPVCube) : nat := length (ids c).

  (** Modelled from the spec: the aggregation scenario data is a date by
      sample array of named series; only its two dimensions are read here. *)
Record AggregationScenarioData : Type := mkASD {
    dimDates : nat;
    dimSamples : nat
  }.

  (** The members of [OREApp] used by the embedded methods. *)
Record App : Type := mkApp {
    asof_ : Date;
    cubeDepth_ : nat;
    samples_ : nat;
    grid_dates : list Date;           (* grid_->dates() *)
    simPortfolio_ids : list string;   (* simPortfolio_->ids() *)
    portfolio_size : nat;             (* portfolio_->size() *)
    cube_ : option NPVCube;
    scenarioData_ : option AggregationScenarioData;
    xva_ : bool;
    writeDIMReport_ : bool
  }.

Definition set_cube (c : NPVCube) (a : App) : App :=
    mkApp (asof_ a) (cubeDepth_ a) (samples_ a) (grid_dates a) (simPortfolio_ids a)
          (portfolio_size a) (Some c) (scenarioData_ a) (xva_ a) (writeDIMReport_ a).

Definition set_cubeDepth (n : nat) (a : App) : App :=
    mkApp (asof_ a) n (samples_ a) (grid_dates a) (simPortfolio_ids a)
          (portfolio_size a) (cube_ a) (scenarioData_ a) (xva_ a) (writeDIMReport_ a).

Definition set_scenarioData (d : AggregationScenarioData) (a : App) : App :=
    mkApp (asof_ a) (cubeDepth_ a) (samples_ a) (grid_dates a) (simPortfolio_ids a)
          (portfolio_size a) (cube_ a) (Some d) (xva_ a) (writeDIMReport_ a).

  (** What the driver asks of its collaborators. *)
Inductive Event : Type :=
    | EvSetEvaluationDate (d : Date)
    | EvLoadCube (c : CubeClass)
    | EvLoadScenarioData
    | EvRunPostProcessor (c : NPVCube) (d : AggregationScenarioData)
    | EvWriteXVAReports
    | EvWriteDIMReport.

  (** The files and collaborators of one run: what the parameter file says
      under xva/hyperCube (absent, or a string that parses to a boolean or
      makes [parseBool] throw), what loading the cube file into a cube of a
      given class yields, what loading the scenario data file yields, and
      whether the later steps throw. *)
Record Environment : Type := mkEnv {
    xvaHyperCube : option (Result bool);
    cubeFile : CubeClass → Result NPVCube;
    scenarioFile : Result AggregationScenarioData;
    postProcessor : NPVCube → AggregationScenarioData → Result unit;
    xvaReports : Result unit;
    dimReport : Result unit;
    (* the stages of [run] before the aggregation stage, from the market
       build to the simulation *)
    earlierStages : App → Result App
  }.

(** The three cross-checks of the aggregation stage. *)
Definition dimensionsMatch (a : App) (c : NPVCube) (d : AggregationScenarioData) : Prop :=
  numIds c = portfolio_size a ∧ dimDates d = length (dates c) ∧ dimSamples d = samples c.

Definition initCube : M App Event unit :=
    let* a := getState in
    if decide (cubeDepth_ a = 1) then
      modify (set_cube (mkCube SinglePrecisionInMemoryCube (simPortfolio_ids a)
                               (grid_dates a) (samples_ a) 1))
    else if decide (cubeDepth_ a = 2) then
      modify (set_cube (mkCube SinglePrecisionInMemoryCubeN (simPortfolio_ids a)
                               (grid_dates a) (samples_ a) (cubeDepth_ a)))
    else throw CubeDepthExpected.

Section WithEnvironment.
Variable env : Environment.

Definition loadCube : M App Event unit :=
      modify (set_cubeDepth 1);;
      match xvaHyperCube env with
      | Some r =>
          let* b := liftResult r in
          modify (set_cubeDepth (if b : bool then 2 else 1))
      | None => ret tt
      end;;
      let* a := getState in
      let cls := if decide (1 < cubeDepth_ a) then SinglePrecisionInMemoryCubeN
                 else SinglePrecisionInMemoryCube in
      emit (EvLoadCube cls);;
      let* c := liftResult (cubeFile env cls) in
      modify (set_cube c).

Definition loadScenarioData : M App Event unit :=
      emit EvLoadScenarioData;;
      let* d := liftResult (scenarioFile env) in
      modify (set_scenarioData d).

Definition runPostProcessor (c : NPVCube) (d : AggregationScenarioData)
      : M App Event unit :=
      emit (EvRunPostProcessor c d);;
      liftResult (postProcessor env c d).

    (** The body of [if (xva_) { ... }] in [run]. *)
Definition aggregationStage : M App Event unit :=
      let* a := getState in
      emit (EvSetEvaluationDate (asof_ a));;
      match cube_ a with None => loadCube | Some _ => ret tt end;;
      let* a := getState in
      match cube_ a with
      | None => throw (ExternalFailure "null cube")
      | Some cube =>
          QL_REQUIRE (bool_decide (numIds cube = portfolio_size a))
                     (CubeDimensionMismatch (numIds cube) (portfolio_size a));;
          match scenarioData_ a with None => loadScenarioData | Some _ => ret tt end;;
          let* a := getState in
          match scenarioData_ a with
          | None => throw (ExternalFailure "null scenario data")
          | Some sd =>
              QL_REQUIRE (bool_decide (dimDates sd = length (dates cube)))
                         ScenarioDatesMismatch;;
              QL_REQUIRE (bool_decide (dimSamples sd = samples cube))
                         ScenarioSamplesMismatch;;
              runPostProcessor cube sd;;
              emit EvWriteXVAReports;;
              liftResult (xvaReports env);;
              if writeDIMReport_ a
              then (emit EvWriteDIMReport;; liftResult (dimReport env))
              else ret tt
          end
      end.

    (** [run]: the try block and its handler; the exit code is 0 after a
        normal end and 1 when an exception reached the handler. *)
Definition run : M App Event Z :=
      λ a,
        let body : M App Event unit :=
          (let* a0 := getState in
           let* a1 := liftResult (earlierStages env a0) in
           modify (λ _, a1);;
           let* a2 := getState in
           if xva_ a2 then aggregationStage else ret tt) in
        let r := body a in
        match outcome r with
        | Ok _ => mkRun (Ok 0%Z) (final r) (emitted r)
        | Err _ => mkRun (Ok 1%Z) (final r) (emitted r)
        end.

End WithEnvironment.

End OREApp.

(** ** The scenario simulation market (scenariosimmarket.cpp) *)

(** ObservationMode::Mode, a process-wide setting. *)
Module ObservationMode.
Inductive Mode : Type := None | Disable | Defer | Unregister.
End ObservationMode.

Module SimMarket.

  (** Modelled from the spec: the class RiskFactorKey is not part of this
      code; a key is a category, a qualifier name and an index, compared
      field by field.  The categories listed are the ones under which the
      constructor below registers quote cells. *)
Inductive KeyType : Type :=
    | DiscountCurve | YieldCurve | IndexCurve
    | SwaptionVolatility | OptionletVolatility
    | FXSpot | FXVolatility
    | EQSpot | EQVolatility.

Record RiskFactorKey : Type := mkKey {
    keytype : KeyType;
    name : string;
    index : nat
  }.

Definition KeyType_to_nat (t : KeyType) : nat :=
    match t with
    | DiscountCurve => 0 | YieldCurve => 1 | IndexCurve => 2
    | SwaptionVolatility => 3 | OptionletVolatility => 4
    | FXSpot => 5 | FXVolatility => 6
    | EQSpot => 7 | EQVolatility => 8
    end.

Definition KeyType_of_nat (n : nat) : KeyType :=
    match n with
    | 0 => DiscountCurve | 1 => YieldCurve | 2 => IndexCurve
    | 3 => SwaptionVolatility | 4 => OptionletVolatility
    | 5 => FXSpot | 6 => FXVolatility
    | 7 => EQSpot | _ => EQVolatility
    end.

#[global] Instance KeyType_eq_dec : EqDecision KeyType.
Proof. solve_decision. Defined.

#[global] Instance KeyType_countable : Countable KeyType.
Proof.
    apply (inj_countable' KeyType_to_nat KeyType_of_nat).
    intros []; reflexivity.
Defined.

#[global] Instance RiskFactorKey_eq_dec : EqDecision RiskFactorKey.
Proof. solve_decision. Defined.

#[global] Instance RiskFactorKey_countable : Countable RiskFactorKey.
Proof.
    apply (inj_countable' (λ k, (keytype k, name k, index k))
                          (λ t, mkKey t.1.1 t.1.2 t.2)).
    intros []; reflexivity.
Defined.

Inductive AggregationScenarioDataType : Type :=
    | IndexFixing | FXSpotData | Numeraire.

  (** The parameter object as the constructor and [update] read it. *)
Record ScenarioSimMarketParameters {Real : Type} : Type := mkParameters {
    baseCcy : string;
    ccys : list string;
    yieldCurveTenors : list Period;
    yieldCurveNames : list string;
    securities : list string;
    indices : list string;
    swapIndices : list (string * string);   (* in the order of the map's keys *)
    fxCcyPairs : list string;
    swapVolCcys : list string;
    simulateSwapVols : bool;
    swapVolExpiries : list Period;
    swapVolTerms : list Period;
    swapVolDecayMode : string;
    capFloorVolCcys : list string;
    simulateCapFloorVols : bool;
    capFloorVolExpiries : list Period;
    capFloorVolStrikes : list Real;
    capFloorVolDecayMode : string;
    defaultNames : list string;
    defaultTenors : list Period;
    fxVolCcyPairs : list string;
    simulateFXVols : bool;
    fxVolExpiries : list Period;
    fxVolDecayMode : string;
    equityNames : list string;
    equityTenors : list Period;
    eqVolNames : list string;
    simulateEQVols : bool;
    eqVolExpiries : list Period;
    eqVolDecayMode : string;
    additionalScenarioDataIndices : list string;
    additionalScenarioDataCcys : list string
  }.
Arguments ScenarioSimMarketParameters : clear implicits.

Section Model.
Context {Real : Type} `{!EqDecision Real}.
    (* the state of the scenario generator the market pulls from *)
Context {G : Type}.

    (** Modelled from the spec: the interface Scenario is not part of this
        code; a scenario is an as-of date, an ordered sequence of keys, a
        mapping from keys to values and a numeraire.  [get] fails on a key
        the mapping does not hold, [has] probes without throwing. *)
Record Scenario : Type := mkScenario {
      asof : Date;
      keys : list RiskFactorKey;
      data : gmap RiskFactorKey Real;
      getNumeraire : Real
    }.

Definition get (sc : Scenario) (k : RiskFactorKey) : Result Real :=
      match data sc !! k with
      | Some v => Ok v
      | None => Err KeyNotFound
      end.

Definition has (sc : Scenario) (k : RiskFactorKey) : bool :=
      bool_decide (is_Some (data sc !! k)).

    (** Modelled from the spec: the interface ScenarioGenerator is not part
        of this code; a generator is a stream with internal state:
        [next d] yields a scenario and moves the state on, [reset] rewinds
        so that calls to [next] return the first scenario again. *)
Record ScenarioGenerator : Type := mkGenerator {
      next : Date → G → Scenario * G;
      reset : G → G
    }.

    (** Who is watched by the observers: a quote cell of the bank, or the
        global evaluation date. *)
Inductive Subject : Type :=
      | QuoteCell (k : RiskFactorKey)
      | EvaluationDateSetting.

    (** The process-wide singletons [update] consults: ObservationMode,
        Settings::evaluationDate and ObservableSettings. *)
Record Globals : Type := mkGlobals {
      mode : ObservationMode.Mode;
      evaluationDate : Date;
      updatesEnabled : bool;
      updatesDeferred : bool;
      deferredObservers : list Subject
    }.

    (** The members of [ScenarioSimMarket].  Every quote cell is created by
        the constructor for one key and is reachable from [simData_] under
        that key only, so the bank is a map from keys to the cells' values.
        [numeraire_] is not initialised by the constructor.  [asd_] tells
        whether an aggregation scenario data sink is attached; what the sink
        is told is part of the trace. *)
Record ScenarioSimMarket : Type := mkMarket {
      parameters_ : ScenarioSimMarketParameters Real;
      asof_ : Date;
      simData_ : gmap RiskFactorKey Real;
      numeraire_ : option Real;
      scenarioGenerator_ : G;
      asd_ : bool
    }.

Record World : Type := mkWorld {
      market : ScenarioSimMarket;
      globals : Globals
    }.

    (** Calls on collaborators and on the quote cells, as [update] makes
        them. *)
Inductive Event : Type :=
      | EvDisableUpdates (deferred : bool)
      | EvEnableUpdates
      | EvGeneratorNext (d : Date)
      | EvSetEvaluationDate (d : Date)
      | EvSetValue (k : RiskFactorKey) (v : Real)
      | EvNotifyObservers (s : Subject)
      | EvRefresh
      | EvFixingUpdate (d : Date)
      | EvAsdSet (v : Real) (t : AggregationScenarioDataType) (qualifier : string)
      | EvAsdNext.

Definition set_simData (f : gmap RiskFactorKey Real → gmap RiskFactorKey Real)
      (w : World) : World :=
      let m := market w in
      mkWorld (mkMarket (parameters_ m) (asof_ m) (f (simData_ m)) (numeraire_ m)
                        (scenarioGenerator_ m) (asd_ m))
              (globals w).

Definition set_numeraire (v : Real) (w : World) : World :=
      let m := market w in
      mkWorld (mkMarket (parameters_ m) (asof_ m) (simData_ m) (Some v)
                        (scenarioGenerator_ m) (asd_ m))
              (globals w).

Definition set_generator (g : G) (w : World) : World :=
      let m := market w in
      mkWorld (mkMarket (parameters_ m) (asof_ m) (simData_ m) (numeraire_ m)
                        g (asd_ m))
              (globals w).

Definition set_evaluationDate (d : Date) (w : World) : World :=
      let g := globals w in
      mkWorld (market w)
              (mkGlobals (mode g) d (updatesEnabled g) (updatesDeferred g)
                         (deferredObservers g)).

Definition set_updates (enabled deferred : bool) (w : World) : World :=
      let g := globals w in
      mkWorld (market w)
              (mkGlobals (mode g) (evaluationDate g) enabled deferred
                         (deferredObservers g)).

Definition set_deferredObservers (l : list Subject) (w : World) : World :=
      let g := globals w in
      mkWorld (market w)
              (mkGlobals (mode g) (evaluationDate g) (updatesEnabled g)
                         (updatesDeferred g) l).

    (** *** The observer machinery *)

    (** Modelled from the spec: ObservableSettings and the notification of
        observers belong to the pricing library, not to this code.  While
        updates are disabled a notification reaches no observer; if they are
        only deferred the subject is remembered and its observers are
        notified when updates are enabled again. *)
Definition disableUpdates (deferred : bool) : M World Event unit :=
      emit (EvDisableUpdates deferred);;
      modify (set_updates false deferred).

Definition notifyObservers (s : Subject) : M World Event unit :=
      let* w := getState in
      if updatesEnabled (globals w) then emit (EvNotifyObservers s)
      else if updatesDeferred (globals w)
           then modify (set_deferredObservers (deferredObservers (globals w) ++ [s]))
           else ret tt.

Definition enableUpdates : M World Event unit :=
      emit EvEnableUpdates;;
      modify (set_updates true false);;
      let* w := getState in
      forEach (λ s, emit (EvNotifyObservers s)) (deferredObservers (globals w));;
      modify (set_deferredObservers []).

    (** SimpleQuote::setValue on the cell registered under [k]: the value is
        stored and the observers are notified only if it differs from the
        one held. *)
Definition setValue (k : RiskFactorKey) (v : Real) : M World Event unit :=
      emit (EvSetValue k v);;
      let* w := getState in
      if decide (simData_ (market w) !! k = Some v) then ret tt
      else (modify (set_simData (insert k v));;
            notifyObservers (QuoteCell k)).

    (** Settings::instance().evaluationDate() = d *)
Definition assignEvaluationDate (d : Date) : M World Event unit :=
      emit (EvSetEvaluationDate d);;
      modify (set_evaluationDate d);;
      notifyObservers EvaluationDateSetting.

    (** *** update *)

Section Update.
Variable generator : ScenarioGenerator.
      (* iborIndex(i)->fixing(d) and fxSpot(pair)->value(), read off the
         simulation market in its current state; they throw when the index
         or the pair is unknown *)
Variable indexFixing : World → string → Date → Result Real.
Variable fxSpotValue : World → string → Result Real.

Definition generatorNext (d : Date) : M World Event Scenario :=
        emit (EvGeneratorNext d);;
        let* w := getState in
        let r := next generator d (scenarioGenerator_ (market w)) in
        modify (set_generator r.2);;
        ret r.1.

      (** The loop over the scenario's keys, with its two locals [count]
          and [missingPoint].  The alert written to the log for a missing
          key is not modelled. *)
Fixpoint applyKeys (scenario : Scenario) (ks : list RiskFactorKey)
        (count : nat) (missingPoint : bool) : M World Event (nat * bool) :=
        match ks with
        | [] => ret (count, missingPoint)
        | key :: ks' =>
            let* w := getState in
            match simData_ (market w) !! key with
            | None => applyKeys scenario ks' count true
            | Some _ =>
                let* v := liftResult (get scenario key) in
                setValue key v;;
                applyKeys scenario ks' (S count) missingPoint
            end
        end.

Definition recordAggregationScenarioData (d : Date) : M World Event unit :=
        let* w := getState in
        let p := parameters_ (market w) in
        forEach (λ i,
                   let* w := getState in
                   let* v := liftResult (indexFixing w i d) in
                   emit (EvAsdSet v IndexFixing i))
                (additionalScenarioDataIndices p);;
        forEach (λ c,
                   if decide (c ≠ baseCcy p) then
                     let* w := getState in
                     let* v := liftResult (fxSpotValue w (c +:+ baseCcy p)) in
                     emit (EvAsdSet v FXSpotData c)
                   else ret tt)
                (additionalScenarioDataCcys p);;
        let* w := getState in
        match numeraire_ (market w) with
        | Some n => emit (EvAsdSet n Numeraire EmptyString)
        | None => throw (ExternalFailure "numeraire not initialised")
        end;;
        emit EvAsdNext.

Definition update (d : Date) : M World Event unit :=
        let* w := getState in
        let om := mode (globals w) in
        match om with
        | ObservationMode.Disable => disableUpdates false
        | ObservationMode.Defer => disableUpdates true
        | _ => ret tt
        end;;
        let* scenario := generatorNext d in
        modify (set_numeraire (getNumeraire scenario));;
        let* w := getState in
        (if decide (d ≠ evaluationDate (globals w)) then assignEvaluationDate d
         else match om with
              | ObservationMode.Unregister => notifyObservers EvaluationDateSetting
              | _ => ret tt
              end);;
        let* r := applyKeys scenario (keys scenario) 0 false in
        QL_REQUIRE (negb r.2) MissingScenarioData;;
        let* w := getState in
        (if decide (r.1 ≠ size (simData_ (market w)))
         then throw ScenarioSizeMismatch else ret tt);;
        match om with
        | ObservationMode.Disable => emit EvRefresh;; enableUpdates
        | ObservationMode.Defer => enableUpdates
        | _ => ret tt
        end;;
        emit (EvFixingUpdate d);;
        let* w := getState in
        if asd_ (market w) then recordAggregationScenarioData d else ret tt.
End Update.

    (** *** Pure readings of a run of [update], used to state its properties *)

    (** The keys of a sequence that have a cell in the bank. *)
Definition matchedKeys (ks : list RiskFactorKey) (b : gmap RiskFactorKey Real)
      : list RiskFactorKey :=
      filter (λ k, is_Some (b !! k)) ks.

    (** The writes the loop of [update] makes for a scenario, in order: one
        per key that has a cell, up to the first such key the scenario holds
        no value for, where [get] throws. *)
Fixpoint scenarioWrites (sc : Scenario) (ks : list RiskFactorKey)
      (b : gmap RiskFactorKey Real) : list (RiskFactorKey * Real) :=
      match ks with
      | [] => []
      | k :: ks' =>
          match b !! k with
          | Datatypes.None => scenarioWrites sc ks' b
          | Some _ =>
              match data sc !! k with
              | Datatypes.None => []
              | Some v => (k, v) :: scenarioWrites sc ks' b
              end
          end
      end.

Definition applyWrites (ws : list (RiskFactorKey * Real))
      (b : gmap RiskFactorKey Real) : gmap RiskFactorKey Real :=
      foldl (λ m kv, <[kv.1 := kv.2]> m) b ws.

    (** The calls of [setValue] in a trace, oldest first. *)
Definition cellWrites (evs : list Event) : list (RiskFactorKey * Real) :=
      omap (λ e, match e with EvSetValue k v => Some (k, v) | _ => Datatypes.None end) evs.

    (** The values the cell under [k] received in a trace. *)
Definition valuesReceived (k : RiskFactorKey) (evs : list Event) : list Real :=
      (filter (λ kv, kv.1 = k) (cellWrites evs)).*2.

Definition isAsdEvent (e : Event) : Prop :=
      match e with
      | EvAsdSet _ _ _ | EvAsdNext => True
      | _ => False
      end.

    (** The events of the batch of cell writes when no observer is notified:
        the scenario is pulled, the evaluation date is assigned and values
        are stored. *)
Definition isBatchEvent (e : Event) : Prop :=
      match e with
      | EvGeneratorNext _ | EvSetEvaluationDate _ | EvSetValue _ _ => True
      | _ => False
      end.

    (** The world with the bank and the list of deferred observers
        replaced, everything else kept. *)
Definition withBank (w : World) (b : gmap RiskFactorKey Real) (l : list Subject)
      : World :=
      set_deferredObservers l (set_simData (λ _, b) w).


    (** The events by which [update] acts on the market itself. *)
Definition isMarketEvent (e : Event) : Prop :=
      match e with
      | EvGeneratorNext _ | EvSetEvaluationDate _ | EvSetValue _ _
      | EvNotifyObservers _ => True
      | _ => False
      end.

    (** What [update] tells the observer settings before the batch of cell
        writes and after it, by observation mode; [pending] are the subjects
        whose notification was deferred. *)
Definition suspendEvents (om : ObservationMode.Mode) : list Event :=
      match om with
      | ObservationMode.Disable => [EvDisableUpdates false]
      | ObservationMode.Defer => [EvDisableUpdates true]
      | _ => []
      end.

Definition resumeEvents (om : ObservationMode.Mode) (pending : list Subject)
      : list Event :=
      match om with
      | ObservationMode.Disable =>
          EvRefresh :: EvEnableUpdates :: map EvNotifyObservers pending
      | ObservationMode.Defer =>
          EvEnableUpdates :: map EvNotifyObservers pending
      | _ => []
      end.

    (** *** What a run of [update] amounts to

        [pulled d w] is what the generator hands out for [d] in the world
        [w].  [updatePost d w r w' evs] describes a run of [update d]
        started in [w] that ended with outcome [r] in the world [w'] after
        the calls [evs]. *)
Section UpdateReading.
Variable generator : ScenarioGenerator.
Variable indexFixing : World → string → Date → Result Real.
Variable fxSpotValue : World → string → Result Real.

Definition pulled (d : Date) (w : World) : Scenario * G :=
        next generator d (scenarioGenerator_ (market w)).

(** The generator is deterministic under [reset]: reset after a call of
    [next d] and asked for [d] again, it hands out the scenario it handed
    out before. *)
Definition replaysAfterReset (d : Date) (g : G) : Prop :=
        (next generator d (reset generator (next generator d g).2)).1
        = (next generator d g).1.

Definition everyMatchedKeyHasValue (sc : Scenario) (b : gmap RiskFactorKey Real) : Prop :=
        Forall (λ k, is_Some (data sc !! k)) (matchedKeys (keys sc) b).

Definition someKeyWithoutCell (sc : Scenario) (b : gmap RiskFactorKey Real) : Prop :=
        Exists (λ k, b !! k = Datatypes.None) (keys sc).

Definition sinkRecorded (d : Date) (sc : Scenario) (w' : World) (asdEvs : list Event)
        : Prop :=
        let p := parameters_ (market w') in
        ∃ idxEvs fxEvs,
          asdEvs = idxEvs ++ fxEvs
                     ++ [EvAsdSet (getNumeraire sc) Numeraire EmptyString; EvAsdNext] ∧
          Forall2 (λ i e, ∃ v, indexFixing w' i d = Ok v ∧ e = EvAsdSet v IndexFixing i)
                  (additionalScenarioDataIndices p) idxEvs ∧
          Forall2 (λ c e, ∃ v, fxSpotValue w' (c +:+ baseCcy p) = Ok v ∧
                               e = EvAsdSet v FXSpotData c)
                  (filter (λ c, c ≠ baseCcy p) (additionalScenarioDataCcys p)) fxEvs.

Definition updatePost (d : Date) (w : World) (r : Result unit) (w' : World)
        (evs : list Event) : Prop :=
        let sc := (pulled d w).1 in
        let b := simData_ (market w) in
        let ws := scenarioWrites sc (keys sc) b in
        let om := mode (globals w) in
        market w' = mkMarket (parameters_ (market w)) (asof_ (market w))
                      (applyWrites ws b) (Some (getNumeraire sc))
                      (pulled d w).2 (asd_ (market w)) ∧
        cellWrites evs = ws ∧
        (¬ everyMatchedKeyHasValue sc b → r = Err KeyNotFound) ∧
        (everyMatchedKeyHasValue sc b →
         (someKeyWithoutCell sc b → r = Err MissingScenarioData) ∧
         (¬ someKeyWithoutCell sc b →
          length (matchedKeys (keys sc) b) ≠ size b → r = Err ScenarioSizeMismatch)) ∧
        (r = Ok tt →
         everyMatchedKeyHasValue sc b ∧
         ¬ someKeyWithoutCell sc b ∧
         length (matchedKeys (keys sc) b) = size b ∧
         ∃ batch pending asdEvs,
           evs = suspendEvents om ++ batch ++ resumeEvents om pending
                   ++ EvFixingUpdate d :: asdEvs ∧
           Forall isMarketEvent batch ∧
           (om = ObservationMode.Disable ∨ om = ObservationMode.Defer →
            Forall isBatchEvent batch) ∧
           (om = ObservationMode.Disable → pending = deferredObservers (globals w)) ∧
           Forall isAsdEvent asdEvs ∧
           if asd_ (market w) then sinkRecorded d sc w' asdEvs else asdEvs = []) ∧
        (everyMatchedKeyHasValue sc b → ¬ someKeyWithoutCell sc b →
         length (matchedKeys (keys sc) b) = size b → asd_ (market w) = false →
         r = Ok tt).
(** The scenario pulled for [d] fits the bank: it holds a value for each of
    its keys that has a cell, each of its keys has a cell, and the number of
    its keys with a cell is the number of cells. *)
Definition scenarioFits (d : Date) (w : World) : Prop :=
        let sc := (pulled d w).1 in
        let b := simData_ (market w) in
        everyMatchedKeyHasValue sc b ∧ ¬ someKeyWithoutCell sc b ∧
        length (matchedKeys (keys sc) b) = size b.

(** The observer settings a run of [update d] started in [w] leaves behind
    in [w'], by observation mode. *)
Definition notificationsAfter (d : Date) (w w' : World) : Prop :=
        let g := globals w in
        let g' := globals w' in
        match mode g with
        | ObservationMode.Disable =>
            (scenarioFits d w →
               updatesEnabled g' = true ∧ updatesDeferred g' = false ∧
               deferredObservers g' = []) ∧
            (¬ scenarioFits d w →
               updatesEnabled g' = false ∧ updatesDeferred g' = false)
        | ObservationMode.Defer =>
            (scenarioFits d w →
               updatesEnabled g' = true ∧ updatesDeferred g' = false ∧
               deferredObservers g' = []) ∧
            (¬ scenarioFits d w →
               updatesEnabled g' = false ∧ updatesDeferred g' = true)
        | _ =>
            updatesEnabled g' = updatesEnabled g ∧
            updatesDeferred g' = updatesDeferred g
        end.
End UpdateReading.

    (** *** The constructor

        The model follows the constructor block by block and keeps what
        decides whether it returns and which cells it registers: the lookups
        in the initial market, the explicit requirements and the calls of
        [simData_.emplace].  The term structures built over the cells are
        not modelled. *)

Record SwaptionVolatilityStructure : Type := mkSwaptionVol {
      sv_isNormal : bool;   (* volatilityType() == Normal *)
      sv_isMatrix : bool;   (* the structure is a SwaptionVolatilityMatrix *)
      sv_volatility : Period → Period → Result Real;
      sv_shift : Period → Period → Result Real
    }.

    (** The initial market under the configuration handed to the
        constructor.  A lookup answers [Err] when the market throws or hands
        back an empty handle; a curve or surface is the function reading it
        at a point, which may throw as well. *)
Record InitMarket : Type := mkInitMarket {
      asofDate : Date;
      fxSpot : string → Result Real;
      discountCurve : string → Result (Date → Result Real);
      yieldCurve : string → Result (Date → Result Real);
      securitySpread : string → Result Real;
      (* the forwarding curve of iborIndex(name) *)
      iborIndex : string → Result (Date → Result Real);
      swaptionVol : string → Result SwaptionVolatilityStructure;
      (* swapIndexBase, swapIndex and SwaptionVolatilityConverter::convert *)
      convertToNormal : string → SwaptionVolatilityStructure
                        → Result SwaptionVolatilityStructure;
      (* shortSwapIndexBase and swapIndexBase *)
      swapIndexBases : string → Result unit;
      capFloorVol : string → Result (Period → Real → Result Real);
      defaultCurve : string → Result (Date → Result Real);
      recoveryRate : string → Result Real;
      fxVol : string → Result (Date → Result Real);
      equitySpot : string → Result Real;
      equityDividendCurve : string → Result (Date → Result Real);
      equityVol : string → Result (Date → Result Real)
    }.

Section Constructor.
      (* asof + tenor; throws outside the range of dates *)
Variable advance : Date → Period → Result Date.
      (* MarketImpl::addSwapIndex(name, discounting index) *)
Variable addSwapIndex : string → string → Result unit.
Variable initMarket : InitMarket.
Variable parameters : ScenarioSimMarketParameters Real.

      (** The constructor runs on the bank under construction and calls no
          collaborator that is traced. *)
Abbreviation Build := (M (gmap RiskFactorKey Real) Empty_set).

      (** std::map::emplace: nothing happens when the key is present. *)
Definition emplace (k : RiskFactorKey) (v : Real) : Build unit :=
        modify (λ b, match b !! k with Some _ => b | None => <[k:=v]> b end).

Fixpoint mapResult {A B} (f : A → Result B) (l : list A) : Result (list B) :=
        match l with
        | [] => Ok []
        | x :: l' =>
            match f x with
            | Err e => Err e
            | Ok y =>
                match mapResult f l' with
                | Err e => Err e
                | Ok ys => Ok (y :: ys)
                end
            end
        end.

Definition front {A} (l : list A) : Result A :=
        match l with
        | [] => Err FrontOfEmptyVector
        | x :: _ => Ok x
        end.

Definition indexed {A} (l : list A) : list (nat * A) := imap pair l.

Definition asof0 : Date := asofDate initMarket.

      (** QL_REQUIRE(tenors.front() > 0 * Days, ..) followed by the loop
          that pushes asof_ + tenor for every tenor. *)
Definition tenorDates (tenors : list Period) (e : Error) : Build (list Date) :=
        let* f := liftResult (front tenors) in
        QL_REQUIRE (positivePeriod f) e;;
        liftResult (mapResult (advance asof0) tenors).

Definition buildFxSpots : Build unit :=
        forEach (λ ccyPair,
                   let* v := liftResult (fxSpot initMarket ccyPair) in
                   emplace (mkKey FXSpot ccyPair 0) v)
                (fxCcyPairs parameters).

Definition buildYieldCurveTimes : Build unit :=
        let* _ := tenorDates (yieldCurveTenors parameters) YieldCurveTenorsIncludeZero in
        ret tt.

      (** The block repeated for discount curves, benchmark yield curves and
          index curves: one cell per tenor, seeded with the discount factor
          of the initial curve. *)
Definition buildCurve (kt : KeyType)
        (lookup : string → Result (Date → Result Real)) (nm : string) : Build unit :=
        let* wrapper := liftResult (lookup nm) in
        let* yieldCurveDates :=
          tenorDates (yieldCurveTenors parameters) YieldCurveTenorsIncludeZero in
        forEach (λ '(i, date),
                   let* v := liftResult (wrapper date) in
                   emplace (mkKey kt nm i) v)
                (indexed yieldCurveDates).

Definition buildDiscountCurves : Build unit :=
        forEach (buildCurve DiscountCurve (discountCurve initMarket)) (ccys parameters).

Definition buildYieldCurves : Build unit :=
        forEach (buildCurve YieldCurve (yieldCurve initMarket)) (yieldCurveNames parameters).

Definition buildSecuritySpreads : Build unit :=
        forEach (λ nm, let* _ := liftResult (securitySpread initMarket nm) in ret tt)
                (securities parameters).

Definition buildIndexCurves : Build unit :=
        forEach (buildCurve IndexCurve (iborIndex initMarket)) (indices parameters).

Definition buildSwapIndices : Build unit :=
        forEach (λ '(indexName, discounting), liftResult (addSwapIndex indexName discounting))
                (swapIndices parameters).

Definition buildSwaptionVol (ccy : string) : Build unit :=
        let* initial := liftResult (swaptionVol initMarket ccy) in
        let* wrapper :=
          (if negb (sv_isNormal initial) && sv_isMatrix initial
           then liftResult (convertToNormal initMarket ccy initial)
           else ret initial) in
        (if simulateSwapVols parameters then
           let optionTenors := swapVolExpiries parameters in
           let swapTenors := swapVolTerms parameters in
           forEach (λ '(i, optionTenor),
                      forEach (λ '(j, swapTenor),
                                 let* vol := liftResult (sv_volatility wrapper optionTenor swapTenor) in
                                 emplace (mkKey SwaptionVolatility ccy (i * length swapTenors + j)) vol;;
                                 let* _ := liftResult (sv_shift wrapper optionTenor swapTenor) in
                                 ret tt)
                              (indexed swapTenors))
                   (indexed optionTenors)
         else
           let* _ := liftResult (parseDecayMode (swapVolDecayMode parameters)) in
           ret tt);;
        liftResult (swapIndexBases initMarket ccy).

Definition buildSwaptionVols : Build unit :=
        forEach buildSwaptionVol (swapVolCcys parameters).

Definition buildCapFloorVol (ccy : string) : Build unit :=
        let* wrapper := liftResult (capFloorVol initMarket ccy) in
        if simulateCapFloorVols parameters then
          let optionTenors := capFloorVolExpiries parameters in
          let strikes := capFloorVolStrikes parameters in
          forEach (λ '(i, optionTenor),
                     let* _ := liftResult (advance asof0 optionTenor) in
                     forEach (λ '(j, strike),
                                let* vol := liftResult (wrapper optionTenor strike) in
                                emplace (mkKey OptionletVolatility ccy (i * length strikes + j)) vol)
                             (indexed strikes))
                  (indexed optionTenors)
        else
          let* _ := liftResult (parseDecayMode (capFloorVolDecayMode parameters)) in
          ret tt.

Definition buildCapFloorVols : Build unit :=
        forEach buildCapFloorVol (capFloorVolCcys parameters).

      (** Default curves: the survival probabilities are read at today and at
          every tenor date, but no cell is registered for them. *)
Definition buildDefaultCurve (nm : string) : Build unit :=
        let* wrapper := liftResult (defaultCurve initMarket nm) in
        let* dates := tenorDates (defaultTenors parameters) DefaultCurveTenorsIncludeZero in
        forEach (λ date, let* _ := liftResult (wrapper date) in ret tt) (asof0 :: dates);;
        let* _ := liftResult (recoveryRate initMarket nm) in
        ret tt.

Definition buildDefaultCurves : Build unit :=
        forEach buildDefaultCurve (defaultNames parameters).

      (** The block shared by FX and equity volatilities: one cell per
          expiry when the volatilities are simulated, else the decay mode is
          parsed. *)
Definition buildBlackVol (kt : KeyType) (simulate : bool) (expiries : list Period)
        (decayModeString : string) (wrapper : Date → Result Real) (nm : string)
        : Build unit :=
        if simulate then
          forEach (λ '(i, expiry),
                     let* date := liftResult (advance asof0 expiry) in
                     let* vol := liftResult (wrapper date) in
                     emplace (mkKey kt nm i) vol)
                  (indexed expiries)
        else
          let* _ := liftResult (parseDecayMode decayModeString) in
          ret tt.

Definition buildFxVol (ccyPair : string) : Build unit :=
        let* wrapper := liftResult (fxVol initMarket ccyPair) in
        buildBlackVol FXVolatility (simulateFXVols parameters) (fxVolExpiries parameters)
                      (fxVolDecayMode parameters) wrapper ccyPair;;
        QL_REQUIRE (bool_decide (String.length ccyPair = 6)) (InvalidCcyPair ccyPair).

Definition buildFxVols : Build unit :=
        forEach buildFxVol (fxVolCcyPairs parameters).

Definition buildEquitySpots : Build unit :=
        forEach (λ eqName,
                   let* spotVal := liftResult (equitySpot initMarket eqName) in
                   emplace (mkKey EQSpot eqName 0) spotVal)
                (equityNames parameters).

Definition buildEquityCurveDates : Build (list Date) :=
        (if decide (0 < length (equityNames parameters)) then
           QL_REQUIRE (bool_decide (0 < length (equityTenors parameters)))
                      EquityTenorGridNotDefined;;
           let* f := liftResult (front (equityTenors parameters)) in
           QL_REQUIRE (positivePeriod f) EquityCurveTenorsIncludeZero
         else ret tt);;
        liftResult (mapResult (advance asof0) (equityTenors parameters)).

Definition buildEquityDividendCurves (equityCurveDates : list Date) : Build unit :=
        forEach (λ eqName,
                   let* wrapper := liftResult (equityDividendCurve initMarket eqName) in
                   forEach (λ date, let* _ := liftResult (wrapper date) in ret tt)
                           equityCurveDates)
                (equityNames parameters).

Definition buildEqVol (eqName : string) : Build unit :=
        let* wrapper := liftResult (equityVol initMarket eqName) in
        buildBlackVol EQVolatility (simulateEQVols parameters) (eqVolExpiries parameters)
                      (eqVolDecayMode parameters) wrapper eqName.

Definition buildEqVols : Build unit :=
        forEach buildEqVol (eqVolNames parameters).

Definition buildSimData : Build unit :=
        buildFxSpots;;
        buildYieldCurveTimes;;
        buildDiscountCurves;;
        buildYieldCurves;;
        buildSecuritySpreads;;
        buildIndexCurves;;
        buildSwapIndices;;
        buildSwaptionVols;;
        buildCapFloorVols;;
        buildDefaultCurves;;
        buildFxVols;;
        buildEquitySpots;;
        let* equityCurveDates := buildEquityCurveDates in
        buildEquityDividendCurves equityCurveDates;;
        buildEqVols.

      (** ScenarioSimMarket::ScenarioSimMarket *)
Definition construct (scenarioGenerator : G) : Result ScenarioSimMarket :=
        let r := buildSimData ∅ in
        match outcome r with
        | Ok _ => Ok (mkMarket parameters asof0 (final r) Datatypes.None
                               scenarioGenerator false)
        | Err e => Err e
        end.


      (** A parameter set that declares nothing to build: no FX pair, no
          currency, no curve or index name, no security, no volatility
          currency or name, no default or equity name. *)
Definition declaresNoEntity : Prop :=
        fxCcyPairs parameters = [] ∧ ccys parameters = [] ∧
        yieldCurveNames parameters = [] ∧ securities parameters = [] ∧
        indices parameters = [] ∧ swapIndices parameters = [] ∧
        swapVolCcys parameters = [] ∧ capFloorVolCcys parameters = [] ∧
        defaultNames parameters = [] ∧ fxVolCcyPairs parameters = [] ∧
        equityNames parameters = [] ∧ eqVolNames parameters = [].
      (** The keys the constructor registers a quote cell for, by category. *)
Definition declaredKey (k : RiskFactorKey) : Prop :=
        match keytype k with
        | FXSpot => name k ∈ fxCcyPairs parameters ∧ index k = 0
        | DiscountCurve =>
            name k ∈ ccys parameters ∧ index k < length (yieldCurveTenors parameters)
        | YieldCurve =>
            name k ∈ yieldCurveNames parameters ∧
            index k < length (yieldCurveTenors parameters)
        | IndexCurve =>
            name k ∈ indices parameters ∧ index k < length (yieldCurveTenors parameters)
        | SwaptionVolatility =>
            simulateSwapVols parameters = true ∧ name k ∈ swapVolCcys parameters ∧
            index k < length (swapVolExpiries parameters) * length (swapVolTerms parameters)
        | OptionletVolatility =>
            simulateCapFloorVols parameters = true ∧ name k ∈ capFloorVolCcys parameters ∧
            index k < length (capFloorVolExpiries parameters)
                      * length (capFloorVolStrikes parameters)
        | FXVolatility =>
            simulateFXVols parameters = true ∧ name k ∈ fxVolCcyPairs parameters ∧
            index k < length (fxVolExpiries parameters)
        | EQSpot => name k ∈ equityNames parameters ∧ index k = 0
        | EQVolatility =>
            simulateEQVols parameters = true ∧ name k ∈ eqVolNames parameters ∧
            index k < length (eqVolExpiries parameters)
        end.

      (** A run that, when it returns, has added to the bank [b] cells for
          the keys in [P] and no other, and has removed none. *)
Definition registers {A E} (P : RiskFactorKey → Prop) (b : gmap RiskFactorKey Real)
        (r : Result A) (b' : gmap RiskFactorKey Real) (evs : list E) : Prop :=
        isOk r = true → ∀ k, is_Some (b' !! k) ↔ is_Some (b !! k) ∨ P k.

      (** The keys of a block that registers one cell per name, and of a
          block that registers [n] cells per name. *)
Definition stageSpot (kt : KeyType) (names : list string) (k : RiskFactorKey) : Prop :=
        ∃ nm, nm ∈ names ∧ k = mkKey kt nm 0.

Definition stageGrid (kt : KeyType) (names : list string) (n : nat) (k : RiskFactorKey)
        : Prop :=
        ∃ nm, nm ∈ names ∧ ∃ i, i < n ∧ k = mkKey kt nm i.

      (** The keys registered by the blocks of the constructor, in order. *)
Definition registeredKeys (k : RiskFactorKey) : Prop :=
        stageSpot FXSpot (fxCcyPairs parameters) k ∨
        stageGrid DiscountCurve (ccys parameters) (length (yieldCurveTenors parameters)) k ∨
        stageGrid YieldCurve (yieldCurveNames parameters)
                  (length (yieldCurveTenors parameters)) k ∨
        stageGrid IndexCurve (indices parameters) (length (yieldCurveTenors parameters)) k ∨
        (simulateSwapVols parameters = true ∧
         stageGrid SwaptionVolatility (swapVolCcys parameters)
                   (length (swapVolExpiries parameters) * length (swapVolTerms parameters)) k) ∨
        (simulateCapFloorVols parameters = true ∧
         stageGrid OptionletVolatility (capFloorVolCcys parameters)
                   (length (capFloorVolExpiries parameters)
                    * length (capFloorVolStrikes parameters)) k) ∨
        (simulateFXVols parameters = true ∧
         stageGrid FXVolatility (fxVolCcyPairs parameters)
                   (length (fxVolExpiries parameters)) k) ∨
        stageSpot EQSpot (equityNames parameters) k ∨
        (simulateEQVols parameters = true ∧
         stageGrid EQVolatility (eqVolNames parameters) (length (eqVolExpiries parameters)) k).
End Constructor.
End Model.

Arguments Scenario : clear implicits.
Arguments ScenarioGenerator : clear implicits.
Arguments ScenarioSimMarket : clear implicits.
Arguments World : clear implicits.
Arguments Event : clear implicits.

End SimMarket.


(** ** Concrete markets, scenarios and applications

    Small inputs on which the definitions above are run; values of type
    [Real] are integers here. *)

Module Examples.
Import SimMarket.

Definition k1 : RiskFactorKey := mkKey DiscountCurve "EUR" 0.
Definition k2 : RiskFactorKey := mkKey DiscountCurve "EUR" 1.

(** A parameter set that declares no entity to simulate. *)
Definition emptyParameters (tenors : list Period) : ScenarioSimMarketParameters Z :=
  mkParameters Z "EUR" [] tenors [] [] [] [] []
               [] false [] [] "ForwardVariance"
               [] false [] [] "ForwardVariance"
               [] []
               [] false [] "ForwardVariance"
               [] [] [] false [] "ForwardVariance"
               ["EUR-EURIBOR-6M"] ["USD"; "EUR"].


(** An initial market that knows nothing. *)
Definition noMarket : InitMarket (Real:=Z) :=
  mkInitMarket 42000%Z
    (λ n, Err (NotProvided "fx spot" n))
    (λ n, Err (NotProvided "discount curve" n))
    (λ n, Err (NotProvided "yield curve" n))
    (λ n, Err (NotProvided "security spread" n))
    (λ n, Err (NotProvided "index" n))
    (λ n, Err (NotProvided "swaption volatility" n))
    (λ n _, Err (NotProvided "swap index" n))
    (λ n, Err (NotProvided "swap index base" n))
    (λ n, Err (NotProvided "cap/floor volatility" n))
    (λ n, Err (NotProvided "default curve" n))
    (λ n, Err (NotProvided "recovery rate" n))
    (λ n, Err (NotProvided "fx volatility" n))
    (λ n, Err (NotProvided "equity spot" n))
    (λ n, Err (NotProvided "equity dividend curve" n))
    (λ n, Err (NotProvided "equity volatility" n)).

(** Date arithmetic that counts every unit as one day. *)
Definition addDays (d : Date) (p : Period) : Result Date := Ok (d + length_ p)%Z.

Definition noSwapIndex (n discounting : string) : Result unit :=
  Err (NotProvided "swap index" n).

(** A generator that hands out the same scenario at every call and counts
    its calls; [reset] puts the count back to zero. *)
Definition constantGenerator (sc : Scenario Z) : ScenarioGenerator Z nat :=
  mkGenerator (λ _ n, (sc, S n)) (λ _, 0).

(** A generator that replays a path of scenarios, the empty scenario after
    its end. *)
Definition emptyScenario : Scenario Z := mkScenario 0%Z [] ∅ 1%Z.

Definition pathGenerator (path : list (Scenario Z)) : ScenarioGenerator Z nat :=
  mkGenerator (λ _ n, (nth n path emptyScenario, S n)) (λ _, 0).

Definition fullScenario : Scenario Z :=
  mkScenario 42001%Z [k1; k2] {[ k1 := 5%Z; k2 := 7%Z ]} 1%Z.

Definition otherScenario : Scenario Z :=
  mkScenario 42001%Z [k1; k2] {[ k1 := 6%Z; k2 := 8%Z ]} 1%Z.

(** A scenario that names the first key twice and the second not at all. *)
Definition duplicateScenario : Scenario Z :=
  mkScenario 42001%Z [k1; k1] {[ k1 := 5%Z ]} 1%Z.

(** A scenario with a key the example market has no cell for. *)
Definition k3 : RiskFactorKey := mkKey FXSpot "USDEUR" 0.

Definition strayScenario : Scenario Z :=
  mkScenario 42001%Z [k1; k2; k3] {[ k1 := 5%Z; k2 := 7%Z; k3 := 9%Z ]} 1%Z.

Definition twoCells : gmap RiskFactorKey Z := {[ k1 := 1%Z; k2 := 1%Z ]}.

Definition exampleMarket (asd : bool) : ScenarioSimMarket Z nat :=
  mkMarket (emptyParameters [mkPeriod 1 Years]) 42000%Z twoCells Datatypes.None 0 asd.

Definition exampleWorld (om : ObservationMode.Mode) (asd : bool) : World Z nat :=
  mkWorld (exampleMarket asd) (mkGlobals om 42000%Z true false []).

Definition constantFixing (w : World Z nat) (i : string) (d : Date) : Result Z := Ok 3%Z.
Definition constantFxSpot (w : World Z nat) (pair : string) : Result Z := Ok 2%Z.

(** An application set up for the aggregation stage with a cube and scenario
    data in memory. *)
Definition exampleCube : OREApp.NPVCube :=
  OREApp.mkCube OREApp.SinglePrecisionInMemoryCube ["t1"; "t2"] [42001%Z; 42002%Z] 3 1.

Definition exampleApp (portfolioSize depth : nat) : OREApp.App :=
  OREApp.mkApp 42000%Z depth 3 [42001%Z; 42002%Z] ["t1"; "t2"] portfolioSize
               (Some exampleCube) (Some (OREApp.mkASD 2 3)) true false.

Definition exampleEnvironment : OREApp.Environment :=
  OREApp.mkEnv Datatypes.None (λ _, Err (ExternalFailure "no cube file"))
               (Err (ExternalFailure "no scenario file"))
               (λ _ _, Ok tt) (Ok tt) (Ok tt) (λ a, Ok a).

(** Per-qualifier maps with an entry for one qualifier, a default entry, or
    neither. *)
Definition exampleLookups : Parameters.ScenarioSimMarketParameters :=
  Parameters.Build_ScenarioSimMarketParameters
    {[ EmptyString := [mkPeriod 6 Months]; "EUR" := [mkPeriod 1 Years] ]}
    {[ EmptyString := "A365" ]}
    ∅ ∅ ∅
    {[ "CPTY_A" := "A360" ]}
    {[ EmptyString := "TARGET" ]}
    ∅ ∅ ∅ ∅ ∅ ∅ ∅ ∅ ∅ ∅ ∅ ∅ ∅ ∅ ∅ ∅ ∅.

(** A parameter object on which no setter has been called. *)
Definition freshParameterObject : ParameterObject.ScenarioSimMarketParameters :=
  ParameterObject.mkParameterObject "EUR" [] ∅ exampleLookups ∅.

(** An initial market that provides every object asked for, each of them
    flat. *)
Definition flatCurve (d : Date) : Result Z := Ok 1%Z.

Definition flatSwaptionVol : SwaptionVolatilityStructure (Real:=Z) :=
  mkSwaptionVol true true (λ _ _, Ok 1%Z) (λ _ _, Ok 0%Z).

Definition flatMarket : InitMarket (Real:=Z) :=
  mkInitMarket 42000%Z
    (λ _, Ok 1%Z) (λ _, Ok flatCurve) (λ _, Ok flatCurve) (λ _, Ok 0%Z)
    (λ _, Ok flatCurve) (λ _, Ok flatSwaptionVol) (λ _ s, Ok s) (λ _, Ok tt)
    (λ _, Ok (λ _ _, Ok 1%Z)) (λ _, Ok flatCurve) (λ _, Ok 0%Z)
    (λ _, Ok flatCurve) (λ _, Ok 1%Z) (λ _, Ok flatCurve) (λ _, Ok flatCurve).

(** A parameter set with two currencies, one index, one FX pair, swaption
    and FX volatilities simulated, equity volatilities not. *)
Definition smallParameters : ScenarioSimMarketParameters Z :=
  mkParameters Z "EUR" ["EUR"; "USD"] [mkPeriod 6 Months; mkPeriod 1 Years]
               [] [] ["EUR-EURIBOR-6M"] [] ["USDEUR"]
               ["EUR"] true [mkPeriod 1 Years; mkPeriod 2 Years]
               [mkPeriod 5 Years; mkPeriod 10 Years; mkPeriod 20 Years] "ForwardVariance"
               [] false [] [] "ForwardVariance"
               ["CPTY_A"] [mkPeriod 1 Years]
               ["USDEUR"] true [mkPeriod 1 Years] "ForwardVariance"
               ["SP5"] [mkPeriod 1 Years] ["SP5"] false [] "ConstantVariance"
               [] [].

End Examples.


(** * Properties *)

(** ** Reasoning about the monad *)

Section MonadLemmas.
Context {S E : Type}.
Implicit Types s : S.


Lemma bind_Ok_run {A B} (m : M S E A) (f : A → M S E B) s a :
  outcome (m s) = Ok a →
  bind m f s =
    mkRun (outcome (f a (final (m s)))) (final (f a (final (m s))))
          (emitted (m s) ++ emitted (f a (final (m s)))).
Proof. intros Hm. unfold bind. rewrite Hm. reflexivity. Qed.

Lemma bind_Err_run {A B} (m : M S E A) (f : A → M S E B) s e :
  outcome (m s) = Err e →
  bind m f s = mkRun (Err e) (final (m s)) (emitted (m s)).
Proof. intros Hm. unfold bind. rewrite Hm. reflexivity. Qed.


Lemma liftResult_final {A} (r : Result A) s :
  final (liftResult (S:=S) (E:=E) r s) = s.
Proof. destruct r; reflexivity. Qed.

Lemma liftResult_emitted {A} (r : Result A) s :
  emitted (liftResult (S:=S) (E:=E) r s) = [].
Proof. destruct r; reflexivity. Qed.

Lemma liftResult_outcome {A} (r : Result A) s :
  outcome (liftResult (S:=S) (E:=E) r s) = r.
Proof. destruct r; reflexivity. Qed.


Lemma forEach_nil_run {A} (body : A → M S E unit) s :
  forEach body [] s = mkRun (Ok tt) s [].
Proof. reflexivity. Qed.

End MonadLemmas.

(** Unfolds the primitives of the monad in the goal and in the hypotheses. *)
Ltac munfold :=
  unfold bind, ret, throw, getState, modify, emit, liftResult, QL_REQUIRE in *;
  simpl in *.

(** ** A weakest-precondition reading of the monad *)

Section WeakestPrecondition.
Context {S E : Type}.

Definition wp {A} (m : M S E A) (Q : Result A → S → list E → Prop) (s : S) : Prop :=
  Q (outcome (m s)) (final (m s)) (emitted (m s)).

Lemma wp_ret {A} (a : A) Q s : Q (Ok a) s [] → wp (ret a) Q s.
Proof. done. Qed.

Lemma wp_throw {A} e (Q : Result A → S → list E → Prop) s :
  Q (Err e) s [] → wp (throw e) Q s.
Proof. done. Qed.

Lemma wp_getState Q s : Q (Ok s) s [] → wp getState Q s.
Proof. done. Qed.

Lemma wp_modify f Q s : Q (Ok tt) (f s) [] → wp (modify f) Q s.
Proof. done. Qed.

Lemma wp_emit (e : E) Q s : Q (Ok tt) s [e] → wp (emit e) Q s.
Proof. done. Qed.

Lemma wp_bind {A B} (m : M S E A) (f : A → M S E B) Q s :
  wp m (λ r s' evs,
          match r with
          | Ok a => wp (f a) (λ r' s'' evs', Q r' s'' (evs ++ evs')) s'
          | Err e => Q (Err e) s' evs
          end) s →
  wp (bind m f) Q s.
Proof.
  unfold wp, bind. destruct (outcome (m s)); simpl; auto.
Qed.

Lemma wp_mono {A} (m : M S E A) (Q Q' : Result A → S → list E → Prop) s :
  wp m Q s → (∀ r s' evs, Q r s' evs → Q' r s' evs) → wp m Q' s.
Proof. unfold wp. auto. Qed.

Lemma wp_bind_with {A B} (m : M S E A) (f : A → M S E B) R Q s :
  wp m R s →
  (∀ r s' evs, R r s' evs →
     match r with
     | Ok a => wp (f a) (λ r' s'' evs', Q r' s'' (evs ++ evs')) s'
     | Err e => Q (Err e) s' evs
     end) →
  wp (bind m f) Q s.
Proof. intros Hm HR. apply wp_bind. eapply wp_mono; eauto. Qed.

Lemma wp_run {A} (m : M S E A) (Q : Result A → S → list E → Prop) s :
  wp m Q s ↔ Q (outcome (m s)) (final (m s)) (emitted (m s)).
Proof. done. Qed.
End WeakestPrecondition.

(** One step of symbolic execution that splits on no [match]. *)
Ltac wp_prim :=
  lazymatch goal with
  | |- wp (bind _ _) _ _ => apply wp_bind
  | |- wp (ret _) _ _ => apply wp_ret; cbv beta iota
  | |- wp (throw _) _ _ => apply wp_throw; cbv beta iota
  | |- wp getState _ _ => apply wp_getState; cbv beta iota
  | |- wp (modify _) _ _ => apply wp_modify; cbv beta iota
  | |- wp (emit _) _ _ => apply wp_emit; cbv beta iota
  end.

(** One step of symbolic execution. *)
Ltac wp_step :=
  lazymatch goal with
  | |- wp (bind _ _) _ _ => apply wp_bind
  | |- wp (ret _) _ _ => apply wp_ret; cbv beta iota
  | |- wp (throw _) _ _ => apply wp_throw; cbv beta iota
  | |- wp getState _ _ => apply wp_getState; cbv beta iota
  | |- wp (modify _) _ _ => apply wp_modify; cbv beta iota
  | |- wp (emit _) _ _ => apply wp_emit; cbv beta iota
  | |- wp (liftResult ?r) _ _ => destruct r eqn:?; unfold liftResult
  | |- wp (QL_REQUIRE ?c _) _ _ => destruct c eqn:?; unfold QL_REQUIRE
  | |- wp (match ?x with _ => _ end) _ _ => destruct x eqn:?
  end.

(** ** parseDecayMode *)



(** ** Constructor: what a returning run went through *)

Section ConstructorLemmas.
Context {Real : Type}.
Variable advance : Date → Period → Result Date.
Variable addSwapIndex : string → string → Result unit.
Variable initMarket : SimMarket.InitMarket (Real:=Real).
Variable parameters : SimMarket.ScenarioSimMarketParameters Real.

Import SimMarket.







Lemma construct_Ok_inv {G : Type} (g : G) m :
  construct advance addSwapIndex initMarket parameters g = Ok m →
  outcome (buildSimData advance addSwapIndex initMarket parameters ∅) = Ok tt ∧
  m = mkMarket parameters (asofDate initMarket)
        (final (buildSimData advance addSwapIndex initMarket parameters ∅))
        Datatypes.None g false.
Proof.
  unfold construct, asof0.
  destruct (outcome (buildSimData advance addSwapIndex initMarket parameters ∅))
    as [[]|e]; [|discriminate].
  intros [= <-]. done.
Qed.


End ConstructorLemmas.


(** ** Per-qualifier parameter lookups *)

Lemma returnTenors_cases (m : gmap string (list Period)) (k : string) :
  (∀ v, m !! k = Some v → Parameters.returnTenors m k = Ok v) ∧
  (∀ v, m !! k = None → m !! EmptyString = Some v →
        Parameters.returnTenors m k = Ok v) ∧
  (m !! k = None → m !! EmptyString = None →
        Parameters.returnTenors m k = Err (NoPeriodVectorForKey k)) ∧
  (isErr (Parameters.returnTenors m k) = true ↔
     m !! k = None ∧ m !! EmptyString = None).
Proof.
  unfold Parameters.returnTenors. split; [|split; [|split]].
  - intros v ->. reflexivity.
  - intros v -> ->. reflexivity.
  - intros -> ->. reflexivity.
  - unfold isErr. destruct (m !! k), (m !! EmptyString); simpl; intuition congruence.
Qed.

Lemma returnDayCounter_cases (m : gmap string string) (k : string) :
  (∀ v, m !! k = Some v → Parameters.returnDayCounter m k = Ok v) ∧
  (∀ v, m !! k = None → m !! EmptyString = Some v →
        Parameters.returnDayCounter m k = Ok v) ∧
  (m !! k = None → m !! EmptyString = None →
        Parameters.returnDayCounter m k = Err (NoDayCounterForKey k)) ∧
  (isErr (Parameters.returnDayCounter m k) = true ↔
     m !! k = None ∧ m !! EmptyString = None).
Proof.
  unfold Parameters.returnDayCounter. split; [|split; [|split]].
  - intros v ->. reflexivity.
  - intros v -> ->. reflexivity.
  - intros -> ->. reflexivity.
  - unfold isErr. destruct (m !! k), (m !! EmptyString); simpl; intuition congruence.
Qed.

(** C10: every per-qualifier lookup of the parameter object, the two helpers
    and each of the accessors that read a tenor grid, a day counter or a
    calendar through them, returns the entry of the exact qualifier when its
    map has one, otherwise the entry of the empty-string default when the map
    has one, and raises the error naming the qualifier if and only if the map
    has neither. *)
Theorem returnTenors_returnDayCounter_spec :
  let tenorLookup (lookup : string → Result (list Period))
                  (m : gmap string (list Period)) :=
    ∀ k, (∀ v, m !! k = Some v → lookup k = Ok v) ∧
         (∀ v, m !! k = None → m !! EmptyString = Some v → lookup k = Ok v) ∧
         (m !! k = None → m !! EmptyString = None →
            lookup k = Err (NoPeriodVectorForKey k)) ∧
         (isErr (lookup k) = true ↔ m !! k = None ∧ m !! EmptyString = None) in
  let dayCounterLookup (lookup : string → Result string) (m : gmap string string) :=
    ∀ k, (∀ v, m !! k = Some v → lookup k = Ok v) ∧
         (∀ v, m !! k = None → m !! EmptyString = Some v → lookup k = Ok v) ∧
         (m !! k = None → m !! EmptyString = None →
            lookup k = Err (NoDayCounterForKey k)) ∧
         (isErr (lookup k) = true ↔ m !! k = None ∧ m !! EmptyString = None) in
  (∀ m, tenorLookup (Parameters.returnTenors m) m) ∧
  (∀ m, dayCounterLookup (Parameters.returnDayCounter m) m) ∧
  (∀ p,
     tenorLookup (Parameters.yieldCurveTenors p) (Parameters.yieldCurveTenors_ p) ∧
     dayCounterLookup (Parameters.yieldCurveDayCounter p)
                      (Parameters.yieldCurveDayCounters_ p) ∧
     tenorLookup (Parameters.capFloorVolExpiries p) (Parameters.capFloorVolExpiries_ p) ∧
     tenorLookup (Parameters.yoyInflationCapFloorVolExpiries p)
                 (Parameters.yoyInflationCapFloorVolExpiries_ p) ∧
     tenorLookup (Parameters.defaultTenors p) (Parameters.defaultTenors_ p) ∧
     dayCounterLookup (Parameters.defaultCurveDayCounter p)
                      (Parameters.defaultCurveDayCounters_ p) ∧
     dayCounterLookup (Parameters.defaultCurveCalendar p)
                      (Parameters.defaultCurveCalendars_ p) ∧
     dayCounterLookup (Parameters.swapVolDayCounter p) (Parameters.swapVolDayCounters_ p) ∧
     dayCounterLookup (Parameters.yieldVolDayCounter p) (Parameters.yieldVolDayCounters_ p) ∧
     dayCounterLookup (Parameters.fxVolDayCounter p) (Parameters.fxVolDayCounters_ p) ∧
     dayCounterLookup (Parameters.cdsVolDayCounter p) (Parameters.cdsVolDayCounters_ p) ∧
     dayCounterLookup (Parameters.equityVolDayCounter p)
                      (Parameters.equityVolDayCounters_ p) ∧
     dayCounterLookup (Parameters.capFloorVolDayCounter p)
                      (Parameters.capFloorVolDayCounters_ p) ∧
     dayCounterLookup (Parameters.yoyInflationCapFloorVolDayCounter p)
                      (Parameters.yoyInflationCapFloorVolDayCounters_ p) ∧
     tenorLookup (Parameters.equityDividendTenors p) (Parameters.equityDividendTenors_ p) ∧
     tenorLookup (Parameters.zeroInflationTenors p) (Parameters.zeroInflationTenors_ p) ∧
     dayCounterLookup (Parameters.zeroInflationDayCounter p)
                      (Parameters.zeroInflationDayCounters_ p) ∧
     tenorLookup (Parameters.yoyInflationTenors p) (Parameters.yoyInflationTenors_ p) ∧
     dayCounterLookup (Parameters.yoyInflationDayCounter p)
                      (Parameters.yoyInflationDayCounters_ p) ∧
     dayCounterLookup (Parameters.baseCorrelationDayCounter p)
                      (Parameters.baseCorrelationDayCounters_ p) ∧
     tenorLookup (Parameters.commodityCurveTenors p) (Parameters.commodityCurveTenors_ p) ∧
     dayCounterLookup (Parameters.commodityCurveDayCounter p)
                      (Parameters.commodityCurveDayCounters_ p) ∧
     tenorLookup (Parameters.commodityVolExpiries p) (Parameters.commodityVolExpiries_ p) ∧
     dayCounterLookup (Parameters.commodityVolDayCounter p)
                      (Parameters.commodityVolDayCounters_ p)).
Proof.
  intros tenorLookup dayCounterLookup. subst tenorLookup dayCounterLookup. cbv beta.
  split; [intros m k; apply returnTenors_cases|].
  split; [intros m k; apply returnDayCounter_cases|].
  intros p.
  repeat match goal with
         | |- _ ∧ _ => split
         | |- ∀ k : string, _ => intros k
         end.
  all: first [apply returnTenors_cases | apply returnDayCounter_cases].
Qed.

(** ** The application driver *)


Ltac elem_cases H :=
  repeat (apply elem_of_cons in H as [H|H]; [try discriminate|]);
  try (by apply elem_of_nil in H).

Ltac elem_find :=
  repeat first [apply list_elem_of_here | apply list_elem_of_further].

Ltac decide_hyps :=
  repeat match goal with
         | H : bool_decide _ = true |- _ => apply bool_decide_eq_true in H
         | H : bool_decide _ = false |- _ => apply bool_decide_eq_false in H
         end.

Section OREAppSpec.
Import OREApp.
Variable env : Environment.

Lemma aggregationStage_spec a :
  wp (aggregationStage env)
     (λ r a' evs,
        portfolio_size a' = portfolio_size a ∧
        xva_ a' = xva_ a ∧
        (∀ c d, EvRunPostProcessor c d ∈ evs →
           cube_ a' = Some c ∧ scenarioData_ a' = Some d ∧ dimensionsMatch a c d) ∧
        (r = Ok tt → ∃ c d, EvRunPostProcessor c d ∈ evs)) a.
Proof.
  unfold aggregationStage, loadCube, loadScenarioData, runPostProcessor.
  repeat wp_step.
  all: simpl in *; split; [done|split; [done|split]].
  all: try (intros c' d' Hin; elem_cases Hin; injection Hin as <- <-;
            simplify_eq; decide_hyps; unfold dimensionsMatch; by auto).
  all: intros Hok; try discriminate; do 2 eexists; elem_find.
Qed.

Lemma run_spec a :
  wp (run env)
     (λ r a' evs,
        (∀ c d, EvRunPostProcessor c d ∈ evs →
           cube_ a' = Some c ∧ scenarioData_ a' = Some d ∧ dimensionsMatch a' c d) ∧
        (r = Ok 0%Z → xva_ a' = true → ∃ c d, EvRunPostProcessor c d ∈ evs) ∧
        (r = Ok 0%Z ∨ r = Ok 1%Z)) a.
Proof.
  unfold wp, run.
  match goal with |- context [outcome (?b a)] => set (body := b) end.
  assert (wp body
     (λ r a' evs,
        (∀ c d, EvRunPostProcessor c d ∈ evs →
           cube_ a' = Some c ∧ scenarioData_ a' = Some d ∧ dimensionsMatch a' c d) ∧
        (r = Ok tt → xva_ a' = true → ∃ c d, EvRunPostProcessor c d ∈ evs)) a) as Hbody.
  { subst body. repeat wp_step.
    - eapply wp_mono; [apply aggregationStage_spec|].
      simpl. intros r a' evs (Hp & Hx & Hin & Hok). split; [|by auto].
      intros c d Hcd. destruct (Hin c d Hcd) as (? & ? & ?).
      unfold dimensionsMatch in *. rewrite Hp. auto.
    - simpl. split; [intros c d Hin; elem_cases Hin|].
      intros _ Hx. congruence.
    - simpl. split; [intros c d Hin; elem_cases Hin|done]. }
  unfold wp in Hbody. clearbody body.
  destruct (body a) as [[[]|e] a' evs]; simpl in *; destruct Hbody as [Hin Hok].
  - split; [exact Hin|]. split; auto.
  - split; [exact Hin|]. split; [discriminate|auto].
Qed.

(** C3: at the aggregation stage the post-processor runs only if the cube's
    number of ids equals the portfolio size, the scenario data's date
    dimension equals the size of the cube's date grid and its sample
    dimension equals the cube's samples; a run with the stage switched on
    ends with exit code 0 only if the three hold, and ends with exit code 1,
    the post-processor never called, when one of them fails. *)
Theorem run_aggregation_checks a :
  let r := run env a in
  (∀ c d, EvRunPostProcessor c d ∈ emitted r →
     cube_ (final r) = Some c ∧ scenarioData_ (final r) = Some d ∧
     numIds c = portfolio_size (final r) ∧
     dimDates d = length (dates c) ∧
     dimSamples d = samples c) ∧
  (xva_ (final r) = true → outcome r = Ok 0%Z →
     ∃ c d, cube_ (final r) = Some c ∧ scenarioData_ (final r) = Some d ∧
            numIds c = portfolio_size (final r) ∧
            dimDates d = length (dates c) ∧
            dimSamples d = samples c ∧
            EvRunPostProcessor c d ∈ emitted r) ∧
  (∀ c d, xva_ (final r) = true →
     cube_ (final r) = Some c → scenarioData_ (final r) = Some d →
     ¬ (numIds c = portfolio_size (final r) ∧
        dimDates d = length (dates c) ∧
        dimSamples d = samples c) →
     outcome r = Ok 1%Z ∧ ∀ c' d', EvRunPostProcessor c' d' ∉ emitted r).
Proof.
  intros r. pose proof (run_spec a) as H. unfold wp in H. fold r in H.
  destruct H as (Hin & Hok & Hcode). unfold dimensionsMatch in Hin.
  split; [exact Hin|]. split.
  - intros Hx H0. destruct (Hok H0 Hx) as (c & d & Hcd).
    destruct (Hin c d Hcd) as (? & ? & ? & ? & ?). eauto 10.
  - intros c d Hx Hc Hd Hno.
    assert (∀ c' d', EvRunPostProcessor c' d' ∉ emitted r) as Hnone.
    { intros c' d' Hcd. destruct (Hin c' d' Hcd) as (Hc' & Hd' & Hm).
      rewrite Hc in Hc'. rewrite Hd in Hd'. simplify_eq. auto. }
    split; [|exact Hnone].
    destruct Hcode as [H0|H1]; [|exact H1].
    destruct (Hok H0 Hx) as (c' & d' & Hcd). by apply Hnone in Hcd.
Qed.

End OREAppSpec.

(** C8: the cube set-up stores in the application an NPV-only cube of depth 1
    for depth 1 and a cube with the NPV and one further measure, of depth 2,
    for depth 2, each over the portfolio's ids, the grid's dates and the
    number of samples; for every other depth it fails with the error saying
    that depth 1 or 2 is expected and leaves the application as it was.  It
    returns only with a cube of depth 1 or 2 stored, touches no other member
    and calls no collaborator. *)
Theorem initCube_depth (a : OREApp.App) :
  let r := OREApp.initCube a in
  let built (cls : OREApp.CubeClass) (d : nat) :=
    outcome r = Ok tt ∧
    OREApp.cube_ (final r)
      = Some (OREApp.mkCube cls (OREApp.simPortfolio_ids a) (OREApp.grid_dates a)
                            (OREApp.samples_ a) d) in
  (OREApp.cubeDepth_ a = 1 → built OREApp.SinglePrecisionInMemoryCube 1) ∧
  (OREApp.cubeDepth_ a = 2 → built OREApp.SinglePrecisionInMemoryCubeN 2) ∧
  (OREApp.cubeDepth_ a ≠ 1 → OREApp.cubeDepth_ a ≠ 2 →
     outcome r = Err CubeDepthExpected ∧ final r = a) ∧
  (outcome r = Ok tt →
     ∃ c, OREApp.cube_ (final r) = Some c ∧
          OREApp.depth c = OREApp.cubeDepth_ a ∧
          (OREApp.depth c = 1 ∨ OREApp.depth c = 2) ∧
          (OREApp.cubeClass c = OREApp.SinglePrecisionInMemoryCube ↔ OREApp.depth c = 1) ∧
          (OREApp.cubeClass c = OREApp.SinglePrecisionInMemoryCubeN ↔ OREApp.depth c = 2) ∧
          OREApp.ids c = OREApp.simPortfolio_ids a ∧
          OREApp.dates c = OREApp.grid_dates a ∧
          OREApp.samples c = OREApp.samples_ a) ∧
  (isErr (outcome r) = true ↔ OREApp.cubeDepth_ a ≠ 1 ∧ OREApp.cubeDepth_ a ≠ 2) ∧
  OREApp.cubeDepth_ (final r) = OREApp.cubeDepth_ a ∧
  OREApp.asof_ (final r) = OREApp.asof_ a ∧
  OREApp.samples_ (final r) = OREApp.samples_ a ∧
  OREApp.grid_dates (final r) = OREApp.grid_dates a ∧
  OREApp.simPortfolio_ids (final r) = OREApp.simPortfolio_ids a ∧
  OREApp.portfolio_size (final r) = OREApp.portfolio_size a ∧
  OREApp.scenarioData_ (final r) = OREApp.scenarioData_ a ∧
  emitted r = [].
Proof.
  intros r built. subst r built. cbv beta.
  unfold OREApp.initCube, bind, getState, modify, throw, isErr. simpl.
  destruct (decide (OREApp.cubeDepth_ a = 1)) as [H1|H1]; simpl;
    [|destruct (decide (OREApp.cubeDepth_ a = 2)) as [H2|H2]; simpl].
  - split; [done|]. split; [intros; lia|]. split; [done|].
    split; [|split; [|done]].
    + intros _. eexists. split; [reflexivity|]. simpl. rewrite H1.
      repeat split; auto; intros; congruence.
    + split; [done|]. by intros [? _].
  - split; [done|]. split; [intros _; by rewrite H2|]. split; [done|].
    split; [|split; [|done]].
    + intros _. eexists. split; [reflexivity|]. simpl. rewrite H2.
      repeat split; auto; intros; congruence.
    + split; [done|]. by intros [_ ?].
  - split; [done|]. split; [done|]. split; [done|].
    split; [discriminate|]. done.
Qed.

(** ** The loop of update, read as a pure function *)

Section ScenarioWrites.
Import SimMarket.
Context {Real : Type}.
Implicit Types (sc : Scenario Real) (b : gmap RiskFactorKey Real)
  (ws : list (RiskFactorKey * Real)) (ks : list RiskFactorKey).

Lemma scenarioWrites_ext sc ks b b' :
  (∀ j, is_Some (b !! j) ↔ is_Some (b' !! j)) →
  scenarioWrites sc ks b = scenarioWrites sc ks b'.
Proof.
  intros Hdom. induction ks as [|k ks IH]; simpl; [done|].
  specialize (Hdom k).
  destruct (b !! k) as [x|] eqn:Hb, (b' !! k) as [x'|] eqn:Hb'.
  - by rewrite IH.
  - destruct Hdom as [Hd _]. destruct Hd as [? ?]; eauto; discriminate.
  - destruct Hdom as [_ Hd]. destruct Hd as [? ?]; eauto; discriminate.
  - done.
Qed.

Lemma matchedKeys_ext ks b b' :
  (∀ j, is_Some (b !! j) ↔ is_Some (b' !! j)) →
  matchedKeys ks b = matchedKeys ks b'.
Proof.
  intros Hdom. unfold matchedKeys. apply list_filter_iff. intros k. apply Hdom.
Qed.

Lemma applyWrites_cons k v ws b :
  applyWrites ((k, v) :: ws) b = applyWrites ws (<[k:=v]> b).
Proof. reflexivity. Qed.

Lemma scenarioWrites_present sc ks b :
  Forall (λ kv, is_Some (b !! kv.1) ∧ data sc !! kv.1 = Some kv.2) (scenarioWrites sc ks b).
Proof.
  induction ks as [|k ks IH]; simpl; [constructor|].
  destruct (b !! k) eqn:Hb; [|done].
  destruct (data sc !! k) eqn:Hd; constructor; simpl; eauto.
Qed.

Lemma applyWrites_is_Some ws b j :
  Forall (λ kv, is_Some (b !! kv.1)) ws →
  is_Some (applyWrites ws b !! j) ↔ is_Some (b !! j).
Proof.
  revert b. induction ws as [|[k v] ws IH]; intros b Hws; [done|].
  rewrite applyWrites_cons. inversion Hws as [|? ? Hk Hrest]; subst. simpl in Hk.
  rewrite IH.
  - rewrite lookup_insert. case_decide; subst; [|done].
    split; [done|]. eauto.
  - eapply Forall_impl; [exact Hrest|]. intros [k' v'] Hk'. simpl in *.
    rewrite lookup_insert. case_decide; eauto.
Qed.

(** The bank after the writes: a key written holds the scenario's value,
    every other key is untouched. *)
Lemma applyWrites_lookup sc ws b j :
  Forall (λ kv, data sc !! kv.1 = Some kv.2) ws →
  applyWrites ws b !! j = if decide (j ∈ ws.*1) then data sc !! j else b !! j.
Proof.
  revert b. induction ws as [|[k v] ws IH]; intros b Hws.
  - cbn. destruct (decide (j ∈ [])) as [Hin|]; [by apply elem_of_nil in Hin|done].
  - rewrite applyWrites_cons. inversion Hws as [|? ? Hk Hrest]; subst. simpl in Hk.
    rewrite IH by done. simpl.
    destruct (decide (j ∈ ws.*1)) as [Hin|Hnin].
    + rewrite decide_True; [done|]. by apply elem_of_cons; right.
    + rewrite lookup_insert. destruct (decide (k = j)) as [->|Hne].
      * rewrite decide_True; [by rewrite Hk|]. apply elem_of_cons; by left.
      * rewrite decide_False; [done|].
        intros [?|?]%elem_of_cons; [congruence|done].
Qed.

Lemma scenarioWrites_is_Some sc ks b j :
  is_Some (applyWrites (scenarioWrites sc ks b) b !! j) ↔ is_Some (b !! j).
Proof.
  apply applyWrites_is_Some.
  eapply Forall_impl; [apply scenarioWrites_present|]. by intros ? [? ?].
Qed.

(** Applying the same scenario a second time changes nothing. *)
Lemma applyScenario_idempotent sc ks b :
  let b' := applyWrites (scenarioWrites sc ks b) b in
  applyWrites (scenarioWrites sc ks b') b' = b'.
Proof.
  intros b'.
  assert (scenarioWrites sc ks b' = scenarioWrites sc ks b) as ->.
  { apply scenarioWrites_ext. intros j. apply scenarioWrites_is_Some. }
  apply map_eq. intros j.
  assert (Forall (λ kv, data sc !! kv.1 = Some kv.2) (scenarioWrites sc ks b)) as Hws.
  { eapply Forall_impl; [apply scenarioWrites_present|]. by intros ? [? ?]. }
  rewrite (applyWrites_lookup sc _ b' j Hws). subst b'.
  rewrite (applyWrites_lookup sc _ b j Hws).
  by case_decide.
Qed.

Lemma scenarioWrites_keys sc ks b :
  Forall (λ k, is_Some (data sc !! k)) (matchedKeys ks b) →
  (scenarioWrites sc ks b).*1 = matchedKeys ks b.
Proof.
  unfold matchedKeys. induction ks as [|k ks IH]; simpl; [done|].
  rewrite filter_cons. destruct (b !! k) eqn:Hb.
  - rewrite decide_True by eauto. intros Hall.
    inversion Hall as [|? ? [v Hv] Hrest]; subst.
    rewrite Hv, fmap_cons. f_equal. by apply IH.
  - rewrite decide_False; [done|]. by intros [? ?].
Qed.

Lemma cellWrites_app (evs1 evs2 : list (Event Real)) :
  cellWrites (evs1 ++ evs2) = cellWrites evs1 ++ cellWrites evs2.
Proof. unfold cellWrites. apply omap_app. Qed.

Lemma cellWrites_asd (evs : list (Event Real)) :
  Forall isAsdEvent evs → cellWrites evs = [].
Proof.
  induction 1 as [|e evs He _ IH]; [done|].
  unfold cellWrites in *. simpl. destruct e; simpl in *; done.
Qed.

End ScenarioWrites.

(** ** The stages of update *)

Section UpdateStages.
Import SimMarket.
Context {Real : Type} `{!EqDecision Real} {G : Type}.
Variable generator : ScenarioGenerator Real G.
Variable indexFixing : World Real G → string → Date → Result Real.
Variable fxSpotValue : World Real G → string → Result Real.
Implicit Types (w : World Real G) (sc : Scenario Real)
  (b : gmap RiskFactorKey Real) (ks : list RiskFactorKey).

Lemma withBank_id w :
  withBank w (simData_ (market w)) (deferredObservers (globals w)) = w.
Proof. by destruct w as [[] []]. Qed.

Lemma withBank_withBank w b1 l1 b2 l2 :
  withBank (withBank w b1 l1) b2 l2 = withBank w b2 l2.
Proof. by destruct w as [[] []]. Qed.

Lemma setValue_spec k v w :
  wp (setValue k v)
     (λ r w' evs,
        r = Ok tt ∧
        (∃ l', w' = withBank w (<[k:=v]> (simData_ (market w))) l' ∧
               (updatesEnabled (globals w) = true ∨ updatesDeferred (globals w) = false →
                l' = deferredObservers (globals w))) ∧
        cellWrites evs = [(k, v)] ∧
        Forall isMarketEvent evs ∧
        (updatesEnabled (globals w) = false → evs = [EvSetValue k v])) w.
Proof.
  unfold setValue, notifyObservers. repeat wp_step; simpl in *.
  all: split; [done|]; split; [|split; [done|split; [by repeat constructor|]]].
  - exists (deferredObservers (globals w)). split; [|done].
    rewrite insert_id by done. by rewrite withBank_id.
  - done.
  - exists (deferredObservers (globals w)). split; [|done]. by destruct w as [[] []].
  - congruence.
  - eexists. split; [by destruct w as [[] []]|]. intros [?|?]; congruence.
  - done.
  - exists (deferredObservers (globals w)). split; [|done]. by destruct w as [[] []].
  - done.
Qed.

Lemma applyKeys_spec sc ks : ∀ count missingPoint w,
  wp (applyKeys sc ks count missingPoint)
     (λ r w' evs,
        let b := simData_ (market w) in
        (∃ l', w' = withBank w (applyWrites (scenarioWrites sc ks b) b) l' ∧
               (updatesEnabled (globals w) = true ∨ updatesDeferred (globals w) = false →
                l' = deferredObservers (globals w))) ∧
        cellWrites evs = scenarioWrites sc ks b ∧
        Forall isMarketEvent evs ∧
        (updatesEnabled (globals w) = false →
         evs = map (λ kv, EvSetValue kv.1 kv.2) (scenarioWrites sc ks b)) ∧
        match r with
        | Ok (c, m) =>
            Forall (λ k, is_Some (data sc !! k)) (matchedKeys ks b) ∧
            c = count + length (matchedKeys ks b) ∧
            (m = true ↔ missingPoint = true ∨ Exists (λ k, b !! k = Datatypes.None) ks)
        | Err e =>
            e = KeyNotFound ∧
            ¬ Forall (λ k, is_Some (data sc !! k)) (matchedKeys ks b)
        end) w.
Proof.
  induction ks as [|k ks IH]; intros count missingPoint w.
  - simpl. wp_step. simpl. split; [|split; [done|split; [done|split; [done|]]]].
    + exists (deferredObservers (globals w)). by rewrite withBank_id.
    + split; [constructor|]. split; [lia|].
      split; [auto|]. intros [?|Hex]; [done|]. inversion Hex.
  - simpl applyKeys. wp_step. wp_step. cbv beta iota.
    destruct (simData_ (market w) !! k) as [x|] eqn:Hb.
    + wp_step. unfold get.
      destruct (data sc !! k) as [v|] eqn:Hd; simpl liftResult.
      * wp_step. wp_step.
        eapply wp_mono; [apply setValue_spec|].
        intros r w1 evs1 (-> & (l1 & -> & Hl1) & Hw1 & Hm1 & He1). cbv beta iota.
        eapply wp_mono; [apply IH|].
        intros r w2 evs2. cbv zeta.
        set (b := simData_ (market w)).
        assert (simData_ (market (withBank w (<[k:=v]> b) l1)) = <[k:=v]> b) as Hb1
          by (by destruct w as [[] []]).
        assert (globals (withBank w (<[k:=v]> b) l1)
                = mkGlobals (mode (globals w)) (evaluationDate (globals w))
                    (updatesEnabled (globals w)) (updatesDeferred (globals w)) l1) as Hg1
          by (by destruct w as [[] []]).
        rewrite Hb1, Hg1. simpl.
        assert (∀ j, is_Some (<[k:=v]> b !! j) ↔ is_Some (b !! j)) as Hdom.
        { intros j. rewrite lookup_insert. case_decide; subst; [|done].
          split; [|done]. intros _. subst b. rewrite Hb. eauto. }
        rewrite (scenarioWrites_ext sc ks _ _ Hdom).
        rewrite (matchedKeys_ext ks _ _ Hdom).
        assert (matchedKeys (k :: ks) b = k :: matchedKeys ks b) as Hmk.
        { unfold matchedKeys. rewrite filter_cons, decide_True; [done|].
          subst b. rewrite Hb. eauto. }
        subst b. rewrite Hb, Hd, Hmk.
        intros ((l2 & -> & Hl2) & Hw2 & Hm2 & He2 & Hr).
        split; [|split; [|split; [by apply Forall_app|split]]].
        -- exists l2. rewrite withBank_withBank. split; [done|].
           intros Hfl. rewrite Hl2 by done. by apply Hl1.
        -- rewrite cellWrites_app, Hw1, Hw2. done.
        -- intros Hen. rewrite He1, He2 by done. done.
        -- destruct r as [[c m]|e].
           ++ destruct Hr as (Hall & -> & Hm). split; [|split].
              ** constructor; [eauto|done].
              ** simpl. lia.
              ** rewrite Hm, Exists_cons, Hb.
                 assert (Exists (λ j, <[k:=v]> (simData_ (market w)) !! j = Datatypes.None) ks
                         ↔ Exists (λ j, simData_ (market w) !! j = Datatypes.None) ks) as ->.
                 { split; intros Hex; (eapply Exists_impl; [exact Hex|]);
                     intros j; cbv beta; rewrite !eq_None_not_Some, Hdom; done. }
                 intuition discriminate.
           ++ destruct Hr as (-> & Hnall). split; [done|].
              intros Hall. apply Hnall. by inversion Hall.
      * wp_step. cbv zeta. simpl. rewrite Hb, Hd.
        split; [|split; [done|split; [done|split; [done|]]]].
        -- exists (deferredObservers (globals w)). by rewrite withBank_id.
        -- split; [done|]. unfold matchedKeys.
           rewrite filter_cons, decide_True by (rewrite Hb; eauto).
           intros Hall. inversion Hall as [|? ? [? Hk] ?]; subst. congruence.
    + eapply wp_mono; [apply IH|].
      intros r w2 evs2. cbv zeta. simpl. rewrite Hb.
      assert (matchedKeys (k :: ks) (simData_ (market w))
              = matchedKeys ks (simData_ (market w))) as ->.
      { unfold matchedKeys. rewrite filter_cons, decide_False; [done|].
        rewrite Hb. by intros [? ?]. }
      intros (Hw & Hc & Hm' & He & Hr).
      split; [done|]. split; [done|]. split; [done|]. split; [done|].
      destruct r as [[c m]|e]; [|done].
      destruct Hr as (Hall & -> & Hm). split; [done|]. split; [done|].
      rewrite Hm. split; [intros _|auto]. right. by apply Exists_cons_hd.
Qed.


Lemma filter_True_id {A} (l : list A) : filter (λ _, True) l = l.
Proof.
  induction l as [|x l IH]; [done|].
  rewrite filter_cons_True by done. by rewrite IH.
Qed.

Lemma forEach_notify_spec (l : list (Subject)) w :
  wp (forEach (λ s, emit (EvNotifyObservers (Real:=Real) s)) l)
     (λ r w' evs, r = Ok tt ∧ w' = w ∧ evs = map EvNotifyObservers l) w.
Proof.
  induction l as [|s l IH]; simpl.
  - by wp_step.
  - wp_step. wp_step. eapply wp_mono; [apply IH|].
    intros r w' evs (-> & -> & ->). done.
Qed.

Lemma enableUpdates_spec w :
  wp enableUpdates
     (λ r w' evs,
        r = Ok tt ∧
        w' = set_deferredObservers [] (set_updates true false w) ∧
        evs = EvEnableUpdates :: map EvNotifyObservers (deferredObservers (globals w))) w.
Proof.
  unfold enableUpdates. repeat wp_step.
  eapply wp_mono; [apply forEach_notify_spec|].
  intros r w' evs (-> & -> & ->). wp_step. simpl.
  rewrite app_nil_r. done.
Qed.

(** The stage that moves the global evaluation date. *)
Lemma evaluationDate_stage_spec om d w :
  wp (if decide (d ≠ evaluationDate (globals w)) then assignEvaluationDate d
      else match om with
           | ObservationMode.Unregister => notifyObservers EvaluationDateSetting
           | _ => ret tt
           end)
     (λ r w' evs,
        r = Ok tt ∧
        market w' = market w ∧
        mode (globals w') = mode (globals w) ∧
        updatesEnabled (globals w') = updatesEnabled (globals w) ∧
        updatesDeferred (globals w') = updatesDeferred (globals w) ∧
        (updatesEnabled (globals w) = true ∨ updatesDeferred (globals w) = false →
         deferredObservers (globals w') = deferredObservers (globals w)) ∧
        cellWrites evs = [] ∧
        Forall isMarketEvent evs ∧
        (updatesEnabled (globals w) = false → Forall isBatchEvent evs)) w.
Proof.
  unfold assignEvaluationDate, notifyObservers.
  destruct om; repeat wp_step; simpl in *.
  all: repeat split; try done; try (by repeat constructor); try congruence.
  all: intros [?|?]; congruence.
Qed.

(** A loop of the sink stage: it leaves the world as it is and tells the
    sink one value per selected element, in order. *)
Lemma forEach_record_spec {A} (sel : A → Prop) `{!∀ x, Decision (sel x)}
    (f : A → Result Real) (g : Real → A → Event Real)
    (body : A → M (World Real G) (Event Real) unit) (l : list A) w :
  (∀ x v, isAsdEvent (g v x)) →
  (∀ x, wp (body x)
          (λ r w' evs,
             w' = w ∧
             if decide (sel x)
             then match f x with
                  | Ok v => r = Ok tt ∧ evs = [g v x]
                  | Err e => r = Err e ∧ evs = []
                  end
             else r = Ok tt ∧ evs = []) w) →
  wp (forEach body l)
     (λ r w' evs,
        w' = w ∧ Forall isAsdEvent evs ∧
        (r = Ok tt →
         Forall2 (λ x e, ∃ v, f x = Ok v ∧ e = g v x) (filter sel l) evs)) w.
Proof.
  intros Hg Hbody. induction l as [|x l IH]; simpl.
  - wp_step. by repeat split.
  - wp_step. eapply wp_mono; [apply Hbody|].
    intros r w' evs [-> Hx]. rewrite filter_cons.
    destruct (decide (sel x)) as [Hs|Hs].
    + destruct (f x) as [v|e] eqn:Hf; destruct Hx as [-> ->].
      * eapply wp_mono; [apply IH|].
        intros r w' evs (-> & Hasd & Hok). simpl.
        split; [done|]. split; [constructor; auto|].
        intros Hr. constructor; eauto.
      * by repeat split.
    + destruct Hx as [-> ->].
      eapply wp_mono; [apply IH|].
      intros r w' evs (-> & Hasd & Hok). by repeat split.
Qed.

Lemma recordAggregationScenarioData_spec d w :
  wp (recordAggregationScenarioData indexFixing fxSpotValue d)
     (λ r w' evs,
        let p := parameters_ (market w) in
        w' = w ∧ Forall isAsdEvent evs ∧
        (r = Ok tt →
         ∃ idxEvs fxEvs n,
           numeraire_ (market w) = Some n ∧
           evs = idxEvs ++ fxEvs ++ [EvAsdSet n Numeraire EmptyString; EvAsdNext] ∧
           Forall2 (λ i e, ∃ v, indexFixing w i d = Ok v ∧ e = EvAsdSet v IndexFixing i)
                   (additionalScenarioDataIndices p) idxEvs ∧
           Forall2 (λ c e, ∃ v, fxSpotValue w (c +:+ baseCcy p) = Ok v ∧
                                e = EvAsdSet v FXSpotData c)
                   (filter (λ c, c ≠ baseCcy p) (additionalScenarioDataCcys p)) fxEvs)) w.
Proof.
  unfold recordAggregationScenarioData. repeat wp_step.
  eapply wp_mono.
  { apply (forEach_record_spec (λ _, True) (λ i, indexFixing w i d)
             (λ v i, EvAsdSet v IndexFixing i)); [done|].
    intros i. repeat wp_step; simpl; split; try done.
    all: match goal with H : indexFixing _ _ _ = _ |- _ => rewrite H end; done. }
  intros r w' evs1 (-> & Hasd1 & Hok1).
  destruct r as [[]|e]; [|by repeat split].
  specialize (Hok1 eq_refl). rewrite filter_True_id in Hok1.
  wp_step. eapply wp_mono.
  { apply (forEach_record_spec (λ c, c ≠ baseCcy (parameters_ (market w)))
             (λ c, fxSpotValue w (c +:+ baseCcy (parameters_ (market w))))
             (λ v c, EvAsdSet v FXSpotData c)); [done|].
    intros c. repeat wp_step; simpl; split; try done.
    all: try (rewrite decide_True by done;
              match goal with H : fxSpotValue _ _ = _ |- _ => rewrite H end; done). }
  intros r w' evs2 (-> & Hasd2 & Hok2).
  destruct r as [[]|e]; [|simpl; split; [done|split; [by apply Forall_app|done]]].
  specialize (Hok2 eq_refl).
  repeat wp_step; simpl.
  - split; [done|]. split.
    + repeat (apply Forall_app; split); try done. by repeat constructor.
    + intros _. do 3 eexists. split; [done|]. split; [|done]. done.
  - split; [done|]. split; [|done].
    repeat (apply Forall_app; split); try done.
Qed.

Lemma market_withBank w b l :
  market (withBank w b l)
  = mkMarket (parameters_ (market w)) (asof_ (market w)) b (numeraire_ (market w))
             (scenarioGenerator_ (market w)) (asd_ (market w)).
Proof. by destruct w as [[] []]. Qed.

Lemma globals_withBank w b l :
  globals (withBank w b l)
  = mkGlobals (mode (globals w)) (evaluationDate (globals w))
              (updatesEnabled (globals w)) (updatesDeferred (globals w)) l.
Proof. by destruct w as [[] []]. Qed.

Lemma cellWrites_cons (e : Event Real) evs :
  cellWrites (e :: evs)
  = match e with EvSetValue k v => [(k, v)] | _ => [] end ++ cellWrites evs.
Proof. by destruct e. Qed.

Lemma Forall_isBatch_writes (ws : list (RiskFactorKey * Real)) :
  Forall isBatchEvent (map (λ kv, EvSetValue (Real:=Real) kv.1 kv.2) ws).
Proof. induction ws; constructor; done. Qed.

Lemma cellWrites_notify (l : list Subject) :
  cellWrites (map (EvNotifyObservers (Real:=Real)) l) = [].
Proof. induction l; [done|]. by rewrite map_cons, cellWrites_cons. Qed.

Lemma size_applyScenario sc ks b :
  size (applyWrites (scenarioWrites sc ks b) b) = size b.
Proof.
  rewrite <- !size_dom. f_equal. apply set_eq. intros j.
  rewrite !elem_of_dom. apply scenarioWrites_is_Some.
Qed.

Ltac cw_norm :=
  repeat first [rewrite cellWrites_cons | rewrite cellWrites_app
               | rewrite cellWrites_notify];
  simpl.

Ltac leaf_start :=
  unfold updatePost, pulled, everyMatchedKeyHasValue, someKeyWithoutCell;
  cbv zeta; simpl;
  rewrite ?market_withBank;
  match goal with H : market ?w1 = _ |- context [market ?w1] => rewrite H end;
  simpl;
  try match goal with H : asd_ _ = _ |- _ => rewrite H end;
  split; [done|]; split.

Lemma update_spec d w :
  wp (update generator indexFixing fxSpotValue d)
     (updatePost generator indexFixing fxSpotValue d w) w.
Proof.
  unfold update, generatorNext, disableUpdates.
  wp_prim. wp_prim. cbv zeta.
  destruct (mode (globals w)) eqn:Hom; repeat wp_prim.
  all: (eapply wp_mono;
        [first [apply (evaluationDate_stage_spec ObservationMode.None)
               |apply (evaluationDate_stage_spec ObservationMode.Unregister)]|]).
  all: intros r1 w1 evs1 (-> & Hm1 & Hmode1 & Hen1 & Hdef1 & Hpend1 & Hcw1 & Hme1 & Hbe1).
  all: simpl in Hm1, Hmode1, Hen1, Hdef1, Hpend1, Hme1, Hbe1.
  all: repeat wp_prim.
  all: (eapply wp_mono; [apply applyKeys_spec|]).
  all: intros r2 w2 evs2; cbv zeta; rewrite Hm1, Hen1, Hdef1; simpl.
  all: intros ((l2 & -> & Hl2) & Hcw2 & Hme2 & Hbe2 & Hr2).
  all: destruct r2 as [[c m]|e2]; [destruct Hr2 as (Hall & -> & Hmiss)|destruct Hr2 as (-> & Hnall)].
  (* the scenario throws on a key *)
  all: try (unfold updatePost, pulled, everyMatchedKeyHasValue, someKeyWithoutCell;
            cbv zeta; rewrite market_withBank, Hm1; simpl;
            split; [done|]; split;
            [rewrite ?cellWrites_cons, !cellWrites_app, Hcw1, Hcw2; done|];
            split; [done|]; split; [done|]; split; [discriminate|];
            by intros Hall').
  (* the loop returned *)
  all: wp_prim; simpl negb; destruct m; unfold QL_REQUIRE; simpl negb; cbv iota; wp_prim.
  (* a key of the scenario has no cell *)
  all: try (leaf_start;
            [rewrite ?cellWrites_cons, !cellWrites_app, Hcw1, Hcw2; simpl;
             by rewrite ?app_nil_r|];
            split; [by intros Hn; destruct Hn|];
            split; [intros _; split; [done|]; intros Hn; exfalso; apply Hn;
                    destruct Hmiss as [Hmiss _]; by destruct (Hmiss eq_refl)|];
            split; [discriminate|];
            intros _ Hn; exfalso; apply Hn;
            destruct Hmiss as [Hmiss _]; by destruct (Hmiss eq_refl)).
  all: assert (¬ Exists (λ k, simData_ (market w) !! k = Datatypes.None)
                 (keys (next generator d (scenarioGenerator_ (market w))).1)) as Hnomiss
         by (intros Hex; destruct Hmiss as [_ Hmiss];
             assert (false = true) by (apply Hmiss; auto); discriminate).
  all: clear Hmiss.
  all: wp_prim; wp_prim; wp_prim; rewrite market_withBank; simpl.
  all: match goal with |- wp (if decide ?P then _ else _) _ _ => destruct (decide P) as [Hsize|Hsize] end.
  all: rewrite size_applyScenario in Hsize.
  (* the number of matched keys is not the number of cells *)
  all: try (wp_prim; leaf_start;
            [rewrite ?cellWrites_cons, !cellWrites_app, Hcw1, Hcw2; simpl;
             by rewrite ?app_nil_r|];
            split; [by intros Hn; destruct Hn|];
            split; [intros _; split; [by intros Hn|done]|];
            split; [discriminate|];
            by intros _ _ Hlen).
  all: apply dec_stable in Hsize.
  all: repeat wp_prim.
  all: try (eapply wp_mono; [apply enableUpdates_spec|];
            intros r3 w3 evs3 (-> & -> & ->); cbv beta iota; repeat wp_prim).
  all: simpl; rewrite ?market_withBank, ?globals_withBank, Hm1; simpl.
  all: destruct (asd_ (market w)) eqn:Hasd;
    [eapply wp_mono; [apply recordAggregationScenarioData_spec|];
     intros r4 w4 evs4 (-> & Hasd4 & Hok4)
    |wp_prim].
  all: leaf_start;
    [cw_norm; rewrite Hcw1, Hcw2, ?(cellWrites_asd _ Hasd4); simpl;
     by rewrite ?app_nil_r|].
  all: split; [by intros Hn; destruct Hn|].
  all: split; [intros _; split; [by intros ?|]; by intros _ Hne|].
  all: (split; [|first [done|by intros _ _ _ ?]]).
  all: intros Hr; split; [done|]; split; [done|]; split; [done|].
  all: rewrite Hom.
  all: exists (EvGeneratorNext d :: evs1 ++ evs2), l2.
  all: first [exists evs4 | exists []].
  all: split; [simpl; by rewrite <- ?app_assoc|].
  all: split; [constructor; [done|]; by apply Forall_app|].
  all: split;
    [first [by intros [?|?]
           |intros _; constructor; [done|]; apply Forall_app; split;
            [by apply Hbe1|rewrite Hbe2 by done; apply Forall_isBatch_writes]]|].
  all: split;
    [first [by intros ?
           |intros _; rewrite Hl2, Hpend1 by auto; done]|].
  all: split; [first [exact Hasd4|constructor]|].
  all: try done.
  all: destruct (Hok4 Hr) as (idxEvs & fxEvs & n & Hn & -> & Hidx & Hfx).
  all: simpl in Hn, Hidx, Hfx; rewrite ?market_withBank, ?Hm1 in Hn, Hidx, Hfx;
    simpl in Hn, Hidx, Hfx.
  all: injection Hn as <-.
  all: unfold sinkRecorded; cbv zeta; simpl; rewrite ?market_withBank, ?Hm1; simpl.
  all: exists idxEvs, fxEvs; done.
Qed.
End UpdateStages.

(** ** The properties of update *)

Section UpdateProperties.
Import SimMarket.
Context {Real : Type} `{!EqDecision Real} {G : Type}.
Variable generator : ScenarioGenerator Real G.
Variable indexFixing : World Real G → string → Date → Result Real.
Variable fxSpotValue : World Real G → string → Result Real.
Implicit Types (w : World Real G) (sc : Scenario Real)
  (b : gmap RiskFactorKey Real) (ks : list RiskFactorKey).

Abbreviation update' := (update generator indexFixing fxSpotValue).

Lemma update_run d w :
  updatePost generator indexFixing fxSpotValue d w
    (outcome (update' d w)) (final (update' d w)) (emitted (update' d w)).
Proof. apply (update_spec generator indexFixing fxSpotValue d w). Qed.

Lemma someKeyWithoutCell_iff sc b :
  someKeyWithoutCell sc b ↔ ∃ k, k ∈ keys sc ∧ b !! k = Datatypes.None.
Proof. unfold someKeyWithoutCell. by rewrite Exists_exists. Qed.

Lemma everyMatchedKeyHasValue_dec sc b :
  everyMatchedKeyHasValue sc b ∨ ¬ everyMatchedKeyHasValue sc b.
Proof.
  unfold everyMatchedKeyHasValue.
  destruct (decide (Forall (λ k, is_Some (data sc !! k)) (matchedKeys (keys sc) b))); auto.
Qed.

Lemma someKeyWithoutCell_dec sc b :
  someKeyWithoutCell sc b ∨ ¬ someKeyWithoutCell sc b.
Proof.
  unfold someKeyWithoutCell.
  destruct (decide (Exists (λ k, b !! k = Datatypes.None) (keys sc))); auto.
Qed.

Lemma matchedKeys_all ks b :
  ¬ Exists (λ k, b !! k = Datatypes.None) ks → matchedKeys ks b = ks.
Proof.
  unfold matchedKeys. induction ks as [|k ks IH]; intros Hn; [done|].
  rewrite filter_cons. destruct (b !! k) eqn:Hb.
  - rewrite decide_True by eauto. f_equal. apply IH.
    intros Hex. apply Hn. by apply Exists_cons_tl.
  - exfalso. apply Hn. by apply Exists_cons_hd.
Qed.

(** C1: update raises a fatal error when the scenario pulled from the
    generator has a key without a registered quote cell, and when the number
    of scenario keys matched to cells differs from the number of registered
    cells; it returns only when neither is the case.  When the scenario holds
    a value for each of its matched keys the two errors are the missing-data
    error and the size-mismatch error. *)
Theorem update_fatal_on_mismatch d w :
  let r := outcome (update' d w) in
  let sc := (pulled generator d w).1 in
  let b := simData_ (market w) in
  ((∃ k, k ∈ keys sc ∧ b !! k = Datatypes.None) → isErr r = true) ∧
  (length (matchedKeys (keys sc) b) ≠ size b → isErr r = true) ∧
  (r = Ok tt →
     (∀ k, k ∈ keys sc → is_Some (b !! k)) ∧
     length (matchedKeys (keys sc) b) = size b) ∧
  (everyMatchedKeyHasValue sc b →
     ((∃ k, k ∈ keys sc ∧ b !! k = Datatypes.None) → r = Err MissingScenarioData) ∧
     ((∀ k, k ∈ keys sc → is_Some (b !! k)) →
      length (matchedKeys (keys sc) b) ≠ size b → r = Err ScenarioSizeMismatch)).
Proof.
  intros r sc b.
  destruct (update_run d w) as (_ & _ & Hknf & Herr & Hok & _).
  fold r sc b in Hknf, Herr, Hok.
  assert ((∀ k, k ∈ keys sc → is_Some (b !! k)) → ¬ someKeyWithoutCell sc b) as Hall.
  { intros Hk (k & Hin & Hnone)%someKeyWithoutCell_iff.
    destruct (Hk k Hin) as [? ?]. congruence. }
  split; [|split; [|split]].
  - intros Hex%someKeyWithoutCell_iff.
    destruct (everyMatchedKeyHasValue_dec sc b) as [Hv|Hv].
    + destruct (Herr Hv) as [-> _]; done.
    + by rewrite (Hknf Hv).
  - intros Hlen.
    destruct (everyMatchedKeyHasValue_dec sc b) as [Hv|Hv]; [|by rewrite (Hknf Hv)].
    destruct (Herr Hv) as [Hmiss Hsize].
    destruct (someKeyWithoutCell_dec sc b) as [Hs|Hs].
    + by rewrite (Hmiss Hs).
    + by rewrite (Hsize Hs Hlen).
  - intros Hr. destruct (Hok Hr) as (_ & Hs & Hlen & _). split; [|done].
    intros k Hin. destruct (b !! k) eqn:Hb; [eauto|].
    exfalso. apply Hs, someKeyWithoutCell_iff. eauto.
  - intros Hv. destruct (Herr Hv) as [Hmiss Hsize]. split.
    + intros Hex%someKeyWithoutCell_iff. auto.
    + intros Hk Hlen. apply Hsize; [|done]. by apply Hall.
Qed.

Lemma keys_cover_bank ks b :
  NoDup ks → (∀ k, k ∈ ks → is_Some (b !! k)) → length ks = size b →
  ∀ k, is_Some (b !! k) → k ∈ ks.
Proof.
  intros Hnd Hsub Hlen k Hk.
  assert (list_to_set ks = dom b :> gset RiskFactorKey) as Heq.
  { apply set_subseteq_size_eq.
    - intros j Hj. apply elem_of_list_to_set in Hj. apply elem_of_dom. auto.
    - rewrite size_list_to_set by done. rewrite size_dom. lia. }
  apply elem_of_dom in Hk. rewrite <- Heq in Hk. by apply elem_of_list_to_set in Hk.
Qed.

Lemma filter_none {A} (P : A → Prop) `{!∀ x, Decision (P x)} (l : list A) :
  Forall (λ x, ¬ P x) l → filter P l = [].
Proof.
  induction 1 as [|x l Hx _ IH]; [done|]. by rewrite filter_cons_False.
Qed.

Lemma filter_key_unique (ws : list (RiskFactorKey * Real)) k v :
  NoDup ws.*1 → (k, v) ∈ ws → filter (λ kv, kv.1 = k) ws = [(k, v)].
Proof.
  induction ws as [|[k' v'] ws IH]; intros Hnd Hin; [by apply elem_of_nil in Hin|].
  rewrite fmap_cons in Hnd. apply NoDup_cons in Hnd as [Hk' Hnd]. simpl in Hk'.
  rewrite filter_cons. simpl.
  apply elem_of_cons in Hin as [[= <- <-]|Hin].
  - rewrite decide_True by done. f_equal.
    apply filter_none, Forall_forall. intros [k2 v2] Hin2 Heq. simpl in Heq. subst.
    apply Hk'. apply list_elem_of_fmap. by exists (k, v2).
  - rewrite decide_False; [by apply IH|].
    intros ->. apply Hk'. apply list_elem_of_fmap. by exists (k, v).
Qed.

(** C2, amended: when update returns and the key sequence of the scenario
    has no duplicate, every registered quote cell has received exactly one
    value during the call, the value the scenario holds for its key, and
    holds that value afterwards. *)
Theorem update_every_cell_once d w :
  let r := update' d w in
  let sc := (pulled generator d w).1 in
  let b := simData_ (market w) in
  outcome r = Ok tt → NoDup (keys sc) →
  ∀ k, is_Some (b !! k) →
    ∃ v, data sc !! k = Some v ∧
         valuesReceived k (emitted r) = [v] ∧
         simData_ (market (final r)) !! k = Some v.
Proof.
  intros r sc b Hr Hnd k Hk.
  destruct (update_run d w) as (Hmarket & Hcw & _ & _ & Hok & _).
  fold r sc b in Hmarket, Hcw, Hok.
  destruct (Hok Hr) as (Hv & Hs & Hlen & _).
  pose proof (matchedKeys_all _ _ Hs) as Hmk. fold sc b in Hmk.
  unfold everyMatchedKeyHasValue in Hv. fold sc b in Hv.
  pose proof (scenarioWrites_keys sc (keys sc) b Hv) as Hkeys. rewrite Hmk in Hkeys.
  rewrite Hmk in Hlen.
  assert (k ∈ keys sc) as Hin.
  { apply (keys_cover_bank (keys sc) b); try done.
    intros j Hj. destruct (b !! j) eqn:Hb; [eauto|].
    exfalso. apply Hs, Exists_exists. eauto. }
  rewrite <- Hkeys in Hin. apply list_elem_of_fmap in Hin as ([k' v] & Heq & Hin).
  simpl in Heq. subst k'.
  pose proof (scenarioWrites_present sc (keys sc) b) as Hpres.
  rewrite Forall_forall in Hpres. destruct (Hpres _ Hin) as [_ Hd]. simpl in Hd.
  exists v. split; [done|]. split.
  - unfold valuesReceived. rewrite Hcw.
    rewrite (filter_key_unique _ k v); [done| |done]. by rewrite Hkeys.
  - rewrite Hmarket. simpl.
    rewrite (applyWrites_lookup sc).
    + rewrite decide_True; [done|]. apply list_elem_of_fmap. by exists (k, v).
    + eapply Forall_impl; [apply scenarioWrites_present|]. by intros ? [? ?].
Qed.

(** C4: update for a date, reset of the generator, update for the same date
    again: when the generator, reset and asked again, hands out the scenario
    of the first call, the quote bank after the second run is the quote bank
    after the first. *)
Theorem update_reset_update d w :
  let w1 := final (update' d w) in
  let w1' := set_generator (reset generator (scenarioGenerator_ (market w1))) w1 in
  let w2 := final (update' d w1') in
  replaysAfterReset generator d (scenarioGenerator_ (market w)) →
  simData_ (market w2) = simData_ (market w1) ∧
  ∀ k, simData_ (market w2) !! k = simData_ (market w1) !! k.
Proof.
  intros w1 w1' w2 Hreplay.
  assert (simData_ (market w2) = simData_ (market w1)) as Heq; [|by rewrite Heq].
  destruct (update_run d w) as (Hm1 & _). fold w1 in Hm1.
  destruct (update_run d w1') as (Hm2 & _). fold w2 in Hm2.
  rewrite Hm2. unfold pulled.
  assert (market w1' = mkMarket (parameters_ (market w1)) (asof_ (market w1))
            (simData_ (market w1)) (numeraire_ (market w1))
            (reset generator (scenarioGenerator_ (market w1))) (asd_ (market w1))) as Hw1'
    by (subst w1'; by destruct w1 as [[] []]).
  rewrite Hw1'. simpl. rewrite Hm1. simpl. unfold pulled.
  unfold replaysAfterReset in Hreplay. rewrite Hreplay.
  apply applyScenario_idempotent.
Qed.







Lemma notAsd_market (evs : list (Event Real)) :
  Forall isMarketEvent evs → Forall (λ e, ¬ isAsdEvent e) evs.
Proof.
  intros H. eapply Forall_impl; [exact H|].
  intros e Hm Ha. by destruct e.
Qed.

Lemma notAsd_suspend om :
  Forall (λ e, ¬ isAsdEvent e) (suspendEvents (Real:=Real) om).
Proof. destruct om; repeat constructor; by intros ?. Qed.

Lemma notAsd_resume om (pending : list Subject) :
  Forall (λ e, ¬ isAsdEvent e) (resumeEvents (Real:=Real) om pending).
Proof.
  assert (Forall (λ e, ¬ isAsdEvent e) (map (EvNotifyObservers (Real:=Real)) pending)).
  { induction pending; constructor; [by intros ?|done]. }
  destruct om; simpl; repeat constructor; try done; by intros ?.
Qed.

(** C6: when update returns on a market with a sink attached, the trace ends
    with what the sink is told: one index fixing per configured additional
    index, one FX spot per configured additional currency other than the
    base currency, the numeraire of the scenario and then the advance to the
    next slot; nothing was told to the sink before, and every cell write
    precedes. *)
Theorem update_records_sink d w :
  let r := update' d w in
  let sc := (pulled generator d w).1 in
  let p := parameters_ (market w) in
  asd_ (market w) = true → outcome r = Ok tt →
  ∃ pre idxEvs fxEvs,
    emitted r = pre ++ idxEvs ++ fxEvs
                  ++ [EvAsdSet (getNumeraire sc) Numeraire EmptyString; EvAsdNext] ∧
    Forall (λ e, ¬ isAsdEvent e) pre ∧
    cellWrites pre = cellWrites (emitted r) ∧
    Forall2 (λ i e, ∃ v, indexFixing (final r) i d = Ok v ∧ e = EvAsdSet v IndexFixing i)
            (additionalScenarioDataIndices p) idxEvs ∧
    Forall2 (λ c e, ∃ v, fxSpotValue (final r) (c +:+ baseCcy p) = Ok v ∧
                         e = EvAsdSet v FXSpotData c)
            (filter (λ c, c ≠ baseCcy p) (additionalScenarioDataCcys p)) fxEvs.
Proof.
  intros r sc p Hasd Hr.
  destruct (update_run d w) as (Hmarket & _ & _ & _ & Hok & _).
  fold r sc in Hmarket, Hok.
  destruct (Hok Hr) as (_ & _ & _ & batch & pending & asdEvs & Hevs & Hbatch & _ & _ & Hasdevs & Hsink).
  rewrite Hasd in Hsink. destruct Hsink as (idxEvs & fxEvs & -> & Hidx & Hfx).
  rewrite Hmarket in Hidx, Hfx. simpl in Hidx, Hfx. fold p in Hidx, Hfx.
  exists (suspendEvents (mode (globals w)) ++ batch
            ++ resumeEvents (mode (globals w)) pending ++ [EvFixingUpdate d]),
    idxEvs, fxEvs.
  assert (emitted r =
          (suspendEvents (mode (globals w)) ++ batch
             ++ resumeEvents (mode (globals w)) pending ++ [EvFixingUpdate d])
          ++ idxEvs ++ fxEvs
          ++ [EvAsdSet (getNumeraire sc) Numeraire EmptyString; EvAsdNext]) as Hshape.
  { rewrite Hevs. rewrite <- !app_assoc. done. }
  split; [exact Hshape|]. split; [|split; [|done]].
  - repeat (apply Forall_app; split);
      auto using notAsd_suspend, notAsd_resume, notAsd_market.
  - rewrite Hshape. rewrite (cellWrites_app _ (idxEvs ++ _)).
    rewrite (cellWrites_asd (idxEvs ++ _)) by done. by rewrite app_nil_r.
Qed.

End UpdateProperties.

(** ** Construction from a parameter set that declares nothing *)

Section ConstructEmpty.
Import SimMarket.
Context {Real : Type} `{!EqDecision Real} {G : Type}.
Variable advance : Date → Period → Result Date.
Variable addSwapIndex : string → string → Result unit.
Variable initMarket : InitMarket (Real:=Real).
Variable parameters : ScenarioSimMarketParameters Real.

Lemma mapResult_isOk {A B} (f : A → Result B) (l : list A) :
  Forall (λ x, isOk (f x) = true) l → ∃ ys, mapResult f l = Ok ys.
Proof.
  induction 1 as [|x l Hx _ [ys IH]]; simpl; [eauto|].
  destruct (f x); [|discriminate]. rewrite IH. eauto.
Qed.

Lemma buildSimData_without_entities :
  declaresNoEntity parameters →
  (∃ t rest, yieldCurveTenors parameters = t :: rest ∧ positivePeriod t = true) →
  Forall (λ t, isOk (advance (asofDate initMarket) t) = true)
         (yieldCurveTenors parameters ++ equityTenors parameters) →
  wp (buildSimData advance addSwapIndex initMarket parameters)
     (λ r b evs, r = Ok tt ∧ b = ∅) ∅.
Proof.
  intros (Hfx & Hccy & Hyc & Hsec & Hidx & Hswi & Hsv & Hcf & Hdef & Hfxv & Heq & Heqv)
         (t & rest & Hten & Hpos) Hadv.
  apply Forall_app in Hadv as [Hadv1 Hadv2].
  destruct (mapResult_isOk _ _ Hadv1) as [ds1 Hds1].
  destruct (mapResult_isOk _ _ Hadv2) as [ds2 Hds2].
  unfold buildSimData, buildFxSpots, buildYieldCurveTimes, tenorDates, buildDiscountCurves,
    buildYieldCurves, buildSecuritySpreads, buildIndexCurves, buildSwapIndices,
    buildSwaptionVols, buildCapFloorVols, buildDefaultCurves, buildFxVols,
    buildEquitySpots, buildEquityCurveDates, buildEquityDividendCurves, buildEqVols, asof0.
  rewrite Hfx, Hccy, Hyc, Hsec, Hidx, Hswi, Hsv, Hcf, Hdef, Hfxv, Heq, Heqv.
  rewrite Hds1, Hds2, Hten.
  cbn [forEach front length liftResult].
  repeat wp_step.
  all: try congruence; try (simpl in *; lia); done.
Qed.

(** C5, amended: a simulation market built from a parameter set that
    declares nothing to build, whose yield curve tenor grid starts with a
    positive tenor and whose tenors all lead to valid dates, is constructed
    with an empty quote bank, and update on it with a scenario without keys
    returns normally. *)
Theorem construct_without_entities (g : G) :
  declaresNoEntity parameters →
  (∃ t rest, yieldCurveTenors parameters = t :: rest ∧ positivePeriod t = true) →
  Forall (λ t, isOk (advance (asofDate initMarket) t) = true)
         (yieldCurveTenors parameters ++ equityTenors parameters) →
  ∃ m, construct advance addSwapIndex initMarket parameters g = Ok m ∧
       simData_ m = ∅ ∧
       ∀ (generator : ScenarioGenerator Real G) indexFixing fxSpotValue globals d,
         keys (next generator d g).1 = [] →
         outcome (update generator indexFixing fxSpotValue d (mkWorld m globals)) = Ok tt.
Proof.
  intros Hno Hten Hadv.
  pose proof (buildSimData_without_entities Hno Hten Hadv) as [Hbuild Hbank].
  unfold construct. rewrite Hbuild.
  eexists. split; [reflexivity|]. split; [exact Hbank|].
  intros generator indexFixing fxSpotValue globals d Hkeys.
  match goal with |- outcome (update _ _ _ _ ?w) = _ => set (w0 := w) end.
  destruct (update_run generator indexFixing fxSpotValue d w0) as (_ & _ & _ & _ & _ & Hok).
  apply Hok; unfold everyMatchedKeyHasValue, someKeyWithoutCell, pulled; subst w0;
    simpl; rewrite ?Hkeys.
  - constructor.
  - intros Hex. inversion Hex.
  - rewrite Hbank. simpl. by rewrite map_size_empty.
  - reflexivity.
Qed.
End ConstructEmpty.

(** ** The properties at concrete inputs *)

Section Concrete.
Import SimMarket Examples.

Lemma update_fatal_on_mismatch_witness :
  isErr (outcome (update (constantGenerator strayScenario) constantFixing constantFxSpot
                         42001%Z (exampleWorld ObservationMode.None false))) = true.
Proof.
  destruct (update_fatal_on_mismatch (constantGenerator strayScenario) constantFixing
              constantFxSpot 42001%Z (exampleWorld ObservationMode.None false))
    as (Hmissing & _).
  apply Hmissing. exists k3. split; [|vm_compute; reflexivity].
  do 2 apply list_elem_of_further. apply list_elem_of_here.
Defined.

(** C2 as stated fails: a scenario that names one key twice and the other
    not at all passes both checks, and the cell of the other key has
    received no value and keeps its old one. *)
Lemma update_duplicate_keys_counterexample :
  outcome (update (constantGenerator duplicateScenario) constantFixing constantFxSpot
                  42001%Z (exampleWorld ObservationMode.None false)) = Ok tt ∧
  simData_ (market (exampleWorld ObservationMode.None false)) !! k2 = Some 1%Z ∧
  valuesReceived k2
    (emitted (update (constantGenerator duplicateScenario) constantFixing constantFxSpot
                     42001%Z (exampleWorld ObservationMode.None false))) = [] ∧
  valuesReceived k1
    (emitted (update (constantGenerator duplicateScenario) constantFixing constantFxSpot
                     42001%Z (exampleWorld ObservationMode.None false))) = [5%Z; 5%Z] ∧
  simData_ (market (final (update (constantGenerator duplicateScenario) constantFixing
                                  constantFxSpot 42001%Z
                                  (exampleWorld ObservationMode.None false)))) !! k2
    = Some 1%Z.
Proof. vm_compute. repeat split. Qed.

Lemma update_every_cell_once_witness :
  ∃ v, data fullScenario !! k2 = Some v ∧
       valuesReceived k2
         (emitted (update (constantGenerator fullScenario) constantFixing constantFxSpot
                          42001%Z (exampleWorld ObservationMode.None false))) = [v] ∧
       simData_ (market (final (update (constantGenerator fullScenario) constantFixing
                                       constantFxSpot 42001%Z
                                       (exampleWorld ObservationMode.None false)))) !! k2
         = Some v.
Proof.
  apply (update_every_cell_once (constantGenerator fullScenario) constantFixing
           constantFxSpot 42001%Z (exampleWorld ObservationMode.None false)).
  - vm_compute. reflexivity.
  - apply NoDup_cons. split; [|apply NoDup_singleton].
    intros Hin. apply list_elem_of_singleton in Hin. discriminate.
  - exists 1%Z. vm_compute. reflexivity.
Defined.

Lemma update_reset_update_witness :
  let gen := pathGenerator [fullScenario; otherScenario] in
  let w := exampleWorld ObservationMode.Defer false in
  let w1 := final (update gen constantFixing constantFxSpot 42001%Z w) in
  let w1' := set_generator (reset gen (scenarioGenerator_ (market w1))) w1 in
  let w2 := final (update gen constantFixing constantFxSpot 42001%Z w1') in
  simData_ (market w2) = simData_ (market w1) ∧
  ∀ k, simData_ (market w2) !! k = simData_ (market w1) !! k.
Proof.
  apply (update_reset_update (pathGenerator [fullScenario; otherScenario]) constantFixing
           constantFxSpot 42001%Z (exampleWorld ObservationMode.Defer false)).
  vm_compute. reflexivity.
Defined.

(** C5 as stated fails: a parameter set with no currency and no index whose
    yield curve tenor grid starts at zero is refused by the constructor. *)
Lemma construct_zero_tenor_counterexample :
  ccys (emptyParameters [mkPeriod 0 Days]) = [] ∧
  indices (emptyParameters [mkPeriod 0 Days]) = [] ∧
  construct addDays noSwapIndex noMarket (emptyParameters [mkPeriod 0 Days]) 0
    = Err YieldCurveTenorsIncludeZero.
Proof. vm_compute. repeat split. Qed.

Lemma construct_without_entities_witness :
  ∃ m, construct addDays noSwapIndex noMarket (emptyParameters [mkPeriod 1 Years]) 0 = Ok m ∧
       simData_ m = ∅ ∧
       ∀ (generator : ScenarioGenerator Z nat) indexFixing fxSpotValue globals d,
         keys (next generator d 0).1 = [] →
         outcome (update generator indexFixing fxSpotValue d (mkWorld m globals)) = Ok tt.
Proof.
  apply (construct_without_entities addDays noSwapIndex noMarket
           (emptyParameters [mkPeriod 1 Years]) 0).
  - repeat split.
  - exists (mkPeriod 1 Years), []. split; reflexivity.
  - repeat constructor.
Defined.

Lemma update_records_sink_witness :
  let r := update (constantGenerator fullScenario) constantFixing constantFxSpot 42001%Z
                  (exampleWorld ObservationMode.None true) in
  let p := parameters_ (market (exampleWorld ObservationMode.None true)) in
  ∃ pre idxEvs fxEvs,
    emitted r = pre ++ idxEvs ++ fxEvs
                  ++ [EvAsdSet (getNumeraire fullScenario) Numeraire EmptyString; EvAsdNext] ∧
    Forall (λ e, ¬ isAsdEvent e) pre ∧
    cellWrites pre = cellWrites (emitted r) ∧
    Forall2 (λ i e, ∃ v, constantFixing (final r) i 42001%Z = Ok v ∧
                         e = EvAsdSet v IndexFixing i)
            (additionalScenarioDataIndices p) idxEvs ∧
    Forall2 (λ c e, ∃ v, constantFxSpot (final r) (c +:+ baseCcy p) = Ok v ∧
                         e = EvAsdSet v FXSpotData c)
            (filter (λ c, c ≠ baseCcy p) (additionalScenarioDataCcys p)) fxEvs.
Proof.
  apply (update_records_sink (constantGenerator fullScenario) constantFixing constantFxSpot
           42001%Z (exampleWorld ObservationMode.None true)).
  - reflexivity.
  - vm_compute. reflexivity.
Defined.


Lemma run_aggregation_checks_witness :
  let r := OREApp.run exampleEnvironment (exampleApp 5 1) in
  outcome r = Ok 1%Z ∧ ∀ c' d', OREApp.EvRunPostProcessor c' d' ∉ emitted r.
Proof.
  destruct (run_aggregation_checks exampleEnvironment (exampleApp 5 1)) as (_ & _ & Hfail).
  apply (Hfail exampleCube (OREApp.mkASD 2 3)); try reflexivity.
  vm_compute. intros (Hn & _). discriminate.
Defined.

Lemma initCube_depth_witness :
  (outcome (OREApp.initCube (exampleApp 2 1)) = Ok tt ∧
   OREApp.cube_ (final (OREApp.initCube (exampleApp 2 1)))
     = Some (OREApp.mkCube OREApp.SinglePrecisionInMemoryCube ["t1"; "t2"]
                           [42001%Z; 42002%Z] 3 1)) ∧
  (outcome (OREApp.initCube (exampleApp 2 2)) = Ok tt ∧
   OREApp.cube_ (final (OREApp.initCube (exampleApp 2 2)))
     = Some (OREApp.mkCube OREApp.SinglePrecisionInMemoryCubeN ["t1"; "t2"]
                           [42001%Z; 42002%Z] 3 2)) ∧
  (outcome (OREApp.initCube (exampleApp 2 3)) = Err CubeDepthExpected ∧
   final (OREApp.initCube (exampleApp 2 3)) = exampleApp 2 3) ∧
  (outcome (OREApp.initCube (exampleApp 2 0)) = Err CubeDepthExpected ∧
   final (OREApp.initCube (exampleApp 2 0)) = exampleApp 2 0).
Proof.
  split; [|split; [|split]].
  - destruct (initCube_depth (exampleApp 2 1)) as (H & _). apply H. reflexivity.
  - destruct (initCube_depth (exampleApp 2 2)) as (_ & H & _). apply H. reflexivity.
  - destruct (initCube_depth (exampleApp 2 3)) as (_ & _ & H & _).
    apply H; simpl; lia.
  - destruct (initCube_depth (exampleApp 2 0)) as (_ & _ & H & _).
    apply H; simpl; lia.
Defined.

Lemma returnTenors_returnDayCounter_spec_witness :
  Parameters.yieldCurveTenors exampleLookups "EUR" = Ok [mkPeriod 1 Years] ∧
  Parameters.yieldCurveTenors exampleLookups "USD" = Ok [mkPeriod 6 Months] ∧
  Parameters.defaultTenors exampleLookups "CPTY_A" = Err (NoPeriodVectorForKey "CPTY_A") ∧
  Parameters.defaultCurveDayCounter exampleLookups "CPTY_A" = Ok "A360" ∧
  Parameters.defaultCurveDayCounter exampleLookups "CPTY_B"
    = Err (NoDayCounterForKey "CPTY_B") ∧
  Parameters.defaultCurveCalendar exampleLookups "CPTY_B" = Ok "TARGET".
Proof.
  destruct returnTenors_returnDayCounter_spec as (_ & _ & H).
  destruct (H exampleLookups)
    as (Hyct & _ & _ & _ & Hdt & Hdcdc & Hdcc & _).
  split; [|split; [|split; [|split; [|split]]]].
  - destruct (Hyct "EUR") as (Hexact & _). apply Hexact. reflexivity.
  - destruct (Hyct "USD") as (_ & Hdefault & _). apply Hdefault; reflexivity.
  - destruct (Hdt "CPTY_A") as (_ & _ & Hnone & _). apply Hnone; reflexivity.
  - destruct (Hdcdc "CPTY_A") as (Hexact & _). apply Hexact. reflexivity.
  - destruct (Hdcdc "CPTY_B") as (_ & _ & Hnone & _). apply Hnone; reflexivity.
  - destruct (Hdcc "CPTY_B") as (_ & Hdefault & _). apply Hdefault; reflexivity.
Defined.

End Concrete.

(** ** The parameter object *)

Section ParameterObjectProperties.
Import ParameterObject.
Implicit Types (p : ScenarioSimMarketParameters) (kt : KeyType)
  (names : list string).

Lemma addParamsName_loop kt names : ∀ p flag s,
  params_ p !! kt = Some (flag, s) →
  foldl (λ q name,
           if hasParamsName kt name q then q
           else set_params (λ m, <[kt := ((entry m kt).1, (entry m kt).2 ∪ {[name]})]> m) q)
        p names
  = set_params (λ m, <[kt := (flag, s ∪ list_to_set names)]> m) p.
Proof.
  induction names as [|name names IH]; intros p flag s Hp.
  - simpl. destruct p as [b c m mp cd]. unfold set_params. simpl in *.
    f_equal. rewrite union_empty_r_L. by rewrite insert_id.
  - simpl foldl. unfold hasParamsName at 2. rewrite Hp. simpl.
    destruct (bool_decide (name ∈ s)) eqn:Hin.
    + apply bool_decide_eq_true in Hin. rewrite (IH p flag s Hp).
      assert (s ∪ ({[name]} ∪ list_to_set names) = s ∪ list_to_set names) as ->; [|done].
      apply set_eq. intros x. rewrite !elem_of_union, elem_of_singleton.
      intuition congruence.
    + rewrite (IH _ flag (s ∪ {[name]})).
      * unfold set_params, entry. simpl. rewrite Hp. simpl. f_equal.
        rewrite insert_insert_eq. f_equal. f_equal.
        apply set_eq. intros x. rewrite !elem_of_union. tauto.
      * unfold set_params, entry. simpl. rewrite Hp. simpl.
        by rewrite lookup_insert_eq.
Qed.

(** The loop of [addParamsName] in closed form. *)
Lemma addParamsName_closed kt names p :
  addParamsName kt names p =
    if decide (names = []) then p
    else set_params (λ m, <[kt := entryAfterAdd kt names p]> m) p.
Proof.
  unfold addParamsName, entryAfterAdd.
  destruct names as [|n names]; [done|].
  rewrite decide_True by (simpl; lia). rewrite decide_False by done.
  cbv zeta. destruct (params_ p !! kt) as [[flag s]|] eqn:Hp.
  - by rewrite (addParamsName_loop kt _ p flag s Hp).
  - rewrite (addParamsName_loop kt _ _ true ∅).
    + unfold set_params. simpl. f_equal. by rewrite insert_insert_eq.
    + unfold set_params, entry. simpl. rewrite Hp. simpl. by rewrite lookup_insert_eq.
Qed.

Lemma params_addParamsName kt names p :
  params_ (addParamsName kt names p) =
    if decide (names = []) then params_ p
    else <[kt := entryAfterAdd kt names p]> (params_ p).
Proof. rewrite addParamsName_closed. by case_decide. Qed.

Lemma hasParamsName_addParamsName kt names p kt' n :
  hasParamsName kt' n (addParamsName kt names p) =
    hasParamsName kt' n p || (bool_decide (kt' = kt) && bool_decide (n ∈ names)).
Proof.
  unfold hasParamsName. rewrite params_addParamsName.
  destruct (decide (names = [])) as [->|Hne].
  - rewrite (bool_decide_eq_false_2 (n ∈ [])) by apply not_elem_of_nil.
    rewrite andb_false_r, orb_false_r. done.
  - destruct (decide (kt' = kt)) as [->|Hkt].
    + rewrite lookup_insert_eq, (bool_decide_eq_true_2 (kt = kt)) by done.
      unfold entryAfterAdd. cbv zeta. simpl.
      destruct (params_ p !! kt) as [[flag s]|]; simpl.
      * apply eq_true_iff_eq.
        rewrite orb_true_iff, !bool_decide_eq_true, elem_of_union, elem_of_list_to_set.
        done.
      * apply eq_true_iff_eq.
        rewrite !bool_decide_eq_true, elem_of_union, elem_of_list_to_set.
        rewrite elem_of_empty. tauto.
    + rewrite lookup_insert_ne by done.
      rewrite (bool_decide_eq_false_2 (kt' = kt)) by done.
      by rewrite orb_false_r.
Qed.

Lemma paramsSimulate_addParamsName kt names p kt' :
  paramsSimulate kt' (addParamsName kt names p) =
    if bool_decide (kt' = kt ∧ names ≠ [] ∧ params_ p !! kt = None) then true
    else paramsSimulate kt' p.
Proof.
  unfold paramsSimulate. rewrite params_addParamsName.
  destruct (decide (names = [])) as [->|Hne].
  - rewrite bool_decide_eq_false_2; [done|]. by intros (_ & ? & _).
  - destruct (decide (kt' = kt)) as [->|Hkt].
    + rewrite lookup_insert_eq. unfold entryAfterAdd. cbv zeta. simpl.
      destruct (params_ p !! kt) as [[flag s]|] eqn:Hp; simpl.
      * rewrite bool_decide_eq_false_2; [done|]. by intros (_ & _ & ?).
      * by rewrite bool_decide_eq_true_2.
    + rewrite lookup_insert_ne by done.
      rewrite bool_decide_eq_false_2; [done|]. by intros (? & _).
Qed.

(** X1: after addParamsName a name is registered under a category if and
    only if it was registered before or the category is the one added to and
    the name is among the names added; the simulate flag of a category
    changes only for a category that had no entry and is given at least one
    name, which starts simulated; with no name nothing changes. *)
Theorem addParamsName_spec kt names p :
  (∀ kt' n,
     hasParamsName kt' n (addParamsName kt names p) =
       hasParamsName kt' n p || (bool_decide (kt' = kt) && bool_decide (n ∈ names))) ∧
  (∀ kt',
     paramsSimulate kt' (addParamsName kt names p) =
       if bool_decide (kt' = kt ∧ names ≠ [] ∧ params_ p !! kt = None) then true
       else paramsSimulate kt' p) ∧
  addParamsName kt [] p = p.
Proof.
  split; [intros kt' n; apply hasParamsName_addParamsName|].
  split; [intros kt'; apply paramsSimulate_addParamsName|].
  done.
Qed.

Lemma inOrder_spec (s : gset string) :
  StronglySorted String.le (inOrder s) ∧ NoDup (inOrder s) ∧
  ∀ n, n ∈ inOrder s ↔ n ∈ s.
Proof.
  unfold inOrder. split; [|split].
  - apply StronglySorted_merge_sort; apply _.
  - rewrite merge_sort_Permutation. apply NoDup_elements.
  - intros n. rewrite merge_sort_Permutation. apply elem_of_elements.
Qed.

Lemma paramsLookup_hasParamsName kt p n :
  n ∈ paramsLookup kt p ↔ hasParamsName kt n p = true.
Proof.
  unfold paramsLookup, hasParamsName.
  destruct (params_ p !! kt) as [[flag s]|]; simpl.
  - rewrite bool_decide_eq_true. apply inOrder_spec.
  - split; [by intros ?%elem_of_nil|discriminate].
Qed.

(** X2: paramsLookup hands out the names of a category in ascending order
    and without repetition, whatever the order and the repetitions of the
    names given to addParamsName; a name is in the list if and only if
    hasParamsName finds it. *)
Theorem paramsLookup_addParamsName kt names p :
  let l := paramsLookup kt (addParamsName kt names p) in
  StronglySorted String.le l ∧ NoDup l ∧
  (∀ n, n ∈ l ↔ n ∈ paramsLookup kt p ∨ n ∈ names) ∧
  (∀ n, n ∈ l ↔ hasParamsName kt n (addParamsName kt names p) = true).
Proof.
  intros l. subst l. split; [|split; [|split]].
  - unfold paramsLookup. destruct (params_ _ !! kt) as [[flag s]|]; simpl.
    + apply inOrder_spec.
    + constructor.
  - unfold paramsLookup. destruct (params_ _ !! kt) as [[flag s]|]; simpl.
    + apply inOrder_spec.
    + constructor.
  - intros n. rewrite !paramsLookup_hasParamsName, hasParamsName_addParamsName.
    rewrite orb_true_iff, andb_true_iff, !bool_decide_eq_true. tauto.
  - intros n. apply paramsLookup_hasParamsName.
Qed.

Lemma set_params_set_params f g p :
  set_params f (set_params g p) = set_params (λ m, f (g m)) p.
Proof. done. Qed.

Lemma entryAfterAdd_insert_ne kt kt' names it p :
  kt ≠ kt' →
  entryAfterAdd kt names (set_params (λ m, <[kt' := it]> m) p) = entryAfterAdd kt names p.
Proof.
  intros Hne. unfold entryAfterAdd, set_params. simpl.
  by rewrite lookup_insert_ne.
Qed.

Lemma entryAfterAdd_insert_eq kt names it p :
  entryAfterAdd kt names (set_params (λ m, <[kt := it]> m) p)
  = (it.1, it.2 ∪ list_to_set names).
Proof.
  unfold entryAfterAdd, set_params. simpl. by rewrite lookup_insert_eq.
Qed.

(** X3: two calls of addParamsName give the same parameter object in either
    order, for the same category or for two, and a call repeated changes
    nothing. *)
Theorem addParamsName_order kt1 names1 kt2 names2 p :
  addParamsName kt1 names1 (addParamsName kt2 names2 p)
  = addParamsName kt2 names2 (addParamsName kt1 names1 p) ∧
  addParamsName kt1 names1 (addParamsName kt1 names1 p) = addParamsName kt1 names1 p.
Proof.
  split.
  - rewrite !addParamsName_closed.
    destruct (decide (names1 = [])) as [H1|H1], (decide (names2 = [])) as [H2|H2];
      try done.
    rewrite !set_params_set_params.
    destruct (decide (kt1 = kt2)) as [<-|Hne].
    + rewrite !entryAfterAdd_insert_eq. unfold set_params. f_equal.
      rewrite !insert_insert_eq. f_equal. unfold entryAfterAdd. simpl. f_equal.
      apply set_eq. intros x. rewrite !elem_of_union. tauto.
    + rewrite !entryAfterAdd_insert_ne by done. unfold set_params. f_equal.
      by rewrite insert_insert_ne.
  - rewrite !addParamsName_closed.
    destruct (decide (names1 = [])) as [H1|H1]; [done|].
    rewrite set_params_set_params, entryAfterAdd_insert_eq.
    unfold set_params. f_equal. rewrite insert_insert_eq. f_equal.
    unfold entryAfterAdd. simpl. f_equal.
    apply set_eq. intros x. rewrite !elem_of_union. tauto.
Qed.

Lemma paramsSimulate_setParamsSimulate kt' kt b p :
  paramsSimulate kt' (setParamsSimulate kt b p) =
    if decide (kt' = kt) then b else paramsSimulate kt' p.
Proof.
  unfold paramsSimulate, setParamsSimulate, set_params. simpl.
  rewrite lookup_insert. repeat case_decide; simpl; congruence.
Qed.

Lemma hasParamsName_setParamsSimulate kt' n kt b p :
  hasParamsName kt' n (setParamsSimulate kt b p) = hasParamsName kt' n p.
Proof.
  unfold hasParamsName, setParamsSimulate, set_params, entry. simpl.
  rewrite lookup_insert. case_decide as Hkt; [|done]. subst kt'.
  destruct (params_ p !! kt) as [[flag s]|]; simpl; [done|].
  apply bool_decide_eq_false_2, not_elem_of_empty.
Qed.

Lemma paramsSimulate_frame kt f g p :
  paramsSimulate kt (set_correlationDayCounters f (set_maps g p)) = paramsSimulate kt p.
Proof. done. Qed.

Lemma hasParamsName_frame kt n f g p :
  hasParamsName kt n (set_correlationDayCounters f (set_maps g p)) = hasParamsName kt n p.
Proof. done. Qed.

Lemma paramsSimulate_setDefaults kt p :
  paramsSimulate kt (setDefaults p) =
    if bool_decide (kt ∈ defaultedCategories) then bool_decide (kt = FXSpot)
    else paramsSimulate kt p.
Proof.
  unfold setDefaults. cbv zeta. rewrite paramsSimulate_frame.
  unfold setSimulateDividendYield, setSimulateSwapVols, setSimulateYieldVols,
    setSimulateCapFloorVols, setSimulateYoYInflationCapFloorVols,
    setSimulateSurvivalProbabilities, setSimulateRecoveryRates, setSimulateCdsVols,
    setSimulateFXVols, setSimulateEquityVols, setSimulateBaseCorrelations,
    setCommodityCurveSimulate, setCommodityVolSimulate, setSecuritySpreadsSimulate,
    setSimulateFxSpots, setSimulateCorrelations.
  rewrite !paramsSimulate_setParamsSimulate.
  destruct (decide (kt ∈ defaultedCategories)) as [Hin|Hnin].
  - rewrite (bool_decide_eq_true_2 _ Hin). unfold defaultedCategories in Hin.
    repeat (apply elem_of_cons in Hin as [->|Hin]; [reflexivity|]).
    by apply elem_of_nil in Hin.
  - rewrite (bool_decide_eq_false_2 _ Hnin). unfold defaultedCategories in Hnin.
    repeat (rewrite decide_False;
            [|intros ->; apply Hnin;
              repeat first [apply list_elem_of_here | apply list_elem_of_further]]).
    done.
Qed.

Lemma hasParamsName_setDefaults kt n p :
  hasParamsName kt n (setDefaults p) = hasParamsName kt n p.
Proof.
  unfold setDefaults. cbv zeta. rewrite hasParamsName_frame.
  unfold setSimulateDividendYield, setSimulateSwapVols, setSimulateYieldVols,
    setSimulateCapFloorVols, setSimulateYoYInflationCapFloorVols,
    setSimulateSurvivalProbabilities, setSimulateRecoveryRates, setSimulateCdsVols,
    setSimulateFXVols, setSimulateEquityVols, setSimulateBaseCorrelations,
    setCommodityCurveSimulate, setCommodityVolSimulate, setSecuritySpreadsSimulate,
    setSimulateFxSpots, setSimulateCorrelations.
  by rewrite !hasParamsName_setParamsSimulate.
Qed.

Lemma params_setParamsSimulate_ne kt' kt b p :
  kt' ≠ kt → params_ (setParamsSimulate kt b p) !! kt' = params_ p !! kt'.
Proof.
  intros Hne. unfold setParamsSimulate, set_params. simpl.
  by rewrite lookup_insert_ne.
Qed.

Lemma params_setParamsSimulate_is_Some kt' kt b p :
  is_Some (params_ (setParamsSimulate kt b p) !! kt') ↔
  kt' = kt ∨ is_Some (params_ p !! kt').
Proof.
  unfold setParamsSimulate, set_params. simpl.
  rewrite lookup_insert. case_decide; subst; split; eauto.
  intros [?|?]; [congruence|done].
Qed.

Lemma params_frame f g p :
  params_ (set_correlationDayCounters f (set_maps g p)) = params_ p.
Proof. done. Qed.

Ltac unfold_flag_setters :=
  unfold setSimulateDividendYield, setSimulateSwapVols, setSimulateYieldVols,
    setSimulateCapFloorVols, setSimulateYoYInflationCapFloorVols,
    setSimulateSurvivalProbabilities, setSimulateRecoveryRates, setSimulateCdsVols,
    setSimulateFXVols, setSimulateEquityVols, setSimulateBaseCorrelations,
    setCommodityCurveSimulate, setCommodityVolSimulate, setSecuritySpreadsSimulate,
    setSimulateFxSpots, setSimulateCorrelations.

Lemma params_setDefaults_defaulted kt p :
  kt ∈ defaultedCategories → is_Some (params_ (setDefaults p) !! kt).
Proof.
  intros Hin. unfold setDefaults. cbv zeta. rewrite params_frame.
  unfold_flag_setters. rewrite !params_setParamsSimulate_is_Some.
  unfold defaultedCategories in Hin.
  repeat (apply elem_of_cons in Hin as [->|Hin]; [tauto|]).
  by apply elem_of_nil in Hin.
Qed.

Lemma params_setDefaults_other kt p :
  kt ∉ defaultedCategories → params_ (setDefaults p) !! kt = params_ p !! kt.
Proof.
  intros Hnin. unfold setDefaults. cbv zeta. rewrite params_frame.
  unfold_flag_setters. unfold defaultedCategories in Hnin.
  rewrite !params_setParamsSimulate_ne; [done|..];
    intros ->; apply Hnin;
    repeat first [apply list_elem_of_here | apply list_elem_of_further].
Qed.

(** X4: setDefaults switches simulation off for the categories it lists and
    on for FX spots, leaves the flag of every other category and all names
    as they are; names added afterwards leave the flag of a listed category
    as setDefaults set it, while a category that is not listed and has no
    entry becomes simulated with its first name. *)
Theorem setDefaults_simulate kt p :
  paramsSimulate kt (setDefaults p) =
    (if bool_decide (kt ∈ defaultedCategories) then bool_decide (kt = FXSpot)
     else paramsSimulate kt p) ∧
  (∀ n, hasParamsName kt n (setDefaults p) = hasParamsName kt n p) ∧
  (∀ names,
     paramsSimulate kt (addParamsName kt names (setDefaults p)) =
       if bool_decide (kt ∈ defaultedCategories) then bool_decide (kt = FXSpot)
       else if bool_decide (names ≠ [] ∧ params_ p !! kt = None) then true
       else paramsSimulate kt p).
Proof.
  split; [apply paramsSimulate_setDefaults|].
  split; [intros n; apply hasParamsName_setDefaults|].
  intros names. rewrite paramsSimulate_addParamsName, paramsSimulate_setDefaults.
  destruct (bool_decide (kt ∈ defaultedCategories)) eqn:Hd.
  - apply bool_decide_eq_true in Hd.
    rewrite bool_decide_eq_false_2; [done|].
    intros (_ & _ & Hnone).
    destruct (params_setDefaults_defaulted kt p Hd) as [it Hit]. congruence.
  - apply bool_decide_eq_false in Hd.
    rewrite (params_setDefaults_other kt p Hd).
    destruct (decide (names ≠ [] ∧ params_ p !! kt = None)) as [Hc|Hc].
    + rewrite !bool_decide_eq_true_2; [done|done|]. tauto.
    + rewrite !bool_decide_eq_false_2; [done|done|]. tauto.
Qed.

Lemma maps_setParamsSimulate kt b p : maps_ (setParamsSimulate kt b p) = maps_ p.
Proof. done. Qed.

Lemma maps_addParamsName kt names p : maps_ (addParamsName kt names p) = maps_ p.
Proof. rewrite addParamsName_closed. by case_decide. Qed.

Lemma maps_setDefaults p : maps_ (setDefaults p) = defaultMaps (maps_ p).
Proof.
  unfold setDefaults. cbv zeta. unfold_flag_setters.
  unfold set_correlationDayCounters, set_maps. simpl.
  by rewrite ?maps_setParamsSimulate.
Qed.

Lemma correlationDayCounters_setParamsSimulate kt b p :
  correlationDayCounters_ (setParamsSimulate kt b p) = correlationDayCounters_ p.
Proof. done. Qed.

Lemma correlationDayCounters_setDefaults p :
  correlationDayCounters_ (setDefaults p)
  = <[(EmptyString, EmptyString) := "A365"]> (correlationDayCounters_ p).
Proof.
  unfold setDefaults. cbv zeta. unfold_flag_setters.
  unfold set_correlationDayCounters, set_maps. simpl.
  by rewrite ?correlationDayCounters_setParamsSimulate.
Qed.

Lemma returnDayCounter_insert_default (m : gmap string string) d k :
  Parameters.returnDayCounter (<[EmptyString := d]> m) k =
    Ok (if decide (k = EmptyString) then d else default d (m !! k)).
Proof.
  unfold Parameters.returnDayCounter. rewrite lookup_insert.
  destruct (decide (EmptyString = k)) as [<-|Hne].
  - by rewrite decide_True.
  - rewrite decide_False by done. rewrite lookup_insert_eq.
    by destruct (m !! k).
Qed.

Lemma returnTenors_insert_default (m : gmap string (list Period)) d k :
  Parameters.returnTenors (<[EmptyString := d]> m) k =
    Ok (if decide (k = EmptyString) then d else default d (m !! k)).
Proof.
  unfold Parameters.returnTenors. rewrite lookup_insert.
  destruct (decide (EmptyString = k)) as [<-|Hne].
  - by rewrite decide_True.
  - rewrite decide_False by done. rewrite lookup_insert_eq.
    by destruct (m !! k).
Qed.

(** X5: after setDefaults no day counter, calendar or tenor lookup other than
    yieldCurveTenors and commodityVolExpiries can fail: a qualifier without
    entry of its own reads A365, TARGET or the empty tenor vector, a
    qualifier with an entry still reads its entry; the correlation day
    counter is found for every pair of indices; yieldCurveTenors and
    commodityVolExpiries answer as before. *)
Theorem setDefaults_lookups p key index1 index2 :
  let m := maps_ (setDefaults p) in
  let m0 := maps_ p in
  let dayCounter (f : Parameters.ScenarioSimMarketParameters → gmap string string) :=
    Ok (if decide (key = EmptyString) then "A365" else default "A365" (f m0 !! key)) in
  let tenors (f : Parameters.ScenarioSimMarketParameters → gmap string (list Period)) :=
    Ok (if decide (key = EmptyString) then [] else default [] (f m0 !! key)) in
  (Parameters.yieldCurveDayCounter m key = dayCounter Parameters.yieldCurveDayCounters_ ∧
   Parameters.swapVolDayCounter m key = dayCounter Parameters.swapVolDayCounters_ ∧
   Parameters.yieldVolDayCounter m key = dayCounter Parameters.yieldVolDayCounters_ ∧
   Parameters.fxVolDayCounter m key = dayCounter Parameters.fxVolDayCounters_ ∧
   Parameters.cdsVolDayCounter m key = dayCounter Parameters.cdsVolDayCounters_ ∧
   Parameters.equityVolDayCounter m key = dayCounter Parameters.equityVolDayCounters_ ∧
   Parameters.capFloorVolDayCounter m key = dayCounter Parameters.capFloorVolDayCounters_ ∧
   Parameters.yoyInflationCapFloorVolDayCounter m key
     = dayCounter Parameters.yoyInflationCapFloorVolDayCounters_ ∧
   Parameters.defaultCurveDayCounter m key = dayCounter Parameters.defaultCurveDayCounters_ ∧
   Parameters.baseCorrelationDayCounter m key
     = dayCounter Parameters.baseCorrelationDayCounters_ ∧
   Parameters.zeroInflationDayCounter m key = dayCounter Parameters.zeroInflationDayCounters_ ∧
   Parameters.yoyInflationDayCounter m key = dayCounter Parameters.yoyInflationDayCounters_ ∧
   Parameters.commodityCurveDayCounter m key
     = dayCounter Parameters.commodityCurveDayCounters_ ∧
   Parameters.commodityVolDayCounter m key = dayCounter Parameters.commodityVolDayCounters_) ∧
  Parameters.defaultCurveCalendar m key =
    Ok (if decide (key = EmptyString) then "TARGET"
        else default "TARGET" (Parameters.defaultCurveCalendars_ m0 !! key)) ∧
  (Parameters.capFloorVolExpiries m key = tenors Parameters.capFloorVolExpiries_ ∧
   Parameters.yoyInflationCapFloorVolExpiries m key
     = tenors Parameters.yoyInflationCapFloorVolExpiries_ ∧
   Parameters.defaultTenors m key = tenors Parameters.defaultTenors_ ∧
   Parameters.equityDividendTenors m key = tenors Parameters.equityDividendTenors_ ∧
   Parameters.zeroInflationTenors m key = tenors Parameters.zeroInflationTenors_ ∧
   Parameters.yoyInflationTenors m key = tenors Parameters.yoyInflationTenors_ ∧
   Parameters.commodityCurveTenors m key = tenors Parameters.commodityCurveTenors_) ∧
  isOk (correlationDayCounter index1 index2 (setDefaults p)) = true ∧
  Parameters.yieldCurveTenors m key = Parameters.yieldCurveTenors m0 key ∧
  Parameters.commodityVolExpiries m key = Parameters.commodityVolExpiries m0 key.
Proof.
  intros m m0 dayCounter tenors. subst m m0 dayCounter tenors.
  rewrite maps_setDefaults.
  split; [repeat split; apply returnDayCounter_insert_default|].
  split; [apply returnDayCounter_insert_default|].
  split; [repeat split; apply returnTenors_insert_default|].
  split; [|done].
  unfold correlationDayCounter. rewrite correlationDayCounters_setDefaults.
  rewrite lookup_insert_eq.
  by destruct (<[_:=_]> _ !! (index1, index2)).
Qed.

Lemma paramsLookup_sorted kt p :
  StronglySorted String.le (paramsLookup kt p) ∧ NoDup (paramsLookup kt p).
Proof.
  unfold paramsLookup. destruct (params_ p !! kt) as [[flag s]|]; simpl.
  - split; apply inOrder_spec.
  - split; constructor.
Qed.

(** Two categories with the same names answer [paramsLookup] alike. *)
Lemma paramsLookup_ext kt1 p1 kt2 p2 :
  (∀ n, hasParamsName kt1 n p1 = hasParamsName kt2 n p2) →
  paramsLookup kt1 p1 = paramsLookup kt2 p2.
Proof.
  intros Hext.
  destruct (paramsLookup_sorted kt1 p1) as [Hs1 Hn1].
  destruct (paramsLookup_sorted kt2 p2) as [Hs2 Hn2].
  apply (Sorted_unique String.le).
  - by apply StronglySorted_Sorted.
  - by apply StronglySorted_Sorted.
  - apply NoDup_Permutation; [done|done|].
    intros n. by rewrite !paramsLookup_hasParamsName, Hext.
Qed.

Lemma hasParamsName_fresh kt n p : params_ p = ∅ → hasParamsName kt n p = false.
Proof. intros Hp. unfold hasParamsName. by rewrite Hp, lookup_empty. Qed.

(** X6: on a parameter object without names, after setDefaults, the setters
    that register names under two categories leave the two with the same
    names but not the same flag: setEquityNames makes equity spots simulated
    and dividend yields not, setCommodityNames makes commodity spots
    simulated and commodity curves not, setDefaultNames leaves survival
    probabilities and recovery rates both not simulated. *)
Theorem composite_name_setters names p :
  names ≠ [] → params_ p = ∅ →
  let e := setEquityNames names (setDefaults p) in
  let d := setDefaultNames names (setDefaults p) in
  let c := setCommodityNames names (setDefaults p) in
  (paramsSimulate EquitySpot e = true ∧ paramsSimulate DividendYield e = false ∧
   paramsLookup EquitySpot e = paramsLookup DividendYield e) ∧
  (paramsSimulate SurvivalProbability d = false ∧ paramsSimulate RecoveryRate d = false ∧
   paramsLookup SurvivalProbability d = paramsLookup RecoveryRate d) ∧
  (paramsSimulate CommoditySpot c = true ∧ paramsSimulate CommodityCurve c = false ∧
   commodityNames c = paramsLookup CommodityCurve c) ∧
  (∀ n, n ∈ commodityNames c ↔ n ∈ names).
Proof.
  intros Hne Hp e d c. subst e d c.
  unfold setEquityNames, setDefaultNames, setCommodityNames, commodityNames,
    setEquityDividendCurves, setRecoveryRates, setCommodityCurves.
  assert (∀ kt, kt ∉ defaultedCategories → params_ (setDefaults p) !! kt = None) as Hfresh.
  { intros kt Hkt. by rewrite params_setDefaults_other, Hp, lookup_empty. }
  assert (∀ kt1 kt2 n,
            hasParamsName kt1 n (addParamsName kt2 names (addParamsName kt1 names (setDefaults p)))
            = bool_decide (n ∈ names)) as Hnames1.
  { intros kt1 kt2 n. rewrite !hasParamsName_addParamsName, hasParamsName_setDefaults.
    rewrite (hasParamsName_fresh _ _ _ Hp).
    rewrite (bool_decide_eq_true_2 (kt1 = kt1)) by done. simpl.
    destruct (bool_decide (n ∈ names)); [done|]. by rewrite andb_false_r. }
  assert (∀ kt1 kt2 n,
            hasParamsName kt2 n (addParamsName kt2 names (addParamsName kt1 names (setDefaults p)))
            = bool_decide (n ∈ names)) as Hnames2.
  { intros kt1 kt2 n. rewrite !hasParamsName_addParamsName, hasParamsName_setDefaults.
    rewrite (hasParamsName_fresh _ _ _ Hp).
    rewrite (bool_decide_eq_true_2 (kt2 = kt2)) by done. simpl.
    destruct (bool_decide (n ∈ names)); [by rewrite orb_true_r|by rewrite andb_false_r]. }
  assert (∀ kt1 kt2, paramsLookup kt1 (addParamsName kt2 names (addParamsName kt1 names (setDefaults p)))
                     = paramsLookup kt2 (addParamsName kt2 names (addParamsName kt1 names (setDefaults p))))
    as Hlookup.
  { intros kt1 kt2. apply paramsLookup_ext. intros n. by rewrite Hnames1, Hnames2. }
  repeat split; try apply Hlookup.
  all: try (rewrite !paramsSimulate_addParamsName, paramsSimulate_setDefaults).
  - rewrite (bool_decide_eq_false_2 (EquitySpot = DividendYield ∧ _)) by (by intros [? _]).
    rewrite bool_decide_eq_true_2; [done|].
    split; [done|]. split; [done|]. apply Hfresh.
    unfold defaultedCategories. intros Hin.
    repeat (apply elem_of_cons in Hin as [?|Hin]; [discriminate|]). by apply elem_of_nil in Hin.
  - rewrite bool_decide_eq_false_2.
    + rewrite bool_decide_eq_false_2 by (by intros [? _]).
      rewrite bool_decide_eq_true_2; [done|].
      unfold defaultedCategories. repeat first [apply list_elem_of_here | apply list_elem_of_further].
    + intros (_ & _ & Hnone). rewrite params_addParamsName, decide_False in Hnone by done.
      rewrite lookup_insert_ne in Hnone by done.
      destruct (params_setDefaults_defaulted DividendYield p) as [it Hit]; [|congruence].
      unfold defaultedCategories. repeat first [apply list_elem_of_here | apply list_elem_of_further].
  - rewrite (bool_decide_eq_false_2 (SurvivalProbability = RecoveryRate ∧ _)) by (by intros [? _]).
    rewrite bool_decide_eq_false_2.
    + rewrite bool_decide_eq_true_2; [done|].
      unfold defaultedCategories. repeat first [apply list_elem_of_here | apply list_elem_of_further].
    + intros (_ & _ & Hnone).
      destruct (params_setDefaults_defaulted SurvivalProbability p) as [it Hit]; [|congruence].
      unfold defaultedCategories. repeat first [apply list_elem_of_here | apply list_elem_of_further].
  - rewrite bool_decide_eq_false_2.
    + rewrite bool_decide_eq_false_2 by (by intros [? _]).
      rewrite bool_decide_eq_true_2; [done|].
      unfold defaultedCategories. repeat first [apply list_elem_of_here | apply list_elem_of_further].
    + intros (_ & _ & Hnone). rewrite params_addParamsName, decide_False in Hnone by done.
      rewrite lookup_insert_ne in Hnone by done.
      destruct (params_setDefaults_defaulted RecoveryRate p) as [it Hit]; [|congruence].
      unfold defaultedCategories. repeat first [apply list_elem_of_here | apply list_elem_of_further].
  - rewrite (bool_decide_eq_false_2 (CommoditySpot = CommodityCurve ∧ _)) by (by intros [? _]).
    rewrite bool_decide_eq_true_2; [done|].
    split; [done|]. split; [done|]. apply Hfresh.
    unfold defaultedCategories. intros Hin.
    repeat (apply elem_of_cons in Hin as [?|Hin]; [discriminate|]). by apply elem_of_nil in Hin.
  - rewrite bool_decide_eq_false_2.
    + rewrite bool_decide_eq_false_2 by (by intros [? _]).
      rewrite bool_decide_eq_true_2; [done|].
      unfold defaultedCategories. repeat first [apply list_elem_of_here | apply list_elem_of_further].
    + intros (_ & _ & Hnone). rewrite params_addParamsName, decide_False in Hnone by done.
      rewrite lookup_insert_ne in Hnone by done.
      destruct (params_setDefaults_defaulted CommodityCurve p) as [it Hit]; [|congruence].
      unfold defaultedCategories. repeat first [apply list_elem_of_here | apply list_elem_of_further].
  - rewrite paramsLookup_hasParamsName, Hnames1. apply bool_decide_eq_true.
  - rewrite paramsLookup_hasParamsName, Hnames1. apply bool_decide_eq_true.
Qed.

(** X7: a setter of a per-qualifier map followed by the accessor: the
    qualifier set reads the value set; another qualifier reads its own entry
    if it has one, else the value set if the qualifier set is the empty
    default, else what it read before; the setter of the tenors does not
    change the day counters, nor the other way round. *)
Theorem setYieldCurveTenors_lookup key v d p key' :
  Parameters.yieldCurveTenors (maps_ (setYieldCurveTenors key v p)) key' =
    (if decide (key' = key) then Ok v
     else match Parameters.yieldCurveTenors_ (maps_ p) !! key' with
          | Some old => Ok old
          | None => if decide (key = EmptyString) then Ok v
                    else Parameters.yieldCurveTenors (maps_ p) key'
          end) ∧
  Parameters.yieldCurveDayCounter (maps_ (setYieldCurveDayCounters key d p)) key' =
    (if decide (key' = key) then Ok d
     else match Parameters.yieldCurveDayCounters_ (maps_ p) !! key' with
          | Some old => Ok old
          | None => if decide (key = EmptyString) then Ok d
                    else Parameters.yieldCurveDayCounter (maps_ p) key'
          end) ∧
  Parameters.yieldCurveDayCounter (maps_ (setYieldCurveTenors key v p)) key'
    = Parameters.yieldCurveDayCounter (maps_ p) key' ∧
  Parameters.yieldCurveTenors (maps_ (setYieldCurveDayCounters key d p)) key'
    = Parameters.yieldCurveTenors (maps_ p) key'.
Proof.
  unfold Parameters.yieldCurveTenors, Parameters.yieldCurveDayCounter,
    Parameters.returnTenors, Parameters.returnDayCounter,
    setYieldCurveTenors, setYieldCurveDayCounters, set_maps. simpl.
  split; [|split; [|done]].
  - rewrite !lookup_insert.
    destruct (decide (key' = key)) as [->|Hne].
    + by destruct (decide (key = key)).
    + rewrite (decide_False (P := key = key')) by done.
      destruct (Parameters.yieldCurveTenors_ (maps_ p) !! key'); [done|].
      by destruct (decide (key = EmptyString)).
  - rewrite !lookup_insert.
    destruct (decide (key' = key)) as [->|Hne].
    + by destruct (decide (key = key)).
    + rewrite (decide_False (P := key = key')) by done.
      destruct (Parameters.yieldCurveDayCounters_ (maps_ p) !! key'); [done|].
      by destruct (decide (key = EmptyString)).
Qed.

Lemma bool_decide_is_Some {A} (o : option A) :
  bool_decide (is_Some o) = match o with Some _ => true | None => false end.
Proof.
  destruct o.
  - apply bool_decide_eq_true_2. eauto.
  - apply bool_decide_eq_false_2. by intros [? ?].
Qed.

(** X8: hasCommodityCurveTenors looks for the exact name only, while
    commodityCurveTenors also falls back on the empty default: the accessor
    returns if and only if the name or the default has an entry, and after
    setDefaults it returns for every name although hasCommodityCurveTenors
    still answers for the name alone. *)
Theorem commodityCurveTenors_fallback commodityName p :
  isOk (Parameters.commodityCurveTenors (maps_ p) commodityName) =
    hasCommodityCurveTenors commodityName p || hasCommodityCurveTenors EmptyString p ∧
  hasCommodityCurveTenors commodityName (setDefaults p) =
    bool_decide (commodityName = EmptyString) || hasCommodityCurveTenors commodityName p ∧
  isOk (Parameters.commodityCurveTenors (maps_ (setDefaults p)) commodityName) = true ∧
  (∀ v name,
     hasCommodityCurveTenors name (setCommodityCurveTenors commodityName v p) =
       bool_decide (name = commodityName) || hasCommodityCurveTenors name p).
Proof.
  unfold hasCommodityCurveTenors, Parameters.commodityCurveTenors, Parameters.returnTenors.
  rewrite !bool_decide_is_Some.
  split; [|split; [|split]].
  - destruct (Parameters.commodityCurveTenors_ (maps_ p) !! commodityName); [done|].
    by destruct (Parameters.commodityCurveTenors_ (maps_ p) !! EmptyString).
  - rewrite maps_setDefaults. simpl. rewrite lookup_insert.
    destruct (decide (EmptyString = commodityName)) as [<-|Hne].
    + by rewrite bool_decide_eq_true_2.
    + by rewrite (bool_decide_eq_false_2 (commodityName = EmptyString)).
  - rewrite maps_setDefaults. simpl. rewrite lookup_insert, lookup_insert_eq.
    case_decide; [done|]. by destruct (_ !! commodityName).
  - intros v name. unfold setCommodityCurveTenors, set_maps. simpl.
    rewrite !bool_decide_is_Some, lookup_insert.
    destruct (decide (commodityName = name)) as [->|Hne].
    + by rewrite bool_decide_eq_true_2.
    + by rewrite (bool_decide_eq_false_2 (name = commodityName)).
Qed.






Lemma delimiterFree_nil delimiters : delimiterFree delimiters EmptyString.
Proof. constructor. Qed.

Lemma delimiterFree_cons delimiters c s :
  delimiterFree delimiters (String c s) ↔
  (c ∉ String.list_ascii_of_string delimiters) ∧ delimiterFree delimiters s.
Proof.
  unfold delimiterFree. simpl.
  apply (Forall_cons (λ c, c ∉ String.list_ascii_of_string delimiters)).
Qed.

Lemma split_nonempty delimiters s : split delimiters s ≠ [].
Proof.
  destruct s as [|c s]; simpl; [done|].
  case_bool_decide; [done|]. by destruct (split delimiters s).
Qed.

(** What [split] hands out, token by token. *)
Lemma split_inv delimiters s t ts :
  split delimiters s = t :: ts →
  delimiterFree delimiters t ∧
  ((ts = [] ∧ s = t) ∨
   (∃ c s', c ∈ String.list_ascii_of_string delimiters ∧
            s = t +:+ String c s' ∧ split delimiters s' = ts)).
Proof.
  revert t ts. induction s as [|c s IH]; intros t ts; simpl.
  - intros [= <- <-]. split; [apply delimiterFree_nil|]. by left.
  - case_bool_decide as Hc.
    + intros [= <- <-]. split; [apply delimiterFree_nil|].
      right. exists c, s. done.
    + destruct (split delimiters s) as [|t' ts'] eqn:Hs; [by apply split_nonempty in Hs|].
      intros [= <- <-].
      destruct (IH t' ts' eq_refl) as [Hfree Hcases].
      split; [by apply delimiterFree_cons|].
      destruct Hcases as [[-> ->]|(c' & s' & Hc' & -> & Hs')].
      * by left.
      * right. exists c', s'. done.
Qed.

Lemma split_free delimiters s : delimiterFree delimiters s → split delimiters s = [s].
Proof.
  induction s as [|c s IH]; [done|].
  intros [Hc Hs]%delimiterFree_cons. simpl.
  rewrite bool_decide_eq_false_2 by done. by rewrite IH.
Qed.

Lemma split_app delimiters a c b :
  delimiterFree delimiters a → c ∈ String.list_ascii_of_string delimiters →
  split delimiters (a +:+ String c b) = a :: split delimiters b.
Proof.
  intros Ha Hc. induction a as [|x a IH]; simpl.
  - by rewrite bool_decide_eq_true_2.
  - apply delimiterFree_cons in Ha as [Hx Ha].
    rewrite bool_decide_eq_false_2 by done. by rewrite IH.
Qed.

Lemma pairDelimiter_cases c s :
  c ∈ String.list_ascii_of_string pairDelimiters →
  String c s = "," +:+ s ∨ String c s = ":" +:+ s.
Proof.
  unfold pairDelimiters. simpl. intros Hc.
  apply elem_of_cons in Hc as [->|Hc]; [by left|].
  apply elem_of_cons in Hc as [->|Hc]; [by right|].
  by apply elem_of_nil in Hc.
Qed.

Lemma split_app_string delimiters a c b :
  delimiterFree delimiters a → c ∈ String.list_ascii_of_string delimiters →
  split delimiters (a +:+ String c EmptyString +:+ b) = a :: split delimiters b.
Proof. apply split_app. Qed.

Lemma correlationPair_of_parts a b :
  delimiterFree pairDelimiters a → delimiterFree pairDelimiters b →
  correlationPair (a +:+ "," +:+ b) = inr (a +:+ ":" +:+ b) ∧
  correlationPair (a +:+ ":" +:+ b) = inr (a +:+ ":" +:+ b).
Proof.
  intros Ha Hb. unfold correlationPair. split.
  - rewrite split_app_string, (split_free _ b); try done.
    unfold pairDelimiters. simpl. apply list_elem_of_here.
  - rewrite split_app_string, (split_free _ b); try done.
    unfold pairDelimiters. simpl. apply list_elem_of_further, list_elem_of_here.
Qed.

(** X10: a correlation pair of the document is accepted if and only if it is
    two parts without comma or colon joined by one comma or one colon; it is
    stored as the two parts joined by a colon, a form that is accepted again
    and stored unchanged. *)
Theorem correlationPair_spec (node : string) :
  let valid := ∃ a b, delimiterFree pairDelimiters a ∧ delimiterFree pairDelimiters b ∧
                      (node = a +:+ "," +:+ b ∨ node = a +:+ ":" +:+ b) in
  match correlationPair node with
  | inr q =>
      (∃ a b, delimiterFree pairDelimiters a ∧ delimiterFree pairDelimiters b ∧
              (node = a +:+ "," +:+ b ∨ node = a +:+ ":" +:+ b) ∧ q = a +:+ ":" +:+ b) ∧
      correlationPair q = inr q
  | inl e => e = NotAValidCorrelationPair node ∧ ¬ valid
  end.
Proof.
  intros valid. subst valid.
  destruct (correlationPair node) as [e|q] eqn:Hp.
  - assert (e = NotAValidCorrelationPair node) as ->.
    { unfold correlationPair in Hp.
      destruct (split pairDelimiters node) as [|? [|? [|? ?]]]; congruence. }
    split; [done|]. intros (a & b & Ha & Hb & [->| ->]).
    + destruct (correlationPair_of_parts a b Ha Hb) as [H1 _]. congruence.
    + destruct (correlationPair_of_parts a b Ha Hb) as [_ H2]. congruence.
  - unfold correlationPair in Hp.
    destruct (split pairDelimiters node) as [|t0 [|t1 [|? ?]]] eqn:Hs; try discriminate.
    injection Hp as <-.
    apply split_inv in Hs as [H0 [[? _]|(c & s' & Hc & -> & Hs)]]; [discriminate|].
    apply split_inv in Hs as [H1 [[_ ->]|(c' & s'' & _ & _ & Hs)]];
      [|by apply split_nonempty in Hs].
    split.
    + exists t0, t1. split; [done|]. split; [done|]. split; [|done].
      destruct (pairDelimiter_cases c t1 Hc) as [-> | ->]; auto.
    + by destruct (correlationPair_of_parts t0 t1 H0 H1) as [_ H2].
Qed.

End ParameterObjectProperties.

(** ** Further properties of update *)

Section UpdateOutcome.
Import SimMarket.
Context {Real : Type} `{!EqDecision Real} {G : Type}.
Variable generator : ScenarioGenerator Real G.
Variable indexFixing : World Real G → string → Date → Result Real.
Variable fxSpotValue : World Real G → string → Result Real.
Implicit Types (w : World Real G) (sc : Scenario Real)
  (b : gmap RiskFactorKey Real) (ks : list RiskFactorKey).

Lemma scenarioWrites_subset sc ks b :
  ∀ k, k ∈ (scenarioWrites sc ks b).*1 → k ∈ ks.
Proof.
  induction ks as [|k' ks IH]; intros k; simpl.
  - by intros ?%elem_of_nil.
  - destruct (b !! k'); [|intros Hin; apply elem_of_cons; right; by apply IH].
    destruct (data sc !! k'); [|by intros ?%elem_of_nil].
    rewrite fmap_cons. simpl. intros [->|Hin]%elem_of_cons.
    + apply elem_of_cons; by left.
    + apply elem_of_cons; right; by apply IH.
Qed.

Lemma matchedKeys_covered ks b :
  (∀ k, k ∈ ks → is_Some (b !! k)) → matchedKeys ks b = ks.
Proof.
  intros Hall. apply matchedKeys_all. intros Hex.
  apply Exists_exists in Hex as (k & Hin & Hnone).
  destruct (Hall k Hin) as [? ?]. congruence.
Qed.

(** X11: on a market without aggregation data sink, update returns if and
    only if every key of the scenario pulled has a cell and a value in the
    scenario and the number of scenario keys is the number of cells. *)
Theorem update_returns_iff_fit d w :
  asd_ (market w) = false →
  let sc := (pulled generator d w).1 in
  let b := simData_ (market w) in
  outcome (update generator indexFixing fxSpotValue d w) = Ok tt ↔
  (∀ k, k ∈ keys sc → is_Some (b !! k) ∧ is_Some (data sc !! k)) ∧
  length (keys sc) = size b.
Proof.
  intros Hasd sc b.
  destruct (update_run generator indexFixing fxSpotValue d w)
    as (_ & _ & _ & _ & Hok & Hfit).
  fold sc b in Hok, Hfit.
  split.
  - intros Hr. destruct (Hok Hr) as (Hv & Hs & Hlen & _).
    pose proof (matchedKeys_all _ _ Hs) as Hmk. fold sc b in Hmk.
    unfold everyMatchedKeyHasValue in Hv. fold sc b in Hv.
    rewrite Hmk in Hv, Hlen. split; [|done].
    intros k Hin. split.
    + destruct (b !! k) eqn:Hb; [eauto|].
      exfalso. apply Hs, Exists_exists. eauto.
    + rewrite Forall_forall in Hv. by apply Hv.
  - intros [Hall Hlen].
    assert (matchedKeys (keys sc) b = keys sc) as Hmk.
    { apply matchedKeys_covered. intros k Hin. by destruct (Hall k Hin). }
    apply Hfit; [| |by rewrite Hmk|done].
    + unfold everyMatchedKeyHasValue. rewrite Hmk. apply Forall_forall.
      intros k Hin. by destruct (Hall k Hin).
    + intros Hex. apply Exists_exists in Hex as (k & Hin & Hnone).
      destruct (Hall k Hin) as [[? ?] _]. congruence.
Qed.

(** X12: update does not undo its writes when it fails: whatever the outcome,
    the numeraire is the scenario's, the generator has moved on, the set of
    cells is the one before the call, a cell whose key the scenario does not
    name keeps its value, and, if the scenario holds a value for each of its
    keys with a cell, each such cell holds the scenario's value, also when
    the call ends with the missing-data or the size-mismatch error. *)
Theorem update_no_rollback d w :
  let r := update generator indexFixing fxSpotValue d w in
  let sc := (pulled generator d w).1 in
  let b := simData_ (market w) in
  let b' := simData_ (market (final r)) in
  numeraire_ (market (final r)) = Some (getNumeraire sc) ∧
  scenarioGenerator_ (market (final r)) = (pulled generator d w).2 ∧
  parameters_ (market (final r)) = parameters_ (market w) ∧
  asof_ (market (final r)) = asof_ (market w) ∧
  asd_ (market (final r)) = asd_ (market w) ∧
  (∀ k, is_Some (b' !! k) ↔ is_Some (b !! k)) ∧
  (∀ k, k ∉ keys sc → b' !! k = b !! k) ∧
  (everyMatchedKeyHasValue sc b →
   ∀ k, k ∈ keys sc → is_Some (b !! k) → b' !! k = data sc !! k).
Proof.
  intros r sc b b'.
  destruct (update_run generator indexFixing fxSpotValue d w) as (Hm & _).
  fold r sc b in Hm. subst b'. rewrite Hm. simpl.
  assert (Forall (λ kv, data sc !! kv.1 = Some kv.2) (scenarioWrites sc (keys sc) b)) as Hws.
  { eapply Forall_impl; [apply scenarioWrites_present|]. by intros ? [? ?]. }
  repeat split; try done.
  - apply scenarioWrites_is_Some.
  - apply scenarioWrites_is_Some.
  - intros k Hnin. rewrite (applyWrites_lookup sc _ _ _ Hws).
    rewrite decide_False; [done|]. intros Hin. by apply Hnin, (scenarioWrites_subset sc _ b).
  - intros Hv k Hin Hb. rewrite (applyWrites_lookup sc _ _ _ Hws).
    rewrite decide_True; [done|].
    unfold everyMatchedKeyHasValue in Hv. rewrite (scenarioWrites_keys sc _ _ Hv).
    unfold matchedKeys. by apply list_elem_of_filter.
Qed.
Lemma wp_and {S E A} (m : M S E A) (Q1 Q2 : Result A → S → list E → Prop) s :
  wp m Q1 s → wp m Q2 s → wp m (λ r s' evs, Q1 r s' evs ∧ Q2 r s' evs) s.
Proof. unfold wp. auto. Qed.

Lemma evaluationDate_stage_date om d w :
  wp (if decide (d ≠ evaluationDate (globals w)) then assignEvaluationDate d
      else match om with
           | ObservationMode.Unregister => notifyObservers EvaluationDateSetting
           | _ => ret tt
           end)
     (λ (r : Result unit) w' (evs : list (Event Real)), evaluationDate (globals w') = d) w.
Proof.
  unfold assignEvaluationDate, notifyObservers.
  destruct (decide (d ≠ evaluationDate (globals w))) as [Hne|Heq].
  - repeat wp_step; done.
  - apply dec_stable in Heq. destruct om; repeat wp_step; done.
Qed.

Lemma update_globals_spec d w :
  wp (update generator indexFixing fxSpotValue d)
     (λ r w' evs,
        evaluationDate (globals w') = d ∧
        mode (globals w') = mode (globals w) ∧
        notificationsAfter generator d w w') w.
Proof.
  unfold update, generatorNext, disableUpdates.
  wp_prim. wp_prim. cbv zeta.
  destruct (mode (globals w)) eqn:Hom; repeat wp_prim.
  all: (eapply wp_mono;
        [apply wp_and;
         [first [apply (evaluationDate_stage_spec ObservationMode.None)
                |apply (evaluationDate_stage_spec ObservationMode.Unregister)]
         |first [apply (evaluationDate_stage_date ObservationMode.None)
                |apply (evaluationDate_stage_date ObservationMode.Unregister)]]|]).
  all: intros r1 w1 evs1; cbv beta; intros [(-> & Hm1 & Hmode1 & Hen1 & Hdef1 & _) Hdate1].
  all: simpl in Hm1, Hmode1, Hen1, Hdef1.
  all: repeat wp_prim.
  all: (eapply wp_mono; [apply (applyKeys_spec indexFixing fxSpotValue)|]).
  all: intros r2 w2 evs2; cbv zeta; rewrite Hm1; simpl.
  all: intros ((l2 & -> & _) & _ & _ & _ & Hr2).
  all: assert (∀ P : Prop, P → ¬ P → False) as Habs by tauto.
  all: unfold notificationsAfter, scenarioFits, pulled, everyMatchedKeyHasValue,
         someKeyWithoutCell; cbv zeta; rewrite Hom.
  all: destruct r2 as [[c m]|e2]; [destruct Hr2 as (Hall & -> & Hmiss)|destruct Hr2 as (-> & Hnall)].
  (* the scenario throws on a key *)
  all: try (rewrite globals_withBank; simpl; rewrite ?Hen1, ?Hdef1, Hdate1, ?Hmode1; simpl;
            split; [done|]; split; [done|];
            first [done | split; [intros (Hv & _); by destruct (Hnall Hv)|done]]).
  (* the loop returned *)
  all: wp_prim; simpl negb; destruct m; unfold QL_REQUIRE; simpl negb; cbv iota; wp_prim.
  (* a key of the scenario has no cell *)
  all: try (rewrite globals_withBank; simpl; rewrite ?Hen1, ?Hdef1, Hdate1, ?Hmode1; simpl;
            split; [done|]; split; [done|];
            first [done
                  | split; [|done]; intros (_ & Hno & _); exfalso; apply Hno;
                    destruct Hmiss as [Hmiss _]; by destruct (Hmiss eq_refl)]).
  all: assert (¬ Exists (λ k, simData_ (market w) !! k = Datatypes.None)
                 (keys (next generator d (scenarioGenerator_ (market w))).1)) as Hnomiss
         by (intros Hex; destruct Hmiss as [_ Hmiss];
             assert (false = true) by (apply Hmiss; auto); discriminate).
  all: clear Hmiss.
  all: wp_prim; wp_prim; wp_prim; rewrite market_withBank; simpl.
  all: match goal with |- wp (if decide ?P then _ else _) _ _ => destruct (decide P) as [Hsize|Hsize] end.
  all: rewrite size_applyScenario in Hsize.
  (* the number of matched keys is not the number of cells *)
  all: try (wp_prim; rewrite globals_withBank; simpl;
            rewrite ?Hen1, ?Hdef1, Hdate1, ?Hmode1; simpl;
            split; [done|]; split; [done|];
            first [done | split; [|done]; by intros (_ & _ & Hlen)]).
  all: apply dec_stable in Hsize.
  all: repeat wp_prim.
  all: try (eapply wp_mono; [apply enableUpdates_spec|];
            intros r3 w3 evs3 (-> & -> & ->); cbv beta iota; repeat wp_prim).
  all: simpl; rewrite ?market_withBank, ?globals_withBank, Hm1; simpl.
  all: destruct (asd_ (market w)) eqn:Hasd;
    [eapply wp_mono; [apply recordAggregationScenarioData_spec|];
     intros r4 w4 evs4 (-> & _ & _)
    |wp_prim].
  all: simpl; rewrite ?globals_withBank; simpl; rewrite ?Hen1, ?Hdef1, Hdate1, ?Hmode1; simpl.
  all: split; [done|]; split; [done|].
  all: first [done | split; [done|]; intros Hnfit; exfalso; apply Hnfit; done].
Qed.

(** X13: update leaves the evaluation date at the date asked for and the
    observation mode as it was; a scenario that does not fit the bank makes
    it fail, and under the modes Disable and Defer the notifications it
    switched off then stay off; they are on again, with no notification
    pending, exactly when the scenario fits; under the other modes the
    observer settings are not touched. *)
Theorem update_notification_state d w :
  let r := update generator indexFixing fxSpotValue d w in
  evaluationDate (globals (final r)) = d ∧
  mode (globals (final r)) = mode (globals w) ∧
  notificationsAfter generator d w (final r) ∧
  (¬ scenarioFits generator d w → isErr (outcome r) = true).
Proof.
  intros r. pose proof (update_globals_spec d w) as (Hdate & Hmode & Hnote).
  fold r in Hdate, Hmode, Hnote.
  split; [exact Hdate|]. split; [exact Hmode|]. split; [exact Hnote|].
  intros Hnfit.
  destruct (update_run generator indexFixing fxSpotValue d w)
    as (_ & _ & Hknf & Herr & _). fold r in Hknf, Herr.
  unfold scenarioFits in Hnfit. cbv zeta in Hnfit.
  destruct (everyMatchedKeyHasValue_dec (pulled generator d w).1 (simData_ (market w)))
    as [Hv|Hv]; [|by rewrite (Hknf Hv)].
  destruct (Herr Hv) as [Hmiss Hsize].
  destruct (someKeyWithoutCell_dec (pulled generator d w).1 (simData_ (market w)))
    as [Hs|Hs]; [by rewrite (Hmiss Hs)|].
  destruct (decide (length (matchedKeys (keys (pulled generator d w).1)
                                        (simData_ (market w)))
                    = size (simData_ (market w)))) as [Hlen|Hlen].
  - exfalso. by apply Hnfit.
  - by rewrite (Hsize Hs Hlen).
Qed.
End UpdateOutcome.

(** ** Loading at the aggregation stage *)

Section OREAppLoading.
Import OREApp.
Variable env : Environment.


Lemma aggregationStage_loads a :
  wp (aggregationStage env)
     (λ r a' evs,
        (∀ cls, EvLoadCube cls ∈ evs → cube_ a = None) ∧
        (EvLoadScenarioData ∈ evs →
           scenarioData_ a = None ∧
           ∃ cube, cube_ a' = Some cube ∧ numIds cube = portfolio_size a) ∧
        (∀ c, cube_ a = Some c → cube_ a' = Some c) ∧
        (∀ sd, scenarioData_ a = Some sd → scenarioData_ a' = Some sd) ∧
        (∃ evs', evs = EvSetEvaluationDate (asof_ a) :: evs') ∧
        (EvWriteXVAReports ∈ evs → ∃ c sd, EvRunPostProcessor c sd ∈ evs) ∧
        (EvWriteDIMReport ∈ evs → EvWriteXVAReports ∈ evs ∧ writeDIMReport_ a = true)) a.
Proof.
  unfold aggregationStage, loadCube, loadScenarioData, runPostProcessor.
  repeat wp_step.
  all: simpl in *.
  all: split; [intros cls Hin; elem_cases Hin; done|].
  all: split; [intros Hin; elem_cases Hin; simplify_eq; decide_hyps;
               try (split; [done|];
                    first [by eauto | eexists; split; [reflexivity|done]])|].
  all: split; [intros c' Hc'; simplify_eq; done|].
  all: split; [intros sd' Hsd'; simplify_eq; done|].
  all: split; [eexists; reflexivity|].
  all: split; [intros Hin; elem_cases Hin; try (do 2 eexists; elem_find)|].
  all: intros Hin; elem_cases Hin; try (split; [elem_find|done]).
Qed.

(** X15: the aggregation stage first sets the evaluation date to the as-of
    date; it loads the cube file only when no cube is in memory and the
    scenario data file only when none is in memory and the cube in use has
    passed the check against the portfolio size; a cube or scenario data in
    memory is kept; the XVA reports are written only after the
    post-processor has run, and the DIM report only after them and when it
    is switched on. *)
Theorem aggregationStage_load_discipline a :
  let r := aggregationStage env a in
  (∀ cls, EvLoadCube cls ∈ emitted r → cube_ a = None) ∧
  (EvLoadScenarioData ∈ emitted r →
     scenarioData_ a = None ∧
     ∃ cube, cube_ (final r) = Some cube ∧ numIds cube = portfolio_size a) ∧
  (∀ c, cube_ a = Some c → cube_ (final r) = Some c) ∧
  (∀ sd, scenarioData_ a = Some sd → scenarioData_ (final r) = Some sd) ∧
  (∃ evs', emitted r = EvSetEvaluationDate (asof_ a) :: evs') ∧
  (EvWriteXVAReports ∈ emitted r → ∃ c sd, EvRunPostProcessor c sd ∈ emitted r) ∧
  (EvWriteDIMReport ∈ emitted r →
     EvWriteXVAReports ∈ emitted r ∧ writeDIMReport_ a = true).
Proof.
  intros r. pose proof (aggregationStage_loads a) as H. unfold wp in H. fold r in H.
  destruct H as (Hcube & Hdata & Hkeepc & Hkeepd & Hfirst & Hreports & Hdim).
  split; [exact Hcube|]. split; [exact Hdata|]. split; [exact Hkeepc|].
  split; [exact Hkeepd|]. split; [exact Hfirst|]. split; [exact Hreports|exact Hdim].
Qed.

End OREAppLoading.

(** ** What a construction that returns has required and registered *)

Section ConstructRequirements.
Import SimMarket.
Context {Real : Type} `{!EqDecision Real} {G : Type}.
Variable advance : Date → Period → Result Date.
Variable addSwapIndex : string → string → Result unit.
Variable initMarket : InitMarket (Real:=Real).
Variable parameters : ScenarioSimMarketParameters Real.











End ConstructRequirements.

Section ConstructKeys.
Import SimMarket.
Context {Real : Type} `{!EqDecision Real} {G : Type}.
Variable advance : Date → Period → Result Date.
Variable addSwapIndex : string → string → Result unit.
Variable initMarket : InitMarket (Real:=Real).
Variable parameters : ScenarioSimMarketParameters Real.

Implicit Types (b : gmap RiskFactorKey Real) (k : RiskFactorKey).

Lemma registers_Err {A} P b e b' (evs : list Empty_set) :
  registers (A:=A) P b (Err e) b' evs.
Proof. intros H. discriminate. Qed.

Lemma registers_nothing {A} b (a : A) (evs : list Empty_set) :
  registers (λ _, False) b (Ok a) b evs.
Proof. intros _ k. tauto. Qed.

Lemma registers_equiv {A} (P Q : RiskFactorKey → Prop) b (r : Result A) b'
    (evs evs' : list Empty_set) :
  (∀ k, P k ↔ Q k) → registers P b r b' evs → registers Q b r b' evs'.
Proof. intros HPQ H Hr k. rewrite (H Hr k), HPQ. done. Qed.

Lemma emplaced_is_Some b k (v : Real) j :
  is_Some (match b !! k with Some _ => b | Datatypes.None => <[k:=v]> b end !! j)
  ↔ is_Some (b !! j) ∨ j = k.
Proof.
  destruct (b !! k) as [x|] eqn:Hb.
  - split; [auto|]. intros [?| ->]; [done|]. rewrite Hb. eauto.
  - rewrite lookup_insert. case_decide; subst.
    + split; [auto|eauto].
    + split; [auto|]. intros [?|?]; [done|congruence].
Qed.

Lemma emplace_registers k (v : Real) b :
  wp (emplace k v) (registers (λ j, j = k) b) b.
Proof. unfold emplace. wp_step. intros _ j. apply emplaced_is_Some. Qed.

Lemma bind_registers {A B} (m : M (gmap RiskFactorKey Real) Empty_set A) (f : A → M (gmap RiskFactorKey Real) Empty_set B) P Q b :
  wp m (registers P b) b →
  (∀ a b1, wp (f a) (registers Q b1) b1) →
  wp (bind m f) (registers (λ k, P k ∨ Q k) b) b.
Proof.
  intros Hm Hf. apply wp_bind. eapply wp_mono; [exact Hm|].
  intros r b1 evs HP. destruct r as [a|e]; [|apply registers_Err].
  eapply wp_mono; [apply Hf|].
  intros r' b2 evs' HQ Hr k. rewrite (HQ Hr k), (HP eq_refl k). tauto.
Qed.

Lemma forEach_registers {A} (body : A → M (gmap RiskFactorKey Real) Empty_set unit) (P : A → RiskFactorKey → Prop)
    (l : list A) b :
  (∀ x b0, wp (body x) (registers (P x) b0) b0) →
  wp (forEach body l) (registers (λ k, ∃ x, x ∈ l ∧ P x k) b) b.
Proof.
  intros Hbody. revert b. induction l as [|x l IH]; intros b.
  - simpl. wp_step. intros _ k. split; [auto|].
    intros [?|(x & Hx & _)]; [done|]. by apply elem_of_nil in Hx.
  - simpl. eapply wp_mono.
    + apply (bind_registers _ _ (P x) (λ k, ∃ y, y ∈ l ∧ P y k)); [apply Hbody|].
      intros _ b1. apply IH.
    + intros r b' evs. apply registers_equiv. intros k. split.
      * intros [?|(y & Hy & ?)].
        -- exists x. split; [apply elem_of_cons; by left|done].
        -- exists y. split; [apply elem_of_cons; by right|done].
      * intros (y & [-> |Hy]%elem_of_cons & ?); [by left|right; eauto].
Qed.

Lemma mapResult_length {A B} (f : A → Result B) (l : list A) ys :
  mapResult f l = Ok ys → length ys = length l.
Proof.
  revert ys. induction l as [|x l IH]; intros ys; simpl.
  - by intros [= <-].
  - destruct (f x); [|discriminate]. destruct (mapResult f l); [|discriminate].
    intros [= <-]. simpl. f_equal. by apply IH.
Qed.

Lemma elem_of_indexed {A} (l : list A) i (x : A) :
  (i, x) ∈ indexed l ↔ l !! i = Some x.
Proof.
  unfold indexed. rewrite elem_of_lookup_imap. split.
  - intros (j & y & [= -> ->] & ?). done.
  - intros ?. eauto.
Qed.

Lemma indexed_bound {A} (l : list A) (P : nat → Prop) :
  (∃ x, x ∈ indexed l ∧ P x.1) ↔ ∃ i, i < length l ∧ P i.
Proof.
  split.
  - intros ([i x] & Hin & HP). apply elem_of_indexed in Hin.
    exists i. split; [|done]. by apply lookup_lt_Some in Hin.
  - intros (i & Hi & HP). apply lookup_lt_is_Some in Hi as [x Hx].
    exists (i, x). split; [by apply elem_of_indexed|done].
Qed.

(** The keys of one curve: one per tenor. *)
Lemma buildCurve_registers kt lookup nm b :
  wp (buildCurve advance initMarket parameters kt lookup nm)
     (registers (λ k, ∃ i, i < length (yieldCurveTenors parameters) ∧ k = mkKey kt nm i) b) b.
Proof.
  unfold buildCurve, tenorDates. repeat wp_step; try apply registers_Err.
  match goal with H : mapResult _ _ = Ok ?ds |- _ =>
    rename H into Hdates; pose proof (mapResult_length _ _ _ Hdates) as Hlen end.
  eapply wp_mono.
  - apply (forEach_registers _ (λ x k, k = mkKey kt nm x.1)).
    intros [i date] b0. repeat wp_step; try apply registers_Err.
    unfold emplace. wp_step. intros _ j. apply emplaced_is_Some.
  - intros r b' evs. apply registers_equiv. intros k.
    rewrite (indexed_bound _ (λ i, k = mkKey kt nm i)). by rewrite Hlen.
Qed.

Lemma blackVol_registers kt simulate expiries decay wrapper nm b :
  wp (buildBlackVol advance initMarket kt simulate expiries decay wrapper nm)
     (registers (λ k, simulate = true ∧ ∃ i, i < length expiries ∧ k = mkKey kt nm i) b) b.
Proof.
  unfold buildBlackVol. destruct simulate.
  - eapply wp_mono.
    + apply (forEach_registers _ (λ x k, k = mkKey kt nm x.1)).
      intros [i expiry] b0. repeat wp_step; try apply registers_Err.
      unfold emplace. wp_step. intros _ j. apply emplaced_is_Some.
    + intros r b' evs. apply registers_equiv. intros k.
      rewrite (indexed_bound _ (λ i, k = mkKey kt nm i)). tauto.
  - repeat wp_step; try apply registers_Err.
    intros _ k. split; [auto|]. intros [?|[? _]]; [done|discriminate].
Qed.

Lemma forEach_registers_nothing {A} (body : A → M (gmap RiskFactorKey Real) Empty_set unit) (l : list A) b :
  (∀ x b0, wp (body x) (registers (λ _, False) b0) b0) →
  wp (forEach body l) (registers (λ _, False) b) b.
Proof.
  intros Hbody. eapply wp_mono; [apply (forEach_registers _ (λ _ _, False)); apply Hbody|].
  intros r b' evs. apply registers_equiv. intros k. split; [by intros (? & _ & ?)|done].
Qed.

Lemma index_product (a c n : nat) :
  (∃ i j, i < a ∧ j < c ∧ n = i * c + j) ↔ n < a * c.
Proof.
  split.
  - intros (i & j & Hi & Hj & ->). nia.
  - intros Hn. destruct c as [|c]; [lia|].
    exists (n `div` S c), (n `mod` S c).
    pose proof (Nat.div_mod_eq n (S c)).
    pose proof (Nat.mod_upper_bound n (S c)).
    split; [apply Nat.Div0.div_lt_upper_bound; lia|]. split; lia.
Qed.

Lemma buildFxSpots_registers b :
  wp (buildFxSpots initMarket parameters)
     (registers (stageSpot FXSpot (fxCcyPairs parameters)) b) b.
Proof.
  unfold buildFxSpots, stageSpot.
  apply (forEach_registers _ (λ nm k, k = mkKey FXSpot nm 0)).
  intros pair b0. repeat wp_step; try apply registers_Err.
  unfold emplace. wp_step. intros _ j. apply emplaced_is_Some.
Qed.

Lemma buildEquitySpots_registers b :
  wp (buildEquitySpots initMarket parameters)
     (registers (stageSpot EQSpot (equityNames parameters)) b) b.
Proof.
  unfold buildEquitySpots, stageSpot.
  apply (forEach_registers _ (λ nm k, k = mkKey EQSpot nm 0)).
  intros pair b0. repeat wp_step; try apply registers_Err.
  unfold emplace. wp_step. intros _ j. apply emplaced_is_Some.
Qed.

Lemma buildYieldCurveTimes_registers b :
  wp (buildYieldCurveTimes advance initMarket parameters) (registers (λ _, False) b) b.
Proof.
  unfold buildYieldCurveTimes, tenorDates.
  repeat wp_step; first [apply registers_Err | apply registers_nothing].
Qed.

Lemma buildCurves_registers kt lookup names b :
  wp (forEach (buildCurve advance initMarket parameters kt lookup) names)
     (registers (stageGrid kt names (length (yieldCurveTenors parameters))) b) b.
Proof.
  unfold stageGrid.
  apply (forEach_registers _
           (λ nm k, ∃ i, i < length (yieldCurveTenors parameters) ∧ k = mkKey kt nm i)).
  intros nm b0. apply buildCurve_registers.
Qed.

Lemma buildSecuritySpreads_registers b :
  wp (buildSecuritySpreads initMarket parameters) (registers (λ _, False) b) b.
Proof.
  unfold buildSecuritySpreads. apply forEach_registers_nothing.
  intros nm b0. repeat wp_step; first [apply registers_Err | apply registers_nothing].
Qed.

Lemma buildSwapIndices_registers b :
  wp (buildSwapIndices addSwapIndex parameters) (registers (λ _, False) b) b.
Proof.
  unfold buildSwapIndices. apply forEach_registers_nothing.
  intros [nm disc] b0. repeat wp_step; first [apply registers_Err | apply registers_nothing].
Qed.

Lemma bind_registers_nothing {A B} (m : M (gmap RiskFactorKey Real) Empty_set A) (f : A → M (gmap RiskFactorKey Real) Empty_set B) b :
  wp m (registers (λ _, False) b) b →
  (∀ a b1, wp (f a) (registers (λ _, False) b1) b1) →
  wp (bind m f) (registers (λ _, False) b) b.
Proof.
  intros Hm Hf. eapply wp_mono; [by apply (bind_registers _ _ (λ _, False) (λ _, False))|].
  intros r b' evs. apply registers_equiv. tauto.
Qed.

Lemma liftResult_registers {A} (r : Result A) b :
  wp (liftResult r : M (gmap RiskFactorKey Real) Empty_set A) (registers (λ _, False) b) b.
Proof. destruct r; simpl; wp_step; first [apply registers_Err | apply registers_nothing]. Qed.

Lemma ret_registers {A} (a : A) b :
  wp (ret a : M (gmap RiskFactorKey Real) Empty_set A) (registers (λ _, False) b) b.
Proof. wp_step. apply registers_nothing. Qed.

Lemma QL_REQUIRE_registers c e b :
  wp (QL_REQUIRE c e : M (gmap RiskFactorKey Real) Empty_set unit) (registers (λ _, False) b) b.
Proof. destruct c; simpl; wp_step; first [apply registers_Err | apply registers_nothing]. Qed.

(** Symbolic execution of a block that calls no [emplace]. *)
Ltac registers_nothing_tac :=
  repeat first
    [ apply bind_registers_nothing; [|intros ? ?]
    | apply liftResult_registers
    | apply ret_registers
    | apply QL_REQUIRE_registers
    | apply forEach_registers_nothing; intros ? ?
    | match goal with
      | |- wp (match ?x with _ => _ end) _ _ => destruct x
      end ].

Lemma tenorDates_registers tenors e b :
  wp (tenorDates advance initMarket tenors e) (registers (λ _, False) b) b.
Proof. unfold tenorDates. registers_nothing_tac. Qed.

Lemma buildDefaultCurves_registers b :
  wp (buildDefaultCurves advance initMarket parameters) (registers (λ _, False) b) b.
Proof.
  unfold buildDefaultCurves. apply forEach_registers_nothing.
  intros nm b0. unfold buildDefaultCurve.
  apply bind_registers_nothing; [apply liftResult_registers|intros wrapper b1].
  apply bind_registers_nothing; [apply tenorDates_registers|intros dates b2].
  registers_nothing_tac.
Qed.

Lemma buildEquityCurveDates_registers b :
  wp (buildEquityCurveDates advance initMarket parameters) (registers (λ _, False) b) b.
Proof.
  unfold buildEquityCurveDates.
  repeat wp_step; first [apply registers_Err | apply registers_nothing].
Qed.

Lemma buildEquityDividendCurves_registers dates b :
  wp (buildEquityDividendCurves initMarket parameters dates) (registers (λ _, False) b) b.
Proof.
  unfold buildEquityDividendCurves. apply forEach_registers_nothing.
  intros nm b0. repeat wp_step; try apply registers_Err.
  apply forEach_registers_nothing. intros date b1.
  repeat wp_step; first [apply registers_Err | apply registers_nothing].
Qed.

Lemma buildEqVols_registers b :
  wp (buildEqVols advance initMarket parameters)
     (registers (λ k, simulateEQVols parameters = true ∧
                      stageGrid EQVolatility (eqVolNames parameters)
                                (length (eqVolExpiries parameters)) k) b) b.
Proof.
  unfold buildEqVols. eapply wp_mono.
  - apply (forEach_registers _
             (λ nm k, simulateEQVols parameters = true ∧
                      ∃ i, i < length (eqVolExpiries parameters) ∧
                           k = mkKey EQVolatility nm i)).
    intros nm b0. unfold buildEqVol. repeat wp_step; try apply registers_Err.
    apply blackVol_registers.
  - intros r b' evs. apply registers_equiv. intros k. unfold stageGrid.
    split.
    + intros (nm & Hin & Hs & Hi). eauto.
    + intros (Hs & nm & Hin & Hi). eauto.
Qed.

Lemma buildFxVols_registers b :
  wp (buildFxVols advance initMarket parameters)
     (registers (λ k, simulateFXVols parameters = true ∧
                      stageGrid FXVolatility (fxVolCcyPairs parameters)
                                (length (fxVolExpiries parameters)) k) b) b.
Proof.
  unfold buildFxVols. eapply wp_mono.
  - apply (forEach_registers _
             (λ nm k, simulateFXVols parameters = true ∧
                      ∃ i, i < length (fxVolExpiries parameters) ∧
                           k = mkKey FXVolatility nm i)).
    intros nm b0. unfold buildFxVol.
    wp_step. wp_step; [|apply registers_Err]. wp_step.
    eapply wp_mono.
    + eapply (bind_registers _ _ _ (λ _, False)); [apply blackVol_registers|].
      intros _ b1.
      repeat wp_step; first [apply registers_Err | apply registers_nothing].
    + intros r b' evs. apply registers_equiv. tauto.
  - intros r b' evs. apply registers_equiv. intros k. unfold stageGrid.
    split.
    + intros (nm & Hin & Hs & Hi). eauto.
    + intros (Hs & nm & Hin & Hi). eauto.
Qed.

Lemma buildCapFloorVols_registers b :
  wp (buildCapFloorVols advance initMarket parameters)
     (registers (λ k, simulateCapFloorVols parameters = true ∧
                      stageGrid OptionletVolatility (capFloorVolCcys parameters)
                                (length (capFloorVolExpiries parameters)
                                 * length (capFloorVolStrikes parameters)) k) b) b.
Proof.
  unfold buildCapFloorVols. eapply wp_mono.
  - apply (forEach_registers _
             (λ nm k, simulateCapFloorVols parameters = true ∧
                      ∃ i j, i < length (capFloorVolExpiries parameters) ∧
                             j < length (capFloorVolStrikes parameters) ∧
                             k = mkKey OptionletVolatility nm
                                   (i * length (capFloorVolStrikes parameters) + j))).
    intros nm b0. unfold buildCapFloorVol. repeat wp_step; try apply registers_Err.
    + eapply wp_mono.
      * apply (forEach_registers _
                 (λ x k, ∃ j, j < length (capFloorVolStrikes parameters) ∧
                              k = mkKey OptionletVolatility nm
                                    (x.1 * length (capFloorVolStrikes parameters) + j))).
        intros [i optionTenor] b1. repeat wp_step; try apply registers_Err.
        eapply wp_mono.
        -- apply (forEach_registers _
                    (λ y k, k = mkKey OptionletVolatility nm
                                  (i * length (capFloorVolStrikes parameters) + y.1))).
           intros [j strike] b2. repeat wp_step; try apply registers_Err.
           unfold emplace. wp_step. intros _ k. apply emplaced_is_Some.
        -- intros r b' evs. apply registers_equiv. intros k. simpl.
           apply (indexed_bound _
                    (λ j, k = mkKey OptionletVolatility nm
                                (i * length (capFloorVolStrikes parameters) + j))).
      * intros r b' evs. apply registers_equiv. intros k.
        rewrite (indexed_bound _
                   (λ i, ∃ j, j < length (capFloorVolStrikes parameters) ∧
                              k = mkKey OptionletVolatility nm
                                    (i * length (capFloorVolStrikes parameters) + j))).
        split.
        -- intros (i & Hi & j & Hj & ->). split; [done|]. eauto 10.
        -- intros (_ & i & j & Hi & Hj & ->). eauto 10.
    + intros _ k. split; [auto|]. intros [?|[? _]]; [done|congruence].
  - intros r b' evs. apply registers_equiv. intros k. unfold stageGrid.
    split.
    + intros (nm & Hin & Hs & i & j & Hi & Hj & ->). split; [done|].
      exists nm. split; [done|]. eexists. split; [|reflexivity].
      apply index_product. eauto.
    + intros (Hs & nm & Hin & n & Hn & ->).
      apply index_product in Hn as (i & j & Hi & Hj & ->). eauto 10.
Qed.

Lemma buildSwaptionVols_registers b :
  wp (buildSwaptionVols initMarket parameters)
     (registers (λ k, simulateSwapVols parameters = true ∧
                      stageGrid SwaptionVolatility (swapVolCcys parameters)
                                (length (swapVolExpiries parameters)
                                 * length (swapVolTerms parameters)) k) b) b.
Proof.
  unfold buildSwaptionVols. eapply wp_mono.
  - apply (forEach_registers _
             (λ nm k, simulateSwapVols parameters = true ∧
                      ∃ i j, i < length (swapVolExpiries parameters) ∧
                             j < length (swapVolTerms parameters) ∧
                             k = mkKey SwaptionVolatility nm
                                   (i * length (swapVolTerms parameters) + j))).
    intros nm b0. unfold buildSwaptionVol.
    wp_step. wp_step; [|apply registers_Err].
    wp_step.
    assert (∀ (wrapper : SwaptionVolatilityStructure (Real:=Real)) b1,
      wp ((if simulateSwapVols parameters
           then
            forEach
              (λ '(i, optionTenor),
                 forEach
                   (λ '(j, swapTenor),
                      let* vol := liftResult (sv_volatility wrapper optionTenor swapTenor) in
                      emplace (mkKey SwaptionVolatility nm
                                 (i * length (swapVolTerms parameters) + j)) vol;;
                      let* _ := liftResult (sv_shift wrapper optionTenor swapTenor) in
                      ret tt)
                   (indexed (swapVolTerms parameters)))
              (indexed (swapVolExpiries parameters))
           else
            let* _ := liftResult (parseDecayMode (swapVolDecayMode parameters)) in
            ret tt);;
          liftResult (swapIndexBases initMarket nm))
         (registers
            (λ k, simulateSwapVols parameters = true ∧
                  ∃ i j, i < length (swapVolExpiries parameters) ∧
                         j < length (swapVolTerms parameters) ∧
                         k = mkKey SwaptionVolatility nm
                               (i * length (swapVolTerms parameters) + j)) b1) b1) as Hrest.
    { intros wrapper b1. eapply wp_mono.
      - apply (bind_registers _ _
                 (λ k, simulateSwapVols parameters = true ∧
                       ∃ i j, i < length (swapVolExpiries parameters) ∧
                              j < length (swapVolTerms parameters) ∧
                              k = mkKey SwaptionVolatility nm
                                    (i * length (swapVolTerms parameters) + j))
                 (λ _, False)).
        + destruct (simulateSwapVols parameters).
          * eapply wp_mono.
            -- apply (forEach_registers _
                 (λ x k, ∃ j, j < length (swapVolTerms parameters) ∧
                              k = mkKey SwaptionVolatility nm
                                    (x.1 * length (swapVolTerms parameters) + j))).
               intros [i optionTenor] b2. eapply wp_mono.
               ++ apply (forEach_registers _
                    (λ y k, k = mkKey SwaptionVolatility nm
                                  (i * length (swapVolTerms parameters) + y.1))).
                  intros [j swapTenor] b3. unfold emplace.
                  repeat wp_step; try apply registers_Err.
                  all: intros _ k; rewrite app_nil_r || idtac; apply emplaced_is_Some.
               ++ intros r b' evs. apply registers_equiv. intros k. simpl.
                  apply (indexed_bound _
                           (λ j, k = mkKey SwaptionVolatility nm
                                       (i * length (swapVolTerms parameters) + j))).
            -- intros r b' evs. apply registers_equiv. intros k.
               rewrite (indexed_bound _
                          (λ i, ∃ j, j < length (swapVolTerms parameters) ∧
                                     k = mkKey SwaptionVolatility nm
                                           (i * length (swapVolTerms parameters) + j))).
               split.
               ++ intros (i & Hi & j & Hj & ->). split; [done|]. eauto 10.
               ++ intros (_ & i & j & Hi & Hj & ->). eauto 10.
          * repeat wp_step; try apply registers_Err.
            intros _ k. split; [auto|]. intros [?|[? _]]; [done|congruence].
        + intros _ b2.
          repeat wp_step; first [apply registers_Err | apply registers_nothing].
      - intros r b' evs. apply registers_equiv. tauto. }
    wp_step.
    destruct (negb (sv_isNormal a) && sv_isMatrix a).
    + wp_step; wp_step; [|apply registers_Err].
      eapply wp_mono; [apply Hrest|].
      intros r b' evs. by apply registers_equiv.
    + wp_step.
      eapply wp_mono; [apply Hrest|].
      intros r b' evs. by apply registers_equiv.
  - intros r b' evs. apply registers_equiv. intros k. unfold stageGrid.
    split.
    + intros (nm & Hin & Hs & i & j & Hi & Hj & ->). split; [done|].
      exists nm. split; [done|]. eexists. split; [|reflexivity].
      apply index_product. eauto.
    + intros (Hs & nm & Hin & n & Hn & ->).
      apply index_product in Hn as (i & j & Hi & Hj & ->). eauto 10.
Qed.

Lemma buildSimData_registers b :
  wp (buildSimData advance addSwapIndex initMarket parameters) (registers (registeredKeys parameters) b) b.
Proof.
  unfold buildSimData. eapply wp_mono.
  - eapply bind_registers; [apply buildFxSpots_registers|intros _ b1].
    eapply bind_registers; [apply buildYieldCurveTimes_registers|intros _ b2].
    eapply bind_registers; [apply buildCurves_registers|intros _ b3].
    eapply bind_registers; [apply buildCurves_registers|intros _ b4].
    eapply bind_registers; [apply buildSecuritySpreads_registers|intros _ b5].
    eapply bind_registers; [apply buildCurves_registers|intros _ b6].
    eapply bind_registers; [apply buildSwapIndices_registers|intros _ b7].
    eapply bind_registers; [apply buildSwaptionVols_registers|intros _ b8].
    eapply bind_registers; [apply buildCapFloorVols_registers|intros _ b9].
    eapply bind_registers; [apply buildDefaultCurves_registers|intros _ b10].
    eapply bind_registers; [apply buildFxVols_registers|intros _ b11].
    eapply bind_registers; [apply buildEquitySpots_registers|intros _ b12].
    eapply bind_registers; [apply buildEquityCurveDates_registers|intros dates b13].
    eapply bind_registers; [apply buildEquityDividendCurves_registers|intros _ b14].
    apply buildEqVols_registers.
  - intros r b' evs. apply registers_equiv. intros k. unfold registeredKeys. tauto.
Qed.

Ltac stage_done :=
  repeat match goal with
         | |- _ ∧ _ => split
         | |- ∃ _, _ => eexists
         end;
  first [eassumption | reflexivity].

Lemma registeredKeys_declared k :
  registeredKeys parameters k ↔ declaredKey parameters k.
Proof.
  destruct k as [kt nm i]. unfold registeredKeys, declaredKey, stageSpot, stageGrid.
  simpl. split.
  - intros H.
    repeat match goal with
           | H : _ ∨ _ |- _ => destruct H as [H|H]
           | H : _ ∧ _ |- _ => destruct H as [? H]
           | H : ∃ _, _ |- _ => destruct H as [? H]
           | H : mkKey _ _ _ = mkKey _ _ _ |- _ => injection H as -> -> ->
           end; simpl; auto.
  - destruct kt; intros H;
      repeat match goal with
             | H : _ ∧ _ |- _ => destruct H as [? H]
             end; subst.
    + right; left. stage_done.
    + do 2 right; left. stage_done.
    + do 3 right; left. stage_done.
    + do 4 right; left. stage_done.
    + do 5 right; left. stage_done.
    + left. stage_done.
    + do 6 right; left. stage_done.
    + do 7 right; left. stage_done.
    + do 8 right. stage_done.
Qed.

(** X17: the market a construction returns has a quote cell for a key if and
    only if the parameters declare it: index 0 for every FX pair and equity
    name, one index per yield curve tenor for every currency, benchmark
    curve and index, one per expiry and term for every swaption volatility
    currency, one per expiry and strike for every cap/floor currency and one
    per expiry for every FX and equity volatility name, the volatilities
    only when they are simulated; the indices of a name are contiguous from
    0. *)
Theorem construct_registered_keys (g : G) m :
  construct advance addSwapIndex initMarket parameters g = Ok m →
  (∀ k, is_Some (simData_ m !! k) ↔ declaredKey parameters k) ∧
  (∀ kt nm i, is_Some (simData_ m !! mkKey kt nm i) →
     ∀ j, j < i → is_Some (simData_ m !! mkKey kt nm j)).
Proof.
  intros Hc. apply construct_Ok_inv in Hc as [Hok ->]. simpl.
  pose proof (buildSimData_registers ∅) as Hreg. unfold wp, registers in Hreg.
  rewrite Hok in Hreg. specialize (Hreg eq_refl).
  assert (∀ k, is_Some (final (buildSimData advance addSwapIndex initMarket parameters ∅) !! k)
               ↔ declaredKey parameters k) as Hkeys.
  { intros k. rewrite Hreg, registeredKeys_declared, lookup_empty.
    split; [intros [[? ?]|?]; [discriminate|done]|auto]. }
  split; [exact Hkeys|].
  intros kt nm i Hi j Hj. apply Hkeys. apply Hkeys in Hi.
  unfold declaredKey in *. simpl in *.
  destruct kt; repeat split; try tauto; try lia.
  all: try (destruct Hi as (? & ? & ?); lia).
Qed.
End ConstructKeys.

(** ** The further properties at concrete inputs *)

Section ConcreteExtras.
Import SimMarket Examples.

Lemma composite_name_setters_witness :
  let e := ParameterObject.setEquityNames ["SP5"; "Lufthansa"]
             (ParameterObject.setDefaults freshParameterObject) in
  ParameterObject.paramsSimulate ParameterObject.EquitySpot e = true ∧
  ParameterObject.paramsSimulate ParameterObject.DividendYield e = false ∧
  ParameterObject.paramsLookup ParameterObject.EquitySpot e
    = ParameterObject.paramsLookup ParameterObject.DividendYield e.
Proof.
  destruct (composite_name_setters ["SP5"; "Lufthansa"] freshParameterObject)
    as (He & _); [done|reflexivity|].
  exact He.
Defined.

Lemma update_returns_iff_fit_witness :
  outcome (update (constantGenerator fullScenario) constantFixing constantFxSpot
                  42001%Z (exampleWorld ObservationMode.None false)) = Ok tt.
Proof.
  apply (update_returns_iff_fit (constantGenerator fullScenario) constantFixing
           constantFxSpot 42001%Z (exampleWorld ObservationMode.None false)).
  - reflexivity.
  - split; [|vm_compute; reflexivity].
    intros k Hin. simpl in Hin.
    apply elem_of_cons in Hin as [->|Hin];
      [|apply elem_of_cons in Hin as [->|Hin]; [|by apply elem_of_nil in Hin]].
    + split; eexists; vm_compute; reflexivity.
    + split; eexists; vm_compute; reflexivity.
Defined.


Lemma construct_registered_keys_witness :
  ∃ m, construct addDays noSwapIndex flatMarket smallParameters 0 = Ok m ∧
       is_Some (simData_ m !! mkKey SwaptionVolatility "EUR" 5) ∧
       ¬ is_Some (simData_ m !! mkKey SwaptionVolatility "EUR" 6) ∧
       ¬ is_Some (simData_ m !! mkKey EQVolatility "SP5" 0).
Proof.
  destruct (construct addDays noSwapIndex flatMarket smallParameters 0) as [m|e] eqn:Hc;
    [|vm_compute in Hc; discriminate].
  exists m. split; [reflexivity|].
  destruct (construct_registered_keys addDays noSwapIndex flatMarket smallParameters 0 m Hc)
    as (Hkeys & _).
  split; [|split].
  - apply Hkeys. unfold declaredKey. simpl.
    split; [done|]. split; [apply list_elem_of_here|lia].
  - intros H. apply Hkeys in H. unfold declaredKey in H. simpl in H.
    destruct H as (_ & _ & H). lia.
  - intros H. apply Hkeys in H. unfold declaredKey in H. simpl in H.
    destruct H as (H & _). discriminate.
Defined.

End ConcreteExtras.
